(** * Volume shadow copy (VSS) support of restic's local file system

    A shallow embedding of
      - [internal/fs/vss_windows.go]  (the snapshot orchestrator on windows),
      - [internal/fs/vss.go]          (the dummy for every other platform),
      - [internal/fs/fs_local_vss.go] (the snapshot-backed path resolver),
    followed by the properties of the specification that were checked
    against it.

    The native backup-coordination API, the clock and the operating system
    are an environment the Go code talks to.  The environment is modelled as
    a [Script]: the answer to every native call is a function of the number
    of native calls made before it (the [tick]).  Any deterministic
    environment induces such a script for a given run.  Every native call is
    recorded, with its arguments and its answer, in the [trace]. *)

From Stdlib Require Import ZArith.
From stdpp Require Import gmap strings list.

(** ** Go control flow: results, panics, loops that may not end *)

Module Go.

(** How a Go call ends: it returns, it panics, or (for a loop without a
    bound) the model has run out of fuel before the loop ended. *)
Inductive outcome (A : Type) : Type :=
| Ret (a : A)
| Panic (msg : string)
| OutOfFuel.
Arguments Ret {A} a.
Arguments Panic {A} msg.
Arguments OutOfFuel {A}.

(** Stateful computations over a state [S]. The state is kept when the
    computation panics, so that the calls made before remain visible. *)
Definition M (S A : Type) : Type := S → outcome A * S.

Definition ret {S A} (a : A) : M S A := λ s, (Ret a, s).
Definition panic {S A} (msg : string) : M S A := λ s, (Panic msg, s).
Definition out_of_fuel {S A} : M S A := λ s, (OutOfFuel, s).

Definition bind {S A B} (m : M S A) (k : A → M S B) : M S B :=
  λ s, match m s with
       | (Ret a, s') => k a s'
       | (Panic msg, s') => (Panic msg, s')
       | (OutOfFuel, s') => (OutOfFuel, s')
       end.

(** [defer d body]: Go's [defer]. The deferred call runs when the body
    returns and when it panics; it never runs when the body never ends. *)
Definition defer {S A} (d : M S unit) (body : M S A) : M S A :=
  λ s, match body s with
       | (Ret a, s') =>
           match d s' with
           | (Ret _, s'') => (Ret a, s'')
           | (Panic msg, s'') => (Panic msg, s'')
           | (OutOfFuel, s'') => (OutOfFuel, s'')
           end
       | (Panic msg, s') =>
           match d s' with
           | (OutOfFuel, s'') => (OutOfFuel, s'')
           | (_, s'') => (Panic msg, s'')
           end
       | (OutOfFuel, s') => (OutOfFuel, s')
       end.

(** Run a computation of a component inside a larger state. *)
Definition lift {S T A} (get : T → S) (set : S → T → T) (m : M S A) : M T A :=
  λ t, let '(o, s') := m (get t) in (o, set s' t).

End Go.
Export Go.

Notation "'let*' p := m 'in' k" := (bind m (λ p, k))
  (at level 10, p pattern, m at level 100, k at level 200).

(** ** The functions of Go's [strings] package and the slice expression used *)

Module Strings.

(** [strings.HasPrefix(s, prefix)] *)
Fixpoint HasPrefix (s prefix : string) {struct prefix} : bool :=
  match prefix, s with
  | EmptyString, _ => true
  | String c prefix', String d s' =>
      if decide (c = d) then HasPrefix s' prefix' else false
  | String _ _, EmptyString => false
  end.

(** [s[n:]] for [n <= len(s)] *)
Fixpoint drop (n : nat) (s : string) : string :=
  match n, s with
  | O, _ => s
  | S n', String _ s' => drop n' s'
  | S _, EmptyString => EmptyString
  end.

(** [strings.TrimPrefix(s, prefix)]: [s] without the leading [prefix];
    [s] itself when it does not start with [prefix]. *)
Definition TrimPrefix (s prefix : string) : string :=
  if HasPrefix s prefix then drop (String.length prefix) s else s.

(** [s[:n]]: the first [n] bytes; Go panics with "slice bounds out of
    range" when [len(s) < n], which is [None] here. *)
Fixpoint slice_to (n : nat) (s : string) : option string :=
  match n, s with
  | O, _ => Some EmptyString
  | S n', String c s' => String c <$> slice_to n' s'
  | S _, EmptyString => None
  end.

End Strings.

(** ** Error values

    Every [fmt.Errorf] and [errors.New] of the three files is one
    constructor, which keeps the arguments of its format string. *)

Inductive error : Type :=
  (** an error value handed over by the operating system or a library *)
| ErrNative (msg : string)
  (** "VSS error: Failed to detect windows architecture: %s" *)
| ErrDetectArchitecture (msg : string)
  (** "VSS error: executables compiled for %s can't use VSS on other
      architectures. Please use an executable compiled for your platform." *)
| ErrArchitecture (goarch : string)
  (** "VSS error: %s (%#x) The caller does not have sufficient backup
      privileges or is not an administrator." *)
| ErrAccessDenied (str : string) (result : Z)
  (** "VSS error: Failed to create VSS instance:  %s (%#x)" *)
| ErrCreateInstance (str : string) (result : Z)
  (** "QueryInterface failed: %#x" *)
| ErrQueryInterface (result : Z)
  (** "VSS error: %s() returned %s (%#x)" *)
| ErrReturned (name : string) (str : string) (hRes : Z)
  (** "VSS error: Snapshots are not supported for volume %s" *)
| ErrNotSupported (volume : string)
  (** "VSS error: %s() returned nil" *)
| ErrReturnedNil (name : string)
  (** "VSS error: Wait timed out. Waited for more than %d ms." *)
| ErrWaitTimedOut (millis : Z)
  (** "VSS error: Failed to delete snapshot:  %s (%#x)" *)
| ErrDeleteSnapshot (str : string) (hResult : Z)
  (** "VSS snapshots are only supported on windows" *)
| ErrOnlyOnWindows.

#[global] Instance error_eq_dec : EqDecision error.
Proof. solve_decision. Defined.

(** The step an error names, and the native status code it carries. *)
Definition error_step (e : error) : option string :=
  match e with
  | ErrReturned name _ _ | ErrReturnedNil name => Some name
  | _ => None
  end.


(** ** [vss_windows.go]: the snapshot orchestrator *)

Module VssWindows.

#[local] Open Scope Z_scope.

(** *** Native values *)

(** [type HRESULT uint]; [HRESULT(result)] converts a [uintptr] of the same
    width, so that no conversion changes a value. *)
Abbreviation HRESULT := Z (only parsing).

Definition S_OK : HRESULT := 0x00000000.
Definition E_ACCESSDENIED : HRESULT := 0x80070005.
Definition E_OUTOFMEMORY : HRESULT := 0x8007000E.
Definition E_INVALIDARG : HRESULT := 0x80070057.
Definition VSS_E_BAD_STATE : HRESULT := 0x80042301.
Definition VSS_E_LEGACY_PROVIDER : HRESULT := 0x800423F7.
Definition VSS_E_RESYNC_IN_PROGRESS : HRESULT := 0x800423FF.
Definition VSS_E_SNAPSHOT_NOT_IN_SET : HRESULT := 0x8004232B.
Definition VSS_E_MAXIMUM_NUMBER_OF_VOLUMES_REACHED : HRESULT := 0x80042312.
Definition VSS_E_MAXIMUM_NUMBER_OF_SNAPSHOTS_REACHED : HRESULT := 0x80042317.
Definition VSS_E_NESTED_VOLUME_LIMIT : HRESULT := 0x8004232C.
Definition VSS_E_OBJECT_NOT_FOUND : HRESULT := 0x80042308.
Definition VSS_E_PROVIDER_NOT_REGISTERED : HRESULT := 0x80042304.
Definition VSS_E_PROVIDER_VETO : HRESULT := 0x80042306.
Definition VSS_E_VOLUME_NOT_SUPPORTED : HRESULT := 0x8004230C.
Definition VSS_E_VOLUME_NOT_SUPPORTED_BY_PROVIDER : HRESULT := 0x8004230E.
Definition VSS_E_UNEXPECTED : HRESULT := 0x80042302.
Definition VSS_E_UNEXPECTED_PROVIDER_ERROR : HRESULT := 0x8004230F.
Definition VSS_E_UNSELECTED_VOLUME : HRESULT := 0x8004232A.
Definition VSS_E_CANNOT_REVERT_DISKID : HRESULT := 0x800423FE.
Definition VSS_E_INVALID_XML_DOCUMENT : HRESULT := 0x80042311.
Definition VSS_E_OBJECT_ALREADY_EXISTS : HRESULT := 0x8004230D.
Definition FSRVP_E_SHADOW_COPY_SET_IN_PROGRESS : HRESULT := 0x80042316.

(** [hresultToString] *)
Definition hresultToString : gmap Z string :=
  list_to_map
    [ (S_OK, "S_OK");
      (E_ACCESSDENIED, "E_ACCESSDENIED");
      (E_OUTOFMEMORY, "E_OUTOFMEMORY");
      (E_INVALIDARG, "E_INVALIDARG");
      (VSS_E_BAD_STATE, "VSS_E_BAD_STATE");
      (VSS_E_LEGACY_PROVIDER, "VSS_E_LEGACY_PROVIDER");
      (VSS_E_RESYNC_IN_PROGRESS, "VSS_E_RESYNC_IN_PROGRESS");
      (VSS_E_SNAPSHOT_NOT_IN_SET, "VSS_E_SNAPSHOT_NOT_IN_SET");
      (VSS_E_MAXIMUM_NUMBER_OF_VOLUMES_REACHED,
        "VSS_E_MAXIMUM_NUMBER_OF_VOLUMES_REACHED");
      (VSS_E_MAXIMUM_NUMBER_OF_SNAPSHOTS_REACHED,
        "VSS_E_MAXIMUM_NUMBER_OF_SNAPSHOTS_REACHED");
      (VSS_E_NESTED_VOLUME_LIMIT, "VSS_E_NESTED_VOLUME_LIMIT");
      (VSS_E_OBJECT_NOT_FOUND, "VSS_E_OBJECT_NOT_FOUND");
      (VSS_E_PROVIDER_NOT_REGISTERED, "VSS_E_PROVIDER_NOT_REGISTERED");
      (VSS_E_PROVIDER_VETO, "VSS_E_PROVIDER_VETO");
      (VSS_E_VOLUME_NOT_SUPPORTED, "VSS_E_VOLUME_NOT_SUPPORTED");
      (VSS_E_VOLUME_NOT_SUPPORTED_BY_PROVIDER,
        "VSS_E_VOLUME_NOT_SUPPORTED_BY_PROVIDER");
      (VSS_E_UNEXPECTED, "VSS_E_UNEXPECTED");
      (VSS_E_UNEXPECTED_PROVIDER_ERROR, "VSS_E_UNEXPECTED_PROVIDER_ERROR");
      (VSS_E_UNSELECTED_VOLUME, "VSS_E_UNSELECTED_VOLUME");
      (VSS_E_CANNOT_REVERT_DISKID, "VSS_E_CANNOT_REVERT_DISKID");
      (VSS_E_INVALID_XML_DOCUMENT, "VSS_E_INVALID_XML_DOCUMENT");
      (VSS_E_OBJECT_ALREADY_EXISTS, "VSS_E_OBJECT_ALREADY_EXISTS");
      (FSRVP_E_SHADOW_COPY_SET_IN_PROGRESS,
        "FSRVP_E_SHADOW_COPY_SET_IN_PROGRESS") ].

(** [func (h HRESULT) Str() string] *)
Definition Str (h : HRESULT) : string :=
  match hresultToString !! h with
  | Some i => i
  | None => "UNKNOWN"
  end.

(** [VssContext], [VssBackup] and [VssObjectType]: [iota] constants. *)
Definition VSS_CTX_BACKUP : Z := 0.
Definition VSS_CTX_FILE_SHARE_BACKUP : Z := 1.
Definition VSS_CTX_NAS_ROLLBACK : Z := 2.
Definition VSS_CTX_APP_ROLLBACK : Z := 3.
Definition VSS_CTX_CLIENT_ACCESSIBLE : Z := 4.
Definition VSS_CTX_CLIENT_ACCESSIBLE_WRITERS : Z := 5.
Definition VSS_CTX_ALL : Z := 6.

Definition VSS_BT_UNDEFINED : Z := 0.
Definition VSS_BT_FULL : Z := 1.
Definition VSS_BT_INCREMENTAL : Z := 2.
Definition VSS_BT_DIFFERENTIAL : Z := 3.
Definition VSS_BT_LOG : Z := 4.
Definition VSS_BT_COPY : Z := 5.
Definition VSS_BT_OTHER : Z := 6.

Definition VSS_OBJECT_UNKNOWN : Z := 0.
Definition VSS_OBJECT_NONE : Z := 1.
Definition VSS_OBJECT_SNAPSHOT_SET : Z := 2.
Definition VSS_OBJECT_SNAPSHOT : Z := 3.
Definition VSS_OBJECT_PROVIDER : Z := 4.
Definition VSS_OBJECT_TYPE_COUNT : Z := 5.

(** [VSS_S_ASYNC_FINISHED] *)
Definition VSS_S_ASYNC_FINISHED : Z := 0x0004230A.

(** [ole.GUID] *)
Record GUID : Type := mkGUID {
  Data1 : Z;
  Data2 : Z;
  Data3 : Z;
  Data4 : list Z;
}.

#[global] Instance GUID_eq_dec : EqDecision GUID.
Proof. solve_decision. Defined.

Definition GUID_zero : GUID := mkGUID 0 0 0 [0; 0; 0; 0; 0; 0; 0; 0].

Definition UUID_IVSS : GUID :=
  mkGUID 0x665c1d5f 0xc218 0x414d
         [0xa0; 0x5d; 0x7f; 0xef; 0x5f; 0x9d; 0x5c; 0x86].

Definition UIID_IVSS_ASYNC : GUID :=
  mkGUID 0x507C37B4 0xCF5B 0x4e95
         [0xb0; 0xaf; 0x14; 0xeb; 0x97; 0x67; 0x46; 0x7e].

(** A pointer to a native object: [None] is [nil], [Some o] points to the
    object numbered [o]. *)
Abbreviation pointer := (option nat) (only parsing).

(** [VssSnapshotProperties]; the [*uint16] fields are held as the strings
    [ole.UTF16PtrToString] reads from them as long as the record has not
    been released.  What they point to once [VssFreeSnapshotProperties]
    has been called on the record is not modelled. *)
Record VssSnapshotProperties : Type := mkProperties {
  snapshotID_ : GUID;
  snapshotSetID : GUID;
  snapshotsCount : Z;
  snapshotDeviceObject : string;
  originalVolumeName : string;
  originatingMachine : string;
  serviceMachine : string;
  exposedName : string;
  exposedPath : string;
  providerId : GUID;
  snapshotAttributes : Z;
  creationTimestamp : Z;
  status : Z;
}.

Definition VssSnapshotProperties_zero : VssSnapshotProperties :=
  mkProperties GUID_zero GUID_zero 0 "" "" "" "" "" "" GUID_zero 0 0 0.

(** [VssSnapshot] *)
Record VssSnapshot : Type := mkVssSnapshot {
  iVssBackupComponents : pointer;
  snapshotID : GUID;
  snapshotProperties : VssSnapshotProperties;
  timeoutInMillis : Z;
}.

(** [VssSnapshot{}], which accompanies every error. *)
Definition VssSnapshot_zero : VssSnapshot :=
  mkVssSnapshot None GUID_zero VssSnapshotProperties_zero 0.

(** *** The environment *)

(** One native call, with its arguments and what it answered. *)
Inductive event : Type :=
| EvGetCurrentProcess (err : option string)
| EvIsWow64Process (isWow64 : bool) (err : option string)
| EvDllLoad (dll : string) (err : option string)
| EvProcFind (procName : string) (err : option string)
| EvCoInitialize (err : option string)
| EvCreateVssBackupComponents (proc : string) (result : Z)
    (oleIUnknown : pointer)
| EvQueryInterface (obj : nat) (guid : GUID) (result : Z) (ivss : pointer)
| EvInitializeForBackup (vss : nat) (result : Z)
| EvSetContext (vss : nat) (context : Z) (result : Z)
| EvSetBackupState (vss : nat)
    (selectComponentsVal backupBootableSystemStateVal backupType
       partialFileSupportVal : Z) (result : Z)
| EvGatherWriterMetadata (vss : nat) (result : Z) (oleIUnknown : pointer)
| EvIsVolumeSupported (vss : nat) (volumeName : string) (result : Z)
    (isSupported : bool)
| EvStartSnapshotSet (vss : nat) (result : Z) (snapshotSetId : GUID)
| EvAddToSnapshotSet (vss : nat) (volumeName : string) (idSnapshot : GUID)
    (result : Z) (idSnapshot' : GUID)
| EvPrepareForBackup (vss : nat) (result : Z) (oleIUnknown : pointer)
| EvDoSnapshotSet (vss : nat) (result : Z) (oleIUnknown : pointer)
| EvGetSnapshotProperties (vss : nat) (snapshotID : GUID) (result : Z)
    (properties : VssSnapshotProperties)
| EvBackupComplete (vss : nat) (result : Z) (oleIUnknown : pointer)
| EvDeleteSnapshots (vss : nat) (snapshotID : GUID) (objectType : Z)
    (result : Z) (deletedSnapshots : Z) (nondeletedSnapshotID : GUID)
| EvVssFreeSnapshotProperties (properties : VssSnapshotProperties)
| EvRelease (obj : nat)
| EvWait (vssAsync : nat) (millis : Z) (result : Z)
| EvQueryStatus (vssAsync : nat) (result : Z) (state : Z)
| EvNow (unix : Z).

(** What the environment answers. The argument is the number of native
    calls made so far. *)
Record Script : Type := mkScript {
  GOARCH : string;                       (* [runtime.GOARCH] *)
  on_GetCurrentProcess : N → option string;
  on_IsWow64Process : N → bool * option string;
  on_DllLoad : N → option string;
  on_ProcFind : N → string → option string;
  on_CoInitialize : N → option string;
  on_CreateVssBackupComponents : N → Z * pointer;
  on_QueryInterface : N → Z * pointer;
  on_InitializeForBackup : N → Z;
  on_SetContext : N → Z;
  on_SetBackupState : N → Z;
  on_GatherWriterMetadata : N → Z * pointer;
  on_IsVolumeSupported : N → Z * bool;
  on_StartSnapshotSet : N → Z * GUID;
  on_AddToSnapshotSet : N → Z * GUID;
  on_PrepareForBackup : N → Z * pointer;
  on_DoSnapshotSet : N → Z * pointer;
  on_GetSnapshotProperties : N → Z * VssSnapshotProperties;
  on_BackupComplete : N → Z * pointer;
  on_DeleteSnapshots : N → Z * Z * GUID;
  on_Wait : N → Z;
  on_QueryStatus : N → Z * Z;
  on_Now : N → Z;                      (* [time.Now().Unix()] *)
}.

(** The state of the environment as the program sees it: how many native
    calls were made, and which (the newest first). *)
Record World : Type := mkWorld {
  tick : N;
  trace : list event;
}.

Definition World_init : World := mkWorld 0%N [].

(** The calls in the order they were made. *)
Definition history (w : World) : list event := reverse (trace w).

(** A native call: the script answers, the call is recorded. *)
Definition syscall {A} (answer : N → A) (ev : A → event) : M World A :=
  λ w, let r := answer (tick w) in
       (Ret r, mkWorld (N.succ (tick w)) (ev r :: trace w)).

(** Following a pointer; Go panics on [nil]. *)
Definition deref (p : pointer) : M World nat :=
  match p with
  | Some o => ret o
  | None => panic "invalid memory address or nil pointer dereference"
  end.

(** [int64(x)] of an unsigned [x], and the difference of two [int64]. *)
Definition int64 (x : Z) : Z := (x + 2 ^ 63) mod 2 ^ 64 - 2 ^ 63.

(** *** The functions of the file *)

Section Orchestrator.

Variable s : Script.

(** [time.Now().Unix()] *)
Definition Now_Unix : M World Z := syscall (on_Now s) EvNow.

(** [ole.IUnknown.Release]; the reference count it returns is dropped
    at every call site. *)
Definition Release (obj : pointer) : M World unit :=
  let* o := deref obj in
  syscall (λ _, tt) (λ _, EvRelease o).

(** [findVssProc] *)
Definition findVssProc (procName : string)
  : M World (string * option error) :=
  let* err := syscall (on_DllLoad s) (EvDllLoad "VssApi.dll") in
  match err with
  | Some msg => ret ("", Some (ErrNative msg))
  | None =>
      let* err := syscall (λ t, on_ProcFind s t procName)
                          (EvProcFind procName) in
      match err with
      | Some msg => ret ("", Some (ErrNative msg))
      | None => ret (procName, None)
      end
  end.

(** [loadIVssBackupComponentsConstructor] *)
Definition loadIVssBackupComponentsConstructor
  : M World (string * option error) :=
  let createInstanceName :=
    if decide (GOARCH s = "386")
    then "?CreateVssBackupComponents@@YGJPAPAVIVssBackupComponents@@@Z"
    else "?CreateVssBackupComponents@@YAJPEAPEAVIVssBackupComponents@@@Z"
  in
  findVssProc createInstanceName.

(** [queryInterface]; [oleIUnknown.VTable()] follows the pointer. *)
Definition queryInterface (oleIUnknown : pointer) (guid : GUID)
  : M World (pointer * option error) :=
  let* o := deref oleIUnknown in
  let* (result, ivss) :=
    syscall (on_QueryInterface s)
            (λ r, EvQueryInterface o guid r.1 r.2) in
  if decide (result ≠ 0)
  then ret (None, Some (ErrQueryInterface result))
  else ret (ivss, None).

(** [isRunningOn64BitWindows] *)
Definition isRunningOn64BitWindows : M World (bool * option string) :=
  if decide (GOARCH s = "amd64") then ret (true, None)
  else
    let* err := syscall (on_GetCurrentProcess s) EvGetCurrentProcess in
    match err with
    | Some msg => ret (false, Some msg)
    | None =>
        let* (isWow64, err) :=
          syscall (on_IsWow64Process s)
                  (λ r, EvIsWow64Process r.1 r.2) in
        match err with
        | Some msg => ret (false, Some msg)
        | None => ret (isWow64, None)
        end
    end.

(** [InitializeForBackup] *)
Definition InitializeForBackup (vss : pointer) : M World HRESULT :=
  let* o := deref vss in
  syscall (on_InitializeForBackup s) (EvInitializeForBackup o).

(** [SetContext] *)
Definition SetContext (vss : pointer) (context : Z) : M World HRESULT :=
  let* o := deref vss in
  syscall (on_SetContext s) (EvSetContext o context).

(** [handleAsyncReturnValue] *)
Definition handleAsyncReturnValue (result : Z) (oleIUnknown : pointer)
  : M World (HRESULT * pointer) :=
  let hRes := result in
  if decide (hRes ≠ S_OK) then ret (hRes, None)
  else
    let* (comInterface, err) := queryInterface oleIUnknown UIID_IVSS_ASYNC in
    match err with
    | Some _ => ret (hRes, None)
    | None => let iVssAsync := comInterface in ret (hRes, iVssAsync)
    end.

(** [GatherWriterMetadata] *)
Definition GatherWriterMetadata (vss : pointer)
  : M World (HRESULT * pointer) :=
  let* o := deref vss in
  let* (result, oleIUnknown) :=
    syscall (on_GatherWriterMetadata s)
            (λ r, EvGatherWriterMetadata o r.1 r.2) in
  handleAsyncReturnValue result oleIUnknown.

(** [IsVolumeSupported] *)
Definition IsVolumeSupported (vss : pointer) (volumeName : string)
  : M World (HRESULT * bool) :=
  let* o := deref vss in
  syscall (on_IsVolumeSupported s)
          (λ r, EvIsVolumeSupported o volumeName r.1 r.2).

(** [StartSnapshotSet] *)
Definition StartSnapshotSet (vss : pointer) : M World (HRESULT * GUID) :=
  let* o := deref vss in
  syscall (on_StartSnapshotSet s) (λ r, EvStartSnapshotSet o r.1 r.2).

(** [AddToSnapshotSet]; [idSnapshot] is passed by pointer and the native
    call may write through it, so the call also gives the value the
    variable of the caller holds afterwards. *)
Definition AddToSnapshotSet (vss : pointer) (volumeName : string)
    (idSnapshot : GUID) : M World (HRESULT * GUID) :=
  let* o := deref vss in
  syscall (on_AddToSnapshotSet s)
          (λ r, EvAddToSnapshotSet o volumeName idSnapshot r.1 r.2).

(** [PrepareForBackup] *)
Definition PrepareForBackup (vss : pointer)
  : M World (HRESULT * pointer) :=
  let* o := deref vss in
  let* (result, oleIUnknown) :=
    syscall (on_PrepareForBackup s)
            (λ r, EvPrepareForBackup o r.1 r.2) in
  handleAsyncReturnValue result oleIUnknown.

(** [SetBackupState] *)
Definition SetBackupState (vss : pointer)
    (selectComponents backupBootableSystemState : bool)
    (backupType : Z) (partialFileSupport : bool) : M World HRESULT :=
  let TrueValue := 0xffff in
  let selectComponentsVal := if selectComponents then TrueValue else 0 in
  let backupBootableSystemStateVal :=
    if backupBootableSystemState then TrueValue else 0 in
  let partialFileSupportVal :=
    if partialFileSupport then TrueValue else 0 in
  let* o := deref vss in
  syscall (on_SetBackupState s)
          (EvSetBackupState o selectComponentsVal
             backupBootableSystemStateVal backupType
             partialFileSupportVal).

(** [DoSnapshotSet] *)
Definition DoSnapshotSet (vss : pointer) : M World (HRESULT * pointer) :=
  let* o := deref vss in
  let* (result, oleIUnknown) :=
    syscall (on_DoSnapshotSet s) (λ r, EvDoSnapshotSet o r.1 r.2) in
  handleAsyncReturnValue result oleIUnknown.

(** [DeleteSnapshots] *)
Definition DeleteSnapshots (vss : pointer) (snapshotID : GUID)
  : M World (HRESULT * Z * GUID) :=
  let* o := deref vss in
  syscall (on_DeleteSnapshots s)
          (λ r, EvDeleteSnapshots o snapshotID VSS_OBJECT_SNAPSHOT
                  r.1.1 r.1.2 r.2).

(** [GetSnapshotProperties]; the native call fills [properties]. *)
Definition GetSnapshotProperties (vss : pointer) (snapshotID : GUID)
  : M World (HRESULT * VssSnapshotProperties) :=
  let* o := deref vss in
  syscall (on_GetSnapshotProperties s)
          (λ r, EvGetSnapshotProperties o snapshotID r.1 r.2).

(** [BackupComplete] *)
Definition BackupComplete (vss : pointer) : M World (HRESULT * pointer) :=
  let* o := deref vss in
  let* (result, oleIUnknown) :=
    syscall (on_BackupComplete s) (λ r, EvBackupComplete o r.1 r.2) in
  handleAsyncReturnValue result oleIUnknown.

(** [vssFreeSnapshotProperties] *)
Definition vssFreeSnapshotProperties (properties : VssSnapshotProperties)
  : M World (option error) :=
  let* (proc, err) := findVssProc "VssFreeSnapshotProperties" in
  match err with
  | Some e => ret (Some e)
  | None =>
      let* _ := syscall (λ _, tt)
                        (λ _, EvVssFreeSnapshotProperties properties) in
      ret None
  end.

(** [VssSnapshotProperties.GetSnapshotDeviceObject] *)
Definition Properties_GetSnapshotDeviceObject
    (p : VssSnapshotProperties) : string :=
  snapshotDeviceObject p.

(** [IVSSAsync.Wait] *)
Definition Wait (vssAsync : pointer) (millis : Z) : M World HRESULT :=
  let* a := deref vssAsync in
  syscall (on_Wait s) (EvWait a millis).

(** [IVSSAsync.QueryStatus] *)
Definition QueryStatus (vssAsync : pointer) : M World (HRESULT * Z) :=
  let* a := deref vssAsync in
  syscall (on_QueryStatus s) (λ r, EvQueryStatus a r.1 r.2).

(** The [for] loop of [WaitUntilAsyncFinished]. Each unit of fuel pays
    for one iteration; both [continue] statements go straight to the
    next iteration. *)
Fixpoint wait_loop (fuel : nat) (vssAsync : pointer) (start millis : Z)
  : M World (option error) :=
  match fuel with
  | O => out_of_fuel
  | S fuel' =>
      let* hResult := Wait vssAsync 100 in
      if decide (hResult ≠ S_OK) then
        wait_loop fuel' vssAsync start millis
      else
        let* (hResult, state) := QueryStatus vssAsync in
        if decide (hResult ≠ S_OK) then
          wait_loop fuel' vssAsync start millis
        else if decide (state = VSS_S_ASYNC_FINISHED) then
          ret None
        else
          let* now := Now_Unix in
          if decide (int64 (now - start) > millis) then
            ret (Some (ErrWaitTimedOut millis))
          else
            wait_loop fuel' vssAsync start millis
  end.

(** [WaitUntilAsyncFinished] *)
Definition WaitUntilAsyncFinished (fuel : nat) (vssAsync : pointer)
    (millis : Z) : M World (option error) :=
  let* start := Now_Unix in
  wait_loop fuel vssAsync start millis.

(** [handleAsyncFunctionCall] *)
Definition handleAsyncFunctionCall (fuel : nat)
    (function : M World (HRESULT * pointer)) (name : string)
    (timeoutInMillis : Z) : M World (option error) :=
  let* (hRes, iVssAsync) := function in
  if decide (hRes ≠ S_OK) then
    ret (Some (ErrReturned name (Str hRes) hRes))
  else
    match iVssAsync with
    | None => ret (Some (ErrReturnedNil name))
    | Some _ =>
        let* err := WaitUntilAsyncFinished fuel iVssAsync timeoutInMillis in
        let* _ := Release iVssAsync in
        match err with
        | Some e => ret (Some e)
        | None => ret None
        end
    end.

(** [VssSnapshot.Delete] *)
Definition Delete (fuel : nat) (p : VssSnapshot) : M World (option error) :=
  let* err := vssFreeSnapshotProperties (snapshotProperties p) in
  match err with
  | Some e => ret (Some e)
  | None =>
      match iVssBackupComponents p with
      | Some _ =>
          defer (Release (iVssBackupComponents p))
            (let* e := handleAsyncFunctionCall fuel
                         (BackupComplete (iVssBackupComponents p))
                         "BackupComplete" (timeoutInMillis p) in
             let err := match e with Some _ => e | None => err end in
             let* (hResult, _, _) :=
               DeleteSnapshots (iVssBackupComponents p) (snapshotID p) in
             if decide (hResult ≠ S_OK) then
               ret (Some (ErrDeleteSnapshot (Str hResult) hResult))
             else
               ret err)
      | None => ret err
      end
  end.

(** [VssSnapshot.GetSnapshotDeviceObject] *)
Definition GetSnapshotDeviceObject (p : VssSnapshot) : string :=
  Properties_GetSnapshotDeviceObject (snapshotProperties p).

(** The width of [uint] on the two builds on which [NewVssSnapshot] gets as
    far as the budget: 32 bits on 386, 64 bits on amd64.  On every other
    build it returns before, and the width given here is of no account. *)
Definition uint_bits : Z := if decide (GOARCH s = "386") then 32 else 64.

(** [NewVssSnapshot] *)
Definition NewVssSnapshot (fuel : nat) (volume : string)
    (timeoutInSeconds : Z) : M World (VssSnapshot * option error) :=
  let* (is64Bit, err) := isRunningOn64BitWindows in
  match err with
  | Some msg => ret (VssSnapshot_zero, Some (ErrDetectArchitecture msg))
  | None =>
  if (is64Bit && bool_decide (GOARCH s ≠ "amd64"))
     || (negb is64Bit && bool_decide (GOARCH s ≠ "386"))
  then ret (VssSnapshot_zero, Some (ErrArchitecture (GOARCH s)))
  else
  let timeoutInMillis :=
    int64 ((timeoutInSeconds * 1000) mod 2 ^ uint_bits) in
  let* (vssInstance, err) := loadIVssBackupComponentsConstructor in
  match err with
  | Some e => ret (VssSnapshot_zero, Some e)
  | None =>
  let* err := syscall (on_CoInitialize s) EvCoInitialize in
  match err with
  | Some msg => ret (VssSnapshot_zero, Some (ErrNative msg))
  | None =>
  let* (result, oleIUnknown) :=
    syscall (on_CreateVssBackupComponents s)
            (λ r, EvCreateVssBackupComponents vssInstance r.1 r.2) in
  if decide (result = S_OK) then
    let* (comInterface, err) := queryInterface oleIUnknown UUID_IVSS in
    match err with
    | Some e => ret (VssSnapshot_zero, Some e)
    | None =>
    let iVssBackupComponents := comInterface in
    let* hRes := InitializeForBackup iVssBackupComponents in
    if decide (hRes ≠ S_OK) then
      ret (VssSnapshot_zero,
           Some (ErrReturned "InitializeForBackup" (Str hRes) hRes))
    else
    let* hRes := SetContext iVssBackupComponents VSS_CTX_BACKUP in
    if decide (hRes ≠ S_OK) then
      ret (VssSnapshot_zero,
           Some (ErrReturned "SetContext" (Str hRes) hRes))
    else
    let* hRes := SetBackupState iVssBackupComponents
                   false false VSS_BT_COPY false in
    if decide (hRes ≠ S_OK) then
      ret (VssSnapshot_zero,
           Some (ErrReturned "SetBackupState" (Str hRes) hRes))
    else
    let* err := handleAsyncFunctionCall fuel
                  (GatherWriterMetadata iVssBackupComponents)
                  "GatherWriterMetadata" timeoutInMillis in
    match err with
    | Some e => ret (VssSnapshot_zero, Some e)
    | None =>
    let* (hRes, isSupported) :=
      IsVolumeSupported iVssBackupComponents volume in
    if decide (hRes ≠ S_OK) then
      ret (VssSnapshot_zero,
           Some (ErrReturned "IsVolumeSupported" (Str hRes) hRes))
    else if negb isSupported then
      ret (VssSnapshot_zero, Some (ErrNotSupported volume))
    else
    let* (hRes, snapshotSetID) := StartSnapshotSet iVssBackupComponents in
    if decide (hRes ≠ S_OK) then
      ret (VssSnapshot_zero,
           Some (ErrReturned "StartSnapshotSet" (Str hRes) hRes))
    else
    let* (hRes, snapshotSetID) :=
      AddToSnapshotSet iVssBackupComponents volume snapshotSetID in
    if decide (hRes ≠ S_OK) then
      ret (VssSnapshot_zero,
           Some (ErrReturned "AddToSnapshotSet" (Str hRes) hRes))
    else
    let* err := handleAsyncFunctionCall fuel
                  (PrepareForBackup iVssBackupComponents)
                  "PrepareForBackup" timeoutInMillis in
    match err with
    | Some e => ret (VssSnapshot_zero, Some e)
    | None =>
    let* err := handleAsyncFunctionCall fuel
                  (DoSnapshotSet iVssBackupComponents)
                  "DoSnapshotSet" timeoutInMillis in
    match err with
    | Some e => ret (VssSnapshot_zero, Some e)
    | None =>
    let* (hRes, snapshotProperties) :=
      GetSnapshotProperties iVssBackupComponents snapshotSetID in
    if decide (hRes ≠ S_OK) then
      ret (VssSnapshot_zero,
           Some (ErrReturned "GetSnapshotProperties" (Str hRes) hRes))
    else
      ret (mkVssSnapshot iVssBackupComponents snapshotSetID
                         snapshotProperties timeoutInMillis,
           None)
    end end end end
  else if decide (result = E_ACCESSDENIED) then
    ret (VssSnapshot_zero, Some (ErrAccessDenied (Str result) result))
  else
    ret (VssSnapshot_zero, Some (ErrCreateInstance (Str result) result))
  end end end.

End Orchestrator.

End VssWindows.

(** ** [vss.go]: the dummy for platforms other than windows

    The file comes in two revisions, which differ in the layout of the error
    value only; one embedding covers both. *)

Module VssDummy.

(** [type VssSnapshot struct{}] *)
Inductive VssSnapshot : Type := mkVssSnapshot.

(** [NewVssSnapshot] *)
Definition NewVssSnapshot {W} (volume : string) (timeoutInSeconds : Z)
  : M W (VssSnapshot * option error) :=
  ret (mkVssSnapshot, Some ErrOnlyOnWindows).

(** [VssSnapshot.Delete] *)
Definition Delete {W} (p : VssSnapshot) : M W (option error) := ret None.

(** [VssSnapshot.GetSnapshotDeviceObject] *)
Definition GetSnapshotDeviceObject (p : VssSnapshot) : string := "".

End VssDummy.

(** ** [fs_local_vss.go]: the snapshot-backed path resolver

    The build picks [VssSnapshot] and its three functions by platform, and
    [fixpath] and the wrapped file system (with its [Join]) are defined in
    other files: all of them are parameters here.  The mutex of [LocalVss]
    makes the calls take turns; the model runs them one after another. *)

Module Resolver.

(** The three callbacks of [MessageHandler] type, and [fmt.Printf], which
    the second revision of the file writes to. *)
Inductive channel : Type := msgError | msgMessage | msgVerbose | Printf.

Inductive arg : Type :=
| ArgString (s : string)
| ArgError (e : error).

Record message : Type := mkMessage {
  chan : channel;
  format : string;
  args : list arg;
}.

(** The call a read operation hands to the wrapped file system. *)
Inductive fs_call : Type :=
| FS_Open (name : string)
| FS_OpenFile (name : string) (flag perm : Z)
| FS_Stat (name : string)
| FS_Lstat (name : string).

Definition fs_call_name (c : fs_call) : string :=
  match c with
  | FS_Open n | FS_OpenFile n _ _ | FS_Stat n | FS_Lstat n => n
  end.

(** The operations of the resolver that touch the snapshot cache. *)
Inductive op : Type :=
| OpOpen (name : string)
| OpOpenFile (name : string) (flag perm : Z)
| OpStat (name : string)
| OpLstat (name : string)
| OpDeleteSnapshots.

(** The two bytes of Go's ["\r\n"]. *)
Definition CRLF : string :=
  String (Ascii.ascii_of_nat 13) (String (Ascii.ascii_of_nat 10) "").

Section LocalVss.

Context {VssSnapshot W : Type}.
Variable NewVssSnapshot : string → Z → M W (VssSnapshot * option error).
Variable Delete : VssSnapshot → M W (option error).
Variable GetSnapshotDeviceObject : VssSnapshot → string.
Variable fixpath : string → string.
Variable Join : string → string → string.

(** What a [LocalVss] value reaches: the [snapshots] map, the platform
    underneath, and what was sent to the message handlers (the newest
    message first). *)
Record State : Type := mkState {
  snapshots : gmap string VssSnapshot;
  platform : W;
  messages : list message;
}.

(** [NewLocalVss]: [make(map[string]VssSnapshot)] *)
Definition NewLocalVss (w : W) : State := mkState ∅ w [].

Definition emit (c : channel) (fmt : string) (a : list arg)
  : M State unit :=
  λ st, (Ret tt, mkState (snapshots st) (platform st)
                         (mkMessage c fmt a :: messages st)).

Definition native {A} (m : M W A) : M State A :=
  lift platform (λ w st, mkState (snapshots st) w (messages st)) m.

(** [fs.snapshots[key]] and [fs.snapshots[key] = snapshot] *)
Definition lookup_snapshot (key : string) : M State (option VssSnapshot) :=
  λ st, (Ret (snapshots st !! key), st).

Definition store_snapshot (key : string) (snapshot : VssSnapshot)
  : M State unit :=
  λ st, (Ret tt, mkState (<[key := snapshot]> (snapshots st))
                         (platform st) (messages st)).

(** [for ... range]: one call after the other. *)
Fixpoint for_each {A} (f : A → M State unit) (l : list A) : M State unit :=
  match l with
  | [] => ret tt
  | x :: l' => let* _ := f x in for_each f l'
  end.

(** *** First revision (message handlers) *)

(** [snapshotPath] *)
Definition snapshotPath (path : string) : M State string :=
  let fixPath := Strings.TrimPrefix (fixpath path) "\\?\" in
  match Strings.slice_to 2 fixPath with
  | None => panic "slice bounds out of range"
  | Some volumeName =>
      let* cached := lookup_snapshot volumeName in
      let* _ :=
        match cached with
        | Some _ => ret tt
        | None =>
            let vssVolume := volumeName +:+ "\" in
            let* _ := emit msgMessage
                        ("creating VSS snapshot for [%s]" +:+ CRLF)
                        [ArgString vssVolume] in
            let* (snapshot, err) := native (NewVssSnapshot vssVolume 120) in
            match err with
            | Some e =>
                emit msgError
                     ("failed to create snapshot for [%s]: %s" +:+ CRLF)
                     [ArgString volumeName; ArgError e]
            | None =>
                let* _ := store_snapshot volumeName snapshot in
                emit msgVerbose
                     ("successfully created snapshot for [%s]" +:+ CRLF)
                     [ArgString vssVolume]
            end
        end in
      let* cached := lookup_snapshot volumeName in
      match cached with
      | Some snapshot =>
          ret (Join (GetSnapshotDeviceObject snapshot)
                    (Strings.TrimPrefix fixPath volumeName))
      | None => ret path
      end
  end.

(** [DeleteSnapshots]. Go ranges over the map in no fixed order; the
    model takes the order of [map_to_list]. The map itself is left as
    it is. *)
Definition DeleteSnapshots : M State unit :=
  λ st,
    for_each
      (λ kv : string * VssSnapshot,
         let* err := native (Delete kv.2) in
         match err with
         | Some e => emit msgError "failed to delete VSS snapshot: %s"
                          [ArgError e]
         | None => ret tt
         end)
      (map_to_list (snapshots st)) st.

(** [Open], [OpenFile], [Stat], [Lstat] *)
Definition Open (name : string) : M State fs_call :=
  let* p := snapshotPath name in ret (FS_Open p).
Definition OpenFile (name : string) (flag perm : Z) : M State fs_call :=
  let* p := snapshotPath name in ret (FS_OpenFile p flag perm).
Definition Stat (name : string) : M State fs_call :=
  let* p := snapshotPath name in ret (FS_Stat p).
Definition Lstat (name : string) : M State fs_call :=
  let* p := snapshotPath name in ret (FS_Lstat p).

(** One operation; a read operation gives the call it hands on. *)
Definition exec (o : op) : M State (option fs_call) :=
  match o with
  | OpOpen name => let* c := Open name in ret (Some c)
  | OpOpenFile name flag perm =>
      let* c := OpenFile name flag perm in ret (Some c)
  | OpStat name => let* c := Stat name in ret (Some c)
  | OpLstat name => let* c := Lstat name in ret (Some c)
  | OpDeleteSnapshots => let* _ := DeleteSnapshots in ret None
  end.

(** A sequence of operations; it ends with the first one that does not
    return. *)
Fixpoint run (ops : list op) : M State (list (option fs_call)) :=
  match ops with
  | [] => ret []
  | o :: ops' =>
      let* c := exec o in
      let* cs := run ops' in
      ret (c :: cs)
  end.

(** *** Second revision ([fmt.Printf]) *)

(** [snapshotPath] *)
Definition snapshotPath2 (path : string) : M State string :=
  let fixPath := Strings.TrimPrefix (fixpath path) "\\?\" in
  match Strings.slice_to 2 fixPath with
  | None => panic "slice bounds out of range"
  | Some volumeName =>
      let* cached := lookup_snapshot volumeName in
      let* _ :=
        match cached with
        | Some _ => ret tt
        | None =>
            let vssVolume := volumeName +:+ "\" in
            let* _ := emit Printf
                        ("GetSnapshotPath: Creating snapshot for [%s]"
                           +:+ CRLF)
                        [ArgString vssVolume] in
            let* (snapshot, err) := native (NewVssSnapshot vssVolume 120) in
            match err with
            | Some e =>
                emit Printf
                     ("GetSnapshotPath: Failed to create snapshot for [%s]: %s"
                        +:+ CRLF)
                     [ArgString volumeName; ArgError e]
            | None =>
                let* _ := store_snapshot volumeName snapshot in
                emit Printf
                     ("GetSnapshotPath: Successfully created snapshot for [%s]"
                        +:+ CRLF)
                     [ArgString vssVolume]
            end
        end in
      let* cached := lookup_snapshot volumeName in
      match cached with
      | None => ret path
      | Some snapshot =>
          let vssPath :=
            Join (GetSnapshotDeviceObject snapshot)
                 (Strings.TrimPrefix fixPath volumeName) in
          ret vssPath
      end
  end.

(** [DeleteSnapshots] *)
Definition DeleteSnapshots2 : M State unit :=
  let* _ := emit Printf "LocalVss: DeleteSnapshots()" [] in
  λ st,
    for_each
      (λ kv : string * VssSnapshot,
         let* err := native (Delete kv.2) in
         match err with
         | Some e => emit Printf "LocalVss: Failed to delete snapshot: %s"
                          [ArgError e]
         | None => ret tt
         end)
      (map_to_list (snapshots st)) st.

Definition exec2 (o : op) : M State (option fs_call) :=
  match o with
  | OpOpen name =>
      let* p := snapshotPath2 name in ret (Some (FS_Open p))
  | OpOpenFile name flag perm =>
      let* p := snapshotPath2 name in ret (Some (FS_OpenFile p flag perm))
  | OpStat name =>
      let* p := snapshotPath2 name in ret (Some (FS_Stat p))
  | OpLstat name =>
      let* p := snapshotPath2 name in ret (Some (FS_Lstat p))
  | OpDeleteSnapshots => let* _ := DeleteSnapshots2 in ret None
  end.

Fixpoint run2 (ops : list op) : M State (list (option fs_call)) :=
  match ops with
  | [] => ret []
  | o :: ops' =>
      let* c := exec2 o in
      let* cs := run2 ops' in
      ret (c :: cs)
  end.

(** *** Both revisions at once *)

Inductive revision : Type := Handlers | Printing.

Definition snapshotPath_of (r : revision) : string → M State string :=
  match r with Handlers => snapshotPath | Printing => snapshotPath2 end.

Definition run_of (r : revision)
  : list op → M State (list (option fs_call)) :=
  match r with Handlers => run | Printing => run2 end.

(** [fixPath] of [snapshotPath]. *)
Definition fixPath (path : string) : string :=
  Strings.TrimPrefix (fixpath path) "\\?\".

(** The three messages of [snapshotPath]. *)
Definition creating (r : revision) (vssVolume : string) : message :=
  match r with
  | Handlers =>
      mkMessage msgMessage ("creating VSS snapshot for [%s]" +:+ CRLF)
                [ArgString vssVolume]
  | Printing =>
      mkMessage Printf
                ("GetSnapshotPath: Creating snapshot for [%s]" +:+ CRLF)
                [ArgString vssVolume]
  end.

Definition failed (r : revision) (volumeName : string) (e : error)
  : message :=
  match r with
  | Handlers =>
      mkMessage msgError
                ("failed to create snapshot for [%s]: %s" +:+ CRLF)
                [ArgString volumeName; ArgError e]
  | Printing =>
      mkMessage Printf
                ("GetSnapshotPath: Failed to create snapshot for [%s]: %s"
                   +:+ CRLF)
                [ArgString volumeName; ArgError e]
  end.

Definition created (r : revision) (vssVolume : string) : message :=
  match r with
  | Handlers =>
      mkMessage msgVerbose
                ("successfully created snapshot for [%s]" +:+ CRLF)
                [ArgString vssVolume]
  | Printing =>
      mkMessage Printf
                ("GetSnapshotPath: Successfully created snapshot for [%s]"
                   +:+ CRLF)
                [ArgString vssVolume]
  end.

(** What one call of [snapshotPath] comes to, case by case. *)
Definition resolve (r : revision) (path : string) (st : State)
  : outcome string * State :=
  match Strings.slice_to 2 (fixPath path) with
  | None => (Panic "slice bounds out of range", st)
  | Some volumeName =>
      match snapshots st !! volumeName with
      | Some snapshot =>
          (Ret (Join (GetSnapshotDeviceObject snapshot)
                     (Strings.TrimPrefix (fixPath path) volumeName)), st)
      | None =>
          let vssVolume := volumeName +:+ "\" in
          let log := creating r vssVolume :: messages st in
          match NewVssSnapshot vssVolume 120 (platform st) with
          | (Ret (snapshot, Some e), w') =>
              (Ret path,
               mkState (snapshots st) w' (failed r volumeName e :: log))
          | (Ret (snapshot, None), w') =>
              (Ret (Join (GetSnapshotDeviceObject snapshot)
                         (Strings.TrimPrefix (fixPath path) volumeName)),
               mkState (<[volumeName := snapshot]> (snapshots st)) w'
                       (created r vssVolume :: log))
          | (Panic msg, w') => (Panic msg, mkState (snapshots st) w' log)
          | (OutOfFuel, w') => (OutOfFuel, mkState (snapshots st) w' log)
          end
      end
  end.

End LocalVss.

(** The call a read operation makes when it hands on the very path it was
    given. *)
Definition passthrough (o : op) : option fs_call :=
  match o with
  | OpOpen name => Some (FS_Open name)
  | OpOpenFile name flag perm => Some (FS_OpenFile name flag perm)
  | OpStat name => Some (FS_Stat name)
  | OpLstat name => Some (FS_Lstat name)
  | OpDeleteSnapshots => None
  end.

Arguments State : clear implicits.
Arguments mkState {VssSnapshot W} _ _ _.

End Resolver.

(** ** Reading a transcript of native calls

    The vocabulary in which the properties of the orchestrator are stated:
    which native call begins which step of the protocol, which calls belong
    to waiting, and so on. *)

Module Transcript.

Import VssWindows.
#[local] Open Scope Z_scope.

(** The world after one more native call. *)
Definition after (ev : event) (w : World) : World :=
  mkWorld (N.succ (tick w)) (ev :: trace w).

(** The body that [GatherWriterMetadata], [PrepareForBackup],
    [DoSnapshotSet] and [BackupComplete] share. *)
Definition async_call (s : Script) (answer : N → Z * option nat)
    (ev : Z * option nat → event) : M World (Z * option nat) :=
  let* (result, oleIUnknown) := syscall answer ev in
  handleAsyncReturnValue s result oleIUnknown.

(** [timeoutInMillis] of [NewVssSnapshot]. *)
Definition timeout_millis (s : Script) (timeoutInSeconds : Z) : Z :=
  int64 ((timeoutInSeconds * 1000) mod 2 ^ uint_bits s).

(** The steps of snapshot creation, as the specification numbers them. *)
Inductive step : Type :=
| Instantiate
| StepInitializeForBackup
| StepSetContext
| StepSetBackupState
| StepGatherWriterMetadata
| StepIsVolumeSupported
| StepStartSnapshotSet
| StepAddToSnapshotSet
| StepPrepareForBackup
| StepDoSnapshotSet
| StepGetSnapshotProperties.

Definition protocol : list step :=
  [ Instantiate; StepInitializeForBackup; StepSetContext;
    StepSetBackupState; StepGatherWriterMetadata; StepIsVolumeSupported;
    StepStartSnapshotSet; StepAddToSnapshotSet; StepPrepareForBackup;
    StepDoSnapshotSet; StepGetSnapshotProperties ].

Definition is_async (st : step) : bool :=
  match st with
  | StepGatherWriterMetadata | StepPrepareForBackup | StepDoSnapshotSet =>
      true
  | _ => false
  end.

(** The step a native call begins, the status code the call returned, and
    whether it granted what was asked (which only [IsVolumeSupported] can
    deny while returning [S_OK]). *)
Definition step_of (ev : event) : option (step * Z * bool) :=
  match ev with
  | EvCreateVssBackupComponents _ r _ => Some (Instantiate, r, true)
  | EvInitializeForBackup _ r => Some (StepInitializeForBackup, r, true)
  | EvSetContext _ _ r => Some (StepSetContext, r, true)
  | EvSetBackupState _ _ _ _ _ r => Some (StepSetBackupState, r, true)
  | EvGatherWriterMetadata _ r _ => Some (StepGatherWriterMetadata, r, true)
  | EvIsVolumeSupported _ _ r isSupported =>
      Some (StepIsVolumeSupported, r, isSupported)
  | EvStartSnapshotSet _ r _ => Some (StepStartSnapshotSet, r, true)
  | EvAddToSnapshotSet _ _ _ r _ => Some (StepAddToSnapshotSet, r, true)
  | EvPrepareForBackup _ r _ => Some (StepPrepareForBackup, r, true)
  | EvDoSnapshotSet _ r _ => Some (StepDoSnapshotSet, r, true)
  | EvGetSnapshotProperties _ _ r _ =>
      Some (StepGetSnapshotProperties, r, true)
  | _ => None
  end.

(** The name under which an error reports a step. *)
Definition step_name (st : step) : string :=
  match st with
  | Instantiate => "CreateVssBackupComponents"
  | StepInitializeForBackup => "InitializeForBackup"
  | StepSetContext => "SetContext"
  | StepSetBackupState => "SetBackupState"
  | StepGatherWriterMetadata => "GatherWriterMetadata"
  | StepIsVolumeSupported => "IsVolumeSupported"
  | StepStartSnapshotSet => "StartSnapshotSet"
  | StepAddToSnapshotSet => "AddToSnapshotSet"
  | StepPrepareForBackup => "PrepareForBackup"
  | StepDoSnapshotSet => "DoSnapshotSet"
  | StepGetSnapshotProperties => "GetSnapshotProperties"
  end.



(** The arguments the protocol prescribes for a call. *)
Definition prescribed (volume : string) (ev : event) : Prop :=
  match ev with
  | EvSetContext _ context _ => context = VSS_CTX_BACKUP
  | EvSetBackupState _ selectComponentsVal backupBootableSystemStateVal
      backupType partialFileSupportVal _ =>
      selectComponentsVal = 0 ∧ backupBootableSystemStateVal = 0
      ∧ backupType = VSS_BT_COPY ∧ partialFileSupportVal = 0
  | EvIsVolumeSupported _ volumeName _ _ => volumeName = volume
  | EvAddToSnapshotSet _ volumeName _ _ _ => volumeName = volume
  | EvWait _ millis _ => millis = 100
  | _ => True
  end.


(** A status query that reports the asynchronous operation finished. *)
Definition finished (ev : event) : bool :=
  match ev with
  | EvQueryStatus _ result state =>
      bool_decide (result = S_OK ∧ state = VSS_S_ASYNC_FINISHED)
  | _ => false
  end.



(** One poll of the wait loop on the asynchronous operation [a]. *)
Definition is_poll (a : nat) (ev : event) : Prop :=
  match ev with
  | EvWait a' millis _ => a' = a ∧ millis = 100
  | EvQueryStatus a' _ _ => a' = a
  | EvNow _ => True
  | _ => False
  end.

(** A call that begins no step of the protocol and has the arguments
    prescribed. *)
Definition is_aux (ev : event) : Prop :=
  step_of ev = None ∧ ∀ volume, prescribed volume ev.

(** A call of [findVssProc]. *)
Definition is_lookup (ev : event) : Prop :=
  match ev with
  | EvDllLoad _ _ | EvProcFind _ _ => True
  | _ => False
  end.


End Transcript.

(** ** Environments and file systems to run the model in *)

Module Scenarios.

Import VssWindows.
#[local] Open Scope Z_scope.

Definition shadow_copy_1 : VssSnapshotProperties :=
  mkProperties (mkGUID 1 0 0 []) (mkGUID 2 0 0 []) 1
               "\\?\GLOBALROOT\Device\HarddiskVolumeShadowCopy1"
               "\\?\Volume{0}\" "host" "host" "" "" (mkGUID 3 0 0 [])
               0 1700000000 12.

(** An environment in which every call succeeds, every asynchronous
    operation has finished when it is first asked, and the clock stands
    still. *)
Definition cooperative : Script :=
  {| GOARCH := "amd64";
     on_GetCurrentProcess := λ _, None;
     on_IsWow64Process := λ _, (false, None);
     on_DllLoad := λ _, None;
     on_ProcFind := λ _ _, None;
     on_CoInitialize := λ _, None;
     on_CreateVssBackupComponents := λ _, (S_OK, Some 1%nat);
     on_QueryInterface := λ t, (0, Some (100 + N.to_nat t)%nat);
     on_InitializeForBackup := λ _, S_OK;
     on_SetContext := λ _, S_OK;
     on_SetBackupState := λ _, S_OK;
     on_GatherWriterMetadata := λ _, (S_OK, Some 2%nat);
     on_IsVolumeSupported := λ _, (S_OK, true);
     on_StartSnapshotSet := λ _, (S_OK, mkGUID 2 0 0 []);
     on_AddToSnapshotSet := λ _, (S_OK, mkGUID 1 0 0 []);
     on_PrepareForBackup := λ _, (S_OK, Some 3%nat);
     on_DoSnapshotSet := λ _, (S_OK, Some 4%nat);
     on_GetSnapshotProperties := λ _, (S_OK, shadow_copy_1);
     on_BackupComplete := λ _, (S_OK, Some 5%nat);
     on_DeleteSnapshots := λ _, (S_OK, 1, GUID_zero);
     on_Wait := λ _, S_OK;
     on_QueryStatus := λ _, (S_OK, VSS_S_ASYNC_FINISHED);
     on_Now := λ _, 1700000000 |}.

(** Changing one answer of a script. *)
Definition with_Wait (f : N → Z) (s : Script) : Script :=
  let 'mkScript a b c d e f0 g h i j k l m n o p q r u v _ x y := s in
  mkScript a b c d e f0 g h i j k l m n o p q r u v f x y.
Definition with_QueryStatus (f : N → Z * Z) (s : Script) : Script :=
  let 'mkScript a b c d e f0 g h i j k l m n o p q r u v w _ y := s in
  mkScript a b c d e f0 g h i j k l m n o p q r u v w f y.
Definition with_Now (f : N → Z) (s : Script) : Script :=
  let 'mkScript a b c d e f0 g h i j k l m n o p q r u v w x _ := s in
  mkScript a b c d e f0 g h i j k l m n o p q r u v w x f.
Definition with_DllLoad (f : N → option string) (s : Script) : Script :=
  let 'mkScript a b c _ e f0 g h i j k l m n o p q r u v w x y := s in
  mkScript a b c f e f0 g h i j k l m n o p q r u v w x y.
Definition with_QueryInterface (f : N → Z * option nat) (s : Script)
  : Script :=
  let 'mkScript a b c d e f0 g _ i j k l m n o p q r u v w x y := s in
  mkScript a b c d e f0 g f i j k l m n o p q r u v w x y.
Definition with_SetContext (f : N → Z) (s : Script) : Script :=
  let 'mkScript a b c d e f0 g h i _ k l m n o p q r u v w x y := s in
  mkScript a b c d e f0 g h i f k l m n o p q r u v w x y.
Definition with_IsVolumeSupported (f : N → Z * bool) (s : Script)
  : Script :=
  let 'mkScript a b c d e f0 g h i j k l _ n o p q r u v w x y := s in
  mkScript a b c d e f0 g h i j k l f n o p q r u v w x y.
Definition with_BackupComplete (f : N → Z * option nat) (s : Script)
  : Script :=
  let 'mkScript a b c d e f0 g h i j k l m n o p q r _ v w x y := s in
  mkScript a b c d e f0 g h i j k l m n o p q r f v w x y.
Definition with_DeleteSnapshots (f : N → Z * Z * GUID) (s : Script)
  : Script :=
  let 'mkScript a b c d e f0 g h i j k l m n o p q r u _ w x y := s in
  mkScript a b c d e f0 g h i j k l m n o p q r u f w x y.

Definition with_GatherWriterMetadata (f : N → Z * option nat) (s : Script)
  : Script :=
  let 'mkScript a b c d e f0 g h i j k _ m n o p q r u v w x y := s in
  mkScript a b c d e f0 g h i j k f m n o p q r u v w x y.

(** The status of an asynchronous operation that is never finished. *)
Definition VSS_S_ASYNC_PENDING : Z := 0x00042309.

(** A clock for a machine on which a poll (one [Wait], one [QueryStatus],
    one reading of the clock) takes a tenth of a second. *)
Definition ten_polls_a_second (t : N) : Z :=
  1700000000 + Z.of_N t / 30.

(** No asynchronous operation ever finishes. *)
Definition never_finished : Script :=
  with_QueryStatus (λ _, (S_OK, VSS_S_ASYNC_PENDING))
    (with_Now ten_polls_a_second cooperative).

(** [Wait] fails whenever it is called. *)
Definition wait_fails : Script :=
  with_Wait (λ _, VSS_E_UNEXPECTED)
    (with_Now ten_polls_a_second cooperative).

(** The status cannot be read, whenever it is asked for. *)
Definition status_unreadable : Script :=
  with_QueryStatus (λ _, (VSS_E_UNEXPECTED, 0))
    (with_Now ten_polls_a_second cooperative).

(** The volume cannot be snapshotted. *)
Definition volume_unsupported : Script :=
  with_IsVolumeSupported (λ _, (S_OK, false)) cooperative.

(** [SetContext] is refused. *)
Definition context_refused : Script :=
  with_SetContext (λ _, VSS_E_BAD_STATE) cooperative.

(** The [IVSSAsync] interface cannot be had from what an asynchronous
    call gave (every lookup but the first, which is the one for
    [IVssBackupComponents], fails). *)
Definition no_async_interface : Script :=
  with_QueryInterface
    (λ t, if decide (t ≤ 4)%N then (0, Some 7%nat) else (0x80004002, None))
    cooperative.

(** Both the completion signal and the deletion fail. *)
Definition teardown_fails : Script :=
  with_BackupComplete (λ _, (VSS_E_BAD_STATE, None))
    (with_DeleteSnapshots (λ _, (VSS_E_OBJECT_NOT_FOUND, 0, GUID_zero))
       cooperative).

(** [VssApi.dll] cannot be loaded. *)
Definition no_library : Script :=
  with_DllLoad (λ _, Some "The specified module could not be found.")
    cooperative.

(** [GatherWriterMetadata] reports success and hands out no object. *)
Definition gather_gives_no_object : Script :=
  with_GatherWriterMetadata (λ _, (S_OK, None)) cooperative.

(** The snapshot a cooperative environment gives. *)
Definition snapshot_1 : VssSnapshot :=
  mkVssSnapshot (Some 104%nat) (mkGUID 1 0 0 []) shadow_copy_1 120000.

(** [fixpath] of [file_unix.go] and of a windows build on which the path
    is absolute already. *)
Definition fixpath_unix (name : string) : string := name.
Definition fixpath_absolute (name : string) : string := "\\?\" +:+ name.

(** Joining a root with a path that starts with a separator. *)
Definition Join_rooted (a b : string) : string := a +:+ b.


(** The world after [GatherWriterMetadata] has begun, in the environment in
    which nothing ever finishes. *)
Definition gather_started : World :=
  Eval vm_compute in
    (GatherWriterMetadata never_finished (Some 104%nat) World_init).2.

(** Deleting a snapshot when both the completion signal and the deletion
    fail. *)
Definition teardown_fails_run : outcome (option error) * World :=
  Eval vm_compute in Delete teardown_fails 5 snapshot_1 World_init.

(** The world in which [NewVssSnapshot] calls [GatherWriterMetadata], in
    the environment without the [IVSSAsync] interface. *)
Definition before_gather : World := mkWorld 8 [].

Definition gather_without_interface : World :=
  Eval vm_compute in
    (GatherWriterMetadata no_async_interface (Some 7%nat) before_gather).2.

(** A resolver on windows whose cache holds a snapshot of [C:]. *)
Definition cached_C : Resolver.State VssSnapshot World :=
  Resolver.mkState {[ "C:" := snapshot_1 ]} World_init [].

(** Some operations on two volumes. *)
Definition some_operations : list Resolver.op :=
  [ Resolver.OpOpen "C:\a.txt"; Resolver.OpStat "D:\b.txt";
    Resolver.OpDeleteSnapshots; Resolver.OpLstat "C:\c.txt" ].

End Scenarios.

(** ** Further vocabulary

    Conditions on the environment and shapes of transcripts in which the
    remaining properties of the orchestrator are stated. *)

Module Conditions.

Import VssWindows.
#[local] Open Scope Z_scope.

(** The constants of the [const] block of [HRESULT] values. *)
Definition hresult_constants : list Z :=
  [ S_OK; E_ACCESSDENIED; E_OUTOFMEMORY; E_INVALIDARG; VSS_E_BAD_STATE;
    VSS_E_LEGACY_PROVIDER; VSS_E_RESYNC_IN_PROGRESS;
    VSS_E_SNAPSHOT_NOT_IN_SET; VSS_E_MAXIMUM_NUMBER_OF_VOLUMES_REACHED;
    VSS_E_MAXIMUM_NUMBER_OF_SNAPSHOTS_REACHED; VSS_E_NESTED_VOLUME_LIMIT;
    VSS_E_OBJECT_NOT_FOUND; VSS_E_PROVIDER_NOT_REGISTERED;
    VSS_E_PROVIDER_VETO; VSS_E_VOLUME_NOT_SUPPORTED;
    VSS_E_VOLUME_NOT_SUPPORTED_BY_PROVIDER; VSS_E_UNEXPECTED;
    VSS_E_UNEXPECTED_PROVIDER_ERROR; VSS_E_UNSELECTED_VOLUME;
    VSS_E_CANNOT_REVERT_DISKID; VSS_E_INVALID_XML_DOCUMENT;
    VSS_E_OBJECT_ALREADY_EXISTS; FSRVP_E_SHADOW_COPY_SET_IN_PROGRESS ].


(** One iteration of the wait loop after which the loop goes on: [Wait]
    failed, or [QueryStatus] failed, or the operation was not finished and
    the test on the clock failed. *)
Inductive round (a : nat) (start millis : Z) : list event → Prop :=
| wait_failed h :
    h ≠ S_OK → round a start millis [EvWait a 100 h]
| status_failed h state :
    h ≠ S_OK →
    round a start millis [EvWait a 100 S_OK; EvQueryStatus a h state]
| still_running state now :
    state ≠ VSS_S_ASYNC_FINISHED → ¬ int64 (now - start) > millis →
    round a start millis
      [EvWait a 100 S_OK; EvQueryStatus a S_OK state; EvNow now].

(** The iteration with which the loop ends, and what the loop returns. *)
Inductive last_round (a : nat) (start millis : Z)
  : list event → option error → Prop :=
| finished_round :
    last_round a start millis
      [EvWait a 100 S_OK; EvQueryStatus a S_OK VSS_S_ASYNC_FINISHED] None
| timed_out_round state now :
    state ≠ VSS_S_ASYNC_FINISHED → int64 (now - start) > millis →
    last_round a start millis
      [EvWait a 100 S_OK; EvQueryStatus a S_OK state; EvNow now]
      (Some (ErrWaitTimedOut millis)).

(** The native interface hands out an object whenever it reports
    success. *)
Record hands_out_objects (s : Script) : Prop := {
  object_of_CreateVssBackupComponents :
    ∀ t, (on_CreateVssBackupComponents s t).1 = S_OK →
         is_Some (on_CreateVssBackupComponents s t).2;
  object_of_QueryInterface :
    ∀ t, (on_QueryInterface s t).1 = 0 → is_Some (on_QueryInterface s t).2;
  object_of_GatherWriterMetadata :
    ∀ t, (on_GatherWriterMetadata s t).1 = S_OK →
         is_Some (on_GatherWriterMetadata s t).2;
  object_of_PrepareForBackup :
    ∀ t, (on_PrepareForBackup s t).1 = S_OK →
         is_Some (on_PrepareForBackup s t).2;
  object_of_DoSnapshotSet :
    ∀ t, (on_DoSnapshotSet s t).1 = S_OK →
         is_Some (on_DoSnapshotSet s t).2;
  object_of_BackupComplete :
    ∀ t, (on_BackupComplete s t).1 = S_OK →
         is_Some (on_BackupComplete s t).2;
}.

(** An environment in which the build matches the machine, every native
    call succeeds and hands out an object where it should, the volume can
    be snapshotted, and every asynchronous operation has finished when its
    status is first asked. *)
Record cooperates (s : Script) : Prop := {
  coop_arch :
    GOARCH s = "amd64"
    ∨ (GOARCH s = "386"
       ∧ ∀ t, on_GetCurrentProcess s t = None
              ∧ on_IsWow64Process s t = (false, None));
  coop_DllLoad : ∀ t, on_DllLoad s t = None;
  coop_ProcFind : ∀ t procName, on_ProcFind s t procName = None;
  coop_CoInitialize : ∀ t, on_CoInitialize s t = None;
  coop_CreateVssBackupComponents :
    ∀ t, ∃ u, on_CreateVssBackupComponents s t = (S_OK, Some u);
  coop_QueryInterface : ∀ t, ∃ i, on_QueryInterface s t = (0, Some i);
  coop_InitializeForBackup : ∀ t, on_InitializeForBackup s t = S_OK;
  coop_SetContext : ∀ t, on_SetContext s t = S_OK;
  coop_SetBackupState : ∀ t, on_SetBackupState s t = S_OK;
  coop_GatherWriterMetadata :
    ∀ t, ∃ u, on_GatherWriterMetadata s t = (S_OK, Some u);
  coop_IsVolumeSupported : ∀ t, on_IsVolumeSupported s t = (S_OK, true);
  coop_StartSnapshotSet : ∀ t, (on_StartSnapshotSet s t).1 = S_OK;
  coop_AddToSnapshotSet : ∀ t, (on_AddToSnapshotSet s t).1 = S_OK;
  coop_PrepareForBackup :
    ∀ t, ∃ u, on_PrepareForBackup s t = (S_OK, Some u);
  coop_DoSnapshotSet : ∀ t, ∃ u, on_DoSnapshotSet s t = (S_OK, Some u);
  coop_GetSnapshotProperties :
    ∀ t, (on_GetSnapshotProperties s t).1 = S_OK;
  coop_BackupComplete : ∀ t, ∃ u, on_BackupComplete s t = (S_OK, Some u);
  coop_DeleteSnapshots : ∀ t, (on_DeleteSnapshots s t).1.1 = S_OK;
  coop_Wait : ∀ t, on_Wait s t = S_OK;
  coop_QueryStatus : ∀ t, on_QueryStatus s t = (S_OK, VSS_S_ASYNC_FINISHED);
}.

End Conditions.

(** ** The runs of the orchestrator

    The transcripts that an asynchronous step, the creation of a snapshot
    and its deletion can leave, each with the result it comes with.  Every
    way in which the code can end is one rule; a rule that ends a run gives
    the calls up to the last one. *)

Module Runs.

Import VssWindows Transcript Conditions.
#[local] Open Scope Z_scope.

(** The message of the panic that following a nil pointer raises. *)
Definition nil_dereference : string :=
  "invalid memory address or nil pointer dereference".


(** What [handleAsyncFunctionCall] does once the native call of an
    asynchronous operation has returned the status [h] and the object
    [ole]: the calls that follow, and what the step returns. *)
Inductive awaited (fuel : nat) (name : string) (millis : Z) (h : Z)
    (ole : option nat) : list event → outcome (option error) → Prop :=
  (** the native call failed: no further call *)
| call_refused :
    h ≠ S_OK →
    awaited fuel name millis h ole []
      (Ret (Some (ErrReturned name (Str h) h)))
  (** success without an object: [queryInterface] follows the nil pointer *)
| object_missing :
    h = S_OK → ole = None →
    awaited fuel name millis h ole [] (Panic nil_dereference)
  (** the [IVSSAsync] interface cannot be had: the lookup is the last call *)
| handle_missing u r i :
    h = S_OK → ole = Some u → r ≠ 0 ∨ i = None →
    awaited fuel name millis h ole
      [EvQueryInterface u UIID_IVSS_ASYNC r i]
      (Ret (Some (ErrReturnedNil name)))
  (** the wait ended: the handle is released, the result of the wait
      returned *)
| wait_ended u a start rounds final err :
    h = S_OK → ole = Some u →
    Forall (round a start millis) rounds → (length rounds < fuel)%nat →
    last_round a start millis final err →
    awaited fuel name millis h ole
      (EvQueryInterface u UIID_IVSS_ASYNC 0 (Some a) :: EvNow start
         :: concat rounds ++ final ++ [EvRelease a])
      (Ret err)
  (** the wait did not end: the handle is not released *)
| wait_goes_on u a start rounds :
    h = S_OK → ole = Some u →
    Forall (round a start millis) rounds → length rounds = fuel →
    awaited fuel name millis h ole
      (EvQueryInterface u UIID_IVSS_ASYNC 0 (Some a) :: EvNow start
         :: concat rounds)
      OutOfFuel.

(** [return VssSnapshot{}, err] *)
Definition fails (e : error) : outcome (VssSnapshot * option error) :=
  Ret (VssSnapshot_zero, Some e).

(** How the creation ends when an asynchronous step does not go through. *)
Definition stops (oa : outcome (option error))
  : option (outcome (VssSnapshot * option error)) :=
  match oa with
  | Ret None => None
  | Ret (Some e) => Some (fails e)
  | Panic msg => Some (Panic msg)
  | OutOfFuel => Some OutOfFuel
  end.

(** The name of the constructor in [VssApi.dll]. *)
Definition constructor_name (goarch : string) : string :=
  if decide (goarch = "386")
  then "?CreateVssBackupComponents@@YGJPAPAVIVssBackupComponents@@@Z"
  else "?CreateVssBackupComponents@@YAJPEAPEAVIVssBackupComponents@@@Z".

Section Creation.

Variable fuel : nat.
Variable volume : string.
Variable millis : Z.

(** The steps 2 to 11 of the protocol on the session [vss], from a given
    step on; [id] is what the variable [snapshotSetID] holds (of no account
    before [StartSnapshotSet] has set it). *)
Inductive protocol_from (vss : nat)
  : step → GUID → list event → outcome (VssSnapshot * option error) → Prop :=
| initialize_refused id h :
    h ≠ S_OK →
    protocol_from vss StepInitializeForBackup id
      [EvInitializeForBackup vss h]
      (fails (ErrReturned "InitializeForBackup" (Str h) h))
| initialized id l o :
    protocol_from vss StepSetContext id l o →
    protocol_from vss StepInitializeForBackup id
      (EvInitializeForBackup vss S_OK :: l) o
| set_context_refused id h :
    h ≠ S_OK →
    protocol_from vss StepSetContext id
      [EvSetContext vss VSS_CTX_BACKUP h]
      (fails (ErrReturned "SetContext" (Str h) h))
| context_set id l o :
    protocol_from vss StepSetBackupState id l o →
    protocol_from vss StepSetContext id
      (EvSetContext vss VSS_CTX_BACKUP S_OK :: l) o
| state_refused id h :
    h ≠ S_OK →
    protocol_from vss StepSetBackupState id
      [EvSetBackupState vss 0 0 VSS_BT_COPY 0 h]
      (fails (ErrReturned "SetBackupState" (Str h) h))
| state_set id l o :
    protocol_from vss StepGatherWriterMetadata id l o →
    protocol_from vss StepSetBackupState id
      (EvSetBackupState vss 0 0 VSS_BT_COPY 0 S_OK :: l) o
| gather_stopped id h ole waiting oa o :
    awaited fuel "GatherWriterMetadata" millis h ole waiting oa →
    stops oa = Some o →
    protocol_from vss StepGatherWriterMetadata id
      (EvGatherWriterMetadata vss h ole :: waiting) o
| gathered id ole waiting l o :
    awaited fuel "GatherWriterMetadata" millis S_OK ole waiting (Ret None) →
    protocol_from vss StepIsVolumeSupported id l o →
    protocol_from vss StepGatherWriterMetadata id
      (EvGatherWriterMetadata vss S_OK ole :: waiting ++ l) o
| support_refused id h isSupported :
    h ≠ S_OK →
    protocol_from vss StepIsVolumeSupported id
      [EvIsVolumeSupported vss volume h isSupported]
      (fails (ErrReturned "IsVolumeSupported" (Str h) h))
| unsupported id :
    protocol_from vss StepIsVolumeSupported id
      [EvIsVolumeSupported vss volume S_OK false]
      (fails (ErrNotSupported volume))
| supported id l o :
    protocol_from vss StepStartSnapshotSet id l o →
    protocol_from vss StepIsVolumeSupported id
      (EvIsVolumeSupported vss volume S_OK true :: l) o
| start_refused id h set :
    h ≠ S_OK →
    protocol_from vss StepStartSnapshotSet id
      [EvStartSnapshotSet vss h set]
      (fails (ErrReturned "StartSnapshotSet" (Str h) h))
| started id set l o :
    protocol_from vss StepAddToSnapshotSet set l o →
    protocol_from vss StepStartSnapshotSet id
      (EvStartSnapshotSet vss S_OK set :: l) o
| add_refused set h id :
    h ≠ S_OK →
    protocol_from vss StepAddToSnapshotSet set
      [EvAddToSnapshotSet vss volume set h id]
      (fails (ErrReturned "AddToSnapshotSet" (Str h) h))
| added set id l o :
    protocol_from vss StepPrepareForBackup id l o →
    protocol_from vss StepAddToSnapshotSet set
      (EvAddToSnapshotSet vss volume set S_OK id :: l) o
| prepare_stopped id h ole waiting oa o :
    awaited fuel "PrepareForBackup" millis h ole waiting oa →
    stops oa = Some o →
    protocol_from vss StepPrepareForBackup id
      (EvPrepareForBackup vss h ole :: waiting) o
| prepared id ole waiting l o :
    awaited fuel "PrepareForBackup" millis S_OK ole waiting (Ret None) →
    protocol_from vss StepDoSnapshotSet id l o →
    protocol_from vss StepPrepareForBackup id
      (EvPrepareForBackup vss S_OK ole :: waiting ++ l) o
| snapshot_stopped id h ole waiting oa o :
    awaited fuel "DoSnapshotSet" millis h ole waiting oa →
    stops oa = Some o →
    protocol_from vss StepDoSnapshotSet id
      (EvDoSnapshotSet vss h ole :: waiting) o
| snapshot_done id ole waiting l o :
    awaited fuel "DoSnapshotSet" millis S_OK ole waiting (Ret None) →
    protocol_from vss StepGetSnapshotProperties id l o →
    protocol_from vss StepDoSnapshotSet id
      (EvDoSnapshotSet vss S_OK ole :: waiting ++ l) o
| properties_refused id h properties :
    h ≠ S_OK →
    protocol_from vss StepGetSnapshotProperties id
      [EvGetSnapshotProperties vss id h properties]
      (fails (ErrReturned "GetSnapshotProperties" (Str h) h))
| snapshot_created id properties :
    protocol_from vss StepGetSnapshotProperties id
      [EvGetSnapshotProperties vss id S_OK properties]
      (Ret (mkVssSnapshot (Some vss) id properties millis, None)).

(** Step 1, with what comes before it: the library and its constructor,
    COM, the instance and its [IVssBackupComponents] interface. *)
Inductive session (goarch : string)
  : list event → outcome (VssSnapshot * option error) → Prop :=
| library_missing msg :
    session goarch [EvDllLoad "VssApi.dll" (Some msg)] (fails (ErrNative msg))
| constructor_missing msg :
    session goarch
      [EvDllLoad "VssApi.dll" None;
       EvProcFind (constructor_name goarch) (Some msg)]
      (fails (ErrNative msg))
| com_refused msg :
    session goarch
      [EvDllLoad "VssApi.dll" None;
       EvProcFind (constructor_name goarch) None;
       EvCoInitialize (Some msg)]
      (fails (ErrNative msg))
| access_denied ole :
    session goarch
      [EvDllLoad "VssApi.dll" None;
       EvProcFind (constructor_name goarch) None;
       EvCoInitialize None;
       EvCreateVssBackupComponents (constructor_name goarch)
         E_ACCESSDENIED ole]
      (fails (ErrAccessDenied (Str E_ACCESSDENIED) E_ACCESSDENIED))
| instance_refused h ole :
    h ≠ S_OK → h ≠ E_ACCESSDENIED →
    session goarch
      [EvDllLoad "VssApi.dll" None;
       EvProcFind (constructor_name goarch) None;
       EvCoInitialize None;
       EvCreateVssBackupComponents (constructor_name goarch) h ole]
      (fails (ErrCreateInstance (Str h) h))
| instance_missing :
    session goarch
      [EvDllLoad "VssApi.dll" None;
       EvProcFind (constructor_name goarch) None;
       EvCoInitialize None;
       EvCreateVssBackupComponents (constructor_name goarch) S_OK None]
      (Panic nil_dereference)
| interface_refused u r i :
    r ≠ 0 →
    session goarch
      [EvDllLoad "VssApi.dll" None;
       EvProcFind (constructor_name goarch) None;
       EvCoInitialize None;
       EvCreateVssBackupComponents (constructor_name goarch) S_OK (Some u);
       EvQueryInterface u UUID_IVSS r i]
      (fails (ErrQueryInterface r))
| interface_missing u :
    session goarch
      [EvDllLoad "VssApi.dll" None;
       EvProcFind (constructor_name goarch) None;
       EvCoInitialize None;
       EvCreateVssBackupComponents (constructor_name goarch) S_OK (Some u);
       EvQueryInterface u UUID_IVSS 0 None]
      (Panic nil_dereference)
| instantiated u vss l o :
    protocol_from vss StepInitializeForBackup GUID_zero l o →
    session goarch
      (EvDllLoad "VssApi.dll" None
         :: EvProcFind (constructor_name goarch) None
         :: EvCoInitialize None
         :: EvCreateVssBackupComponents (constructor_name goarch) S_OK
              (Some u)
         :: EvQueryInterface u UUID_IVSS 0 (Some vss)
         :: l)
      o.

(** A run of [NewVssSnapshot] in a build for [goarch]. *)
Inductive creation (goarch : string)
  : list event → outcome (VssSnapshot * option error) → Prop :=
| process_unknown msg :
    goarch ≠ "amd64" →
    creation goarch [EvGetCurrentProcess (Some msg)]
      (fails (ErrDetectArchitecture msg))
| architecture_unknown isWow64 msg :
    goarch ≠ "amd64" →
    creation goarch
      [EvGetCurrentProcess None; EvIsWow64Process isWow64 (Some msg)]
      (fails (ErrDetectArchitecture msg))
| other_architecture isWow64 :
    goarch ≠ "amd64" → isWow64 = true ∨ goarch ≠ "386" →
    creation goarch
      [EvGetCurrentProcess None; EvIsWow64Process isWow64 None]
      (fails (ErrArchitecture goarch))
| on_amd64 l o :
    goarch = "amd64" → session goarch l o → creation goarch l o
| on_386 l o :
    goarch = "386" → session goarch l o →
    creation goarch
      (EvGetCurrentProcess None :: EvIsWow64Process false None :: l) o.

End Creation.

(** A run of [Delete] on the snapshot [p]. *)
Inductive deletion (fuel : nat) (p : VssSnapshot)
  : list event → outcome (option error) → Prop :=
| library_unavailable msg :
    deletion fuel p [EvDllLoad "VssApi.dll" (Some msg)]
      (Ret (Some (ErrNative msg)))
| release_unavailable msg :
    deletion fuel p
      [EvDllLoad "VssApi.dll" None;
       EvProcFind "VssFreeSnapshotProperties" (Some msg)]
      (Ret (Some (ErrNative msg)))
| without_session :
    iVssBackupComponents p = None →
    deletion fuel p
      [EvDllLoad "VssApi.dll" None;
       EvProcFind "VssFreeSnapshotProperties" None;
       EvVssFreeSnapshotProperties (snapshotProperties p)]
      (Ret None)
| torn_down vss hc ole waiting ec hd n g :
    iVssBackupComponents p = Some vss →
    awaited fuel "BackupComplete" (timeoutInMillis p) hc ole waiting
      (Ret ec) →
    deletion fuel p
      (EvDllLoad "VssApi.dll" None
         :: EvProcFind "VssFreeSnapshotProperties" None
         :: EvVssFreeSnapshotProperties (snapshotProperties p)
         :: EvBackupComplete vss hc ole
         :: waiting
         ++ [EvDeleteSnapshots vss (snapshotID p) VSS_OBJECT_SNAPSHOT
               hd n g;
             EvRelease vss])
      (Ret (if decide (hd ≠ S_OK)
            then Some (ErrDeleteSnapshot (Str hd) hd)
            else ec))
| completion_panics vss hc ole waiting msg :
    iVssBackupComponents p = Some vss →
    awaited fuel "BackupComplete" (timeoutInMillis p) hc ole waiting
      (Panic msg) →
    deletion fuel p
      (EvDllLoad "VssApi.dll" None
         :: EvProcFind "VssFreeSnapshotProperties" None
         :: EvVssFreeSnapshotProperties (snapshotProperties p)
         :: EvBackupComplete vss hc ole
         :: waiting ++ [EvRelease vss])
      (Panic msg)
| completion_goes_on vss hc ole waiting :
    iVssBackupComponents p = Some vss →
    awaited fuel "BackupComplete" (timeoutInMillis p) hc ole waiting
      OutOfFuel →
    deletion fuel p
      (EvDllLoad "VssApi.dll" None
         :: EvProcFind "VssFreeSnapshotProperties" None
         :: EvVssFreeSnapshotProperties (snapshotProperties p)
         :: EvBackupComplete vss hc ole
         :: waiting)
      OutOfFuel.

(** The object that the native call of an asynchronous step handed out. *)
Definition object_of (ev : event) : option nat :=
  match ev with
  | EvGatherWriterMetadata _ _ ole | EvPrepareForBackup _ _ ole
  | EvDoSnapshotSet _ _ ole | EvBackupComplete _ _ ole => ole
  | _ => None
  end.


(** A creation that ends at a lookup of [IVSSAsync] that failed or gave
    nil: the lookup is the last call, the call before it began an
    asynchronous step and handed out the object [u], and the creation
    returns the error that names that step. *)
Definition ends_without_handle (l : list event)
    (o : outcome (VssSnapshot * option error)) (u : nat) (r : Z)
    (i : option nat) : Prop :=
  ∃ before ev st,
    l = before ++ [ev; EvQueryInterface u UIID_IVSS_ASYNC r i]
    ∧ step_of ev = Some (st, S_OK, true) ∧ is_async st = true
    ∧ object_of ev = Some u
    ∧ o = fails (ErrReturnedNil (step_name st)).

End Runs.

(** Vocabulary for the operations of the resolver. *)

Module Reading.

Import Resolver.

(** The path a read operation is given. *)
Definition op_path (o : op) : option string :=
  match o with
  | OpOpen name | OpOpenFile name _ _ | OpStat name | OpLstat name =>
      Some name
  | OpDeleteSnapshots => None
  end.

(** The call a read operation makes when it hands on the path [p]. *)
Definition hand_on (o : op) (p : string) : option fs_call :=
  match o with
  | OpOpen _ => Some (FS_Open p)
  | OpOpenFile _ flag perm => Some (FS_OpenFile p flag perm)
  | OpStat _ => Some (FS_Stat p)
  | OpLstat _ => Some (FS_Lstat p)
  | OpDeleteSnapshots => None
  end.

(** [volumeName] of [snapshotPath]: the key under which the snapshot for
    a path is cached. *)
Definition volume_of (fixpath : string → string) (path : string)
  : option string :=
  Strings.slice_to 2 (fixPath fixpath path).

Section Reading.

Context {VssSnapshot W : Type}.
Variable NewVssSnapshot : string → Z → M W (VssSnapshot * option error).
Variable Delete : VssSnapshot → M W (option error).
Variable GetSnapshotDeviceObject : VssSnapshot → string.
Variable fixpath : string → string.
Variable Join : string → string → string.

(** One operation, in either revision of the file. *)
Definition exec_of (r : revision)
  : op → M (State VssSnapshot W) (option fs_call) :=
  match r with
  | Handlers =>
      exec NewVssSnapshot Delete GetSnapshotDeviceObject fixpath Join
  | Printing =>
      exec2 NewVssSnapshot Delete GetSnapshotDeviceObject fixpath Join
  end.

(** [DeleteSnapshots], in either revision of the file. *)
Definition DeleteSnapshots_of (r : revision) : M (State VssSnapshot W) unit :=
  match r with
  | Handlers => DeleteSnapshots Delete
  | Printing => DeleteSnapshots2 Delete
  end.

(** The call of a read that is served from the snapshot with the root
    [root]. *)
Definition served_from (root : string) (o : op) : option fs_call :=
  name ← op_path o;
  hand_on o (Join root (Strings.drop 2 (fixPath fixpath name))).

(** States of the resolver that differ in the messages sent only. *)
Definition same_cache (st1 st2 : State VssSnapshot W) : Prop :=
  snapshots st1 = snapshots st2 ∧ platform st1 = platform st2.

End Reading.

End Reading.

(** Further environments to run the model in. *)

Module Builds.

Import VssWindows Scenarios.
#[local] Open Scope Z_scope.

Definition with_GOARCH (goarch : string) (s : Script) : Script :=
  {| GOARCH := goarch;
     on_GetCurrentProcess := on_GetCurrentProcess s;
     on_IsWow64Process := on_IsWow64Process s;
     on_DllLoad := on_DllLoad s;
     on_ProcFind := on_ProcFind s;
     on_CoInitialize := on_CoInitialize s;
     on_CreateVssBackupComponents := on_CreateVssBackupComponents s;
     on_QueryInterface := on_QueryInterface s;
     on_InitializeForBackup := on_InitializeForBackup s;
     on_SetContext := on_SetContext s;
     on_SetBackupState := on_SetBackupState s;
     on_GatherWriterMetadata := on_GatherWriterMetadata s;
     on_IsVolumeSupported := on_IsVolumeSupported s;
     on_StartSnapshotSet := on_StartSnapshotSet s;
     on_AddToSnapshotSet := on_AddToSnapshotSet s;
     on_PrepareForBackup := on_PrepareForBackup s;
     on_DoSnapshotSet := on_DoSnapshotSet s;
     on_GetSnapshotProperties := on_GetSnapshotProperties s;
     on_BackupComplete := on_BackupComplete s;
     on_DeleteSnapshots := on_DeleteSnapshots s;
     on_Wait := on_Wait s;
     on_QueryStatus := on_QueryStatus s;
     on_Now := on_Now s |}.

Definition with_IsWow64Process (f : N → bool * option string) (s : Script)
  : Script :=
  {| GOARCH := GOARCH s;
     on_GetCurrentProcess := on_GetCurrentProcess s;
     on_IsWow64Process := f;
     on_DllLoad := on_DllLoad s;
     on_ProcFind := on_ProcFind s;
     on_CoInitialize := on_CoInitialize s;
     on_CreateVssBackupComponents := on_CreateVssBackupComponents s;
     on_QueryInterface := on_QueryInterface s;
     on_InitializeForBackup := on_InitializeForBackup s;
     on_SetContext := on_SetContext s;
     on_SetBackupState := on_SetBackupState s;
     on_GatherWriterMetadata := on_GatherWriterMetadata s;
     on_IsVolumeSupported := on_IsVolumeSupported s;
     on_StartSnapshotSet := on_StartSnapshotSet s;
     on_AddToSnapshotSet := on_AddToSnapshotSet s;
     on_PrepareForBackup := on_PrepareForBackup s;
     on_DoSnapshotSet := on_DoSnapshotSet s;
     on_GetSnapshotProperties := on_GetSnapshotProperties s;
     on_BackupComplete := on_BackupComplete s;
     on_DeleteSnapshots := on_DeleteSnapshots s;
     on_Wait := on_Wait s;
     on_QueryStatus := on_QueryStatus s;
     on_Now := on_Now s |}.

Definition i386_on_64bit : Script :=
  with_IsWow64Process (λ _, (true, None)) (with_GOARCH "386" cooperative).

(** Creation in the cooperative environment. *)
Definition cooperative_run
  : outcome (VssSnapshot * option error) * World :=
  Eval vm_compute in NewVssSnapshot cooperative 1 "C:\" 120 World_init.

(** Waiting with a budget of 0 for an operation that never finishes, on a
    machine that polls ten times a second. *)
Definition timed_out_wait : outcome (option error) * World :=
  Eval vm_compute in
    WaitUntilAsyncFinished never_finished 20 (Some 101%nat) 0 gather_started.

(** [fixpath] of a windows build for a path of the form [\\server\share\...]. *)
Definition fixpath_unc (name : string) : string :=
  "\\?\UNC\" +:+ Strings.drop 2 name.

End Builds.

(** * Properties *)

Import VssWindows Transcript Conditions Runs.
#[local] Open Scope Z_scope.

(** ** Running monadic code by rewriting *)

Lemma bind_eq {S A B} (m : M S A) (k : A → M S B) st :
  bind m k st = match m st with
                | (Ret a, s') => k a s'
                | (Panic msg, s') => (Panic msg, s')
                | (OutOfFuel, s') => (OutOfFuel, s')
                end.
Proof. reflexivity. Qed.

Lemma bind_ret {S A B} (a : A) (k : A → M S B) st : bind (ret a) k st = k a st.
Proof. reflexivity. Qed.

Lemma bind_bind {S A B C} (m : M S A) (f : A → M S B) (g : B → M S C) st :
  bind (bind m f) g st = bind m (λ x, bind (f x) g) st.
Proof. unfold bind. destruct (m st) as [[]]; reflexivity. Qed.

Lemma bind_panic {S A B} msg (k : A → M S B) st :
  bind (panic msg) k st = (Panic msg, st).
Proof. reflexivity. Qed.

Lemma bind_syscall {A B} (answer : N → A) (ev : A → event)
    (k : A → M World B) w :
  bind (syscall answer ev) k w = k (answer (tick w)) (after (ev (answer (tick w))) w).
Proof. reflexivity. Qed.

Lemma bind_out_of_fuel {S A B} (m : M S A) (k : A → M S B) st :
  (m st).1 = OutOfFuel → (bind m k st).1 = OutOfFuel.
Proof. unfold bind. destruct (m st) as [[]]; cbn; congruence. Qed.

Ltac go :=
  repeat first
    [ rewrite bind_bind
    | rewrite bind_ret
    | rewrite bind_syscall
    | rewrite bind_panic
    | progress cbn [deref after tick trace fst snd] ].

Ltac exec H :=
  repeat first
    [ rewrite bind_bind in H
    | rewrite bind_ret in H
    | rewrite bind_syscall in H
    | rewrite bind_panic in H
    | progress cbn [deref after tick trace fst snd] in H ].

(** ** Transcripts *)

Lemma history_after ev w : history (after ev w) = history w ++ [ev].
Proof. unfold history, after. cbn. apply reverse_cons. Qed.

Lemma history_mk t ev w :
  history (mkWorld t (ev :: trace w)) = history w ++ [ev].
Proof. unfold history. cbn. apply reverse_cons. Qed.

Lemma history_extend w w' sub :
  trace w' = sub ++ trace w → history w' = history w ++ reverse sub.
Proof. unfold history. intros ->. apply reverse_app. Qed.

Lemma is_poll_aux a ev : is_poll a ev → is_aux ev.
Proof. destruct ev; cbn; try done. by intros [_ ->]. Qed.


Lemma aux_no_step l : Forall is_aux l → omap step_of l = [].
Proof.
  intros H. induction H as [|ev l [Hev _] _ IH]; [done|].
  cbn. by rewrite Hev.
Qed.






Lemma omap_reverse {A B} (f : A → option B) l :
  omap f (reverse l) = reverse (omap f l).
Proof.
  induction l as [|x l IH]; [done|].
  rewrite reverse_cons, omap_app, IH.
  change (omap f (x :: l))
    with (match f x with Some y => y :: omap f l | None => omap f l end).
  change (omap f [x]) with (match f x with Some y => [y] | None => [] end).
  destruct (f x); [by rewrite reverse_cons|by rewrite app_nil_r].
Qed.

Ltac polls :=
  repeat first [ apply Forall_nil_2 | apply Forall_cons_2; [cbn; done|] ].

Ltac aux :=
  repeat first [ apply Forall_nil_2 | apply Forall_cons_2; [by split|] ].

(** ** The wait loop *)

(** One iteration of the loop of [WaitUntilAsyncFinished]. *)
Lemma wait_loop_unfold s fuel a start millis w :
  wait_loop s (S fuel) (Some a) start millis w =
    let w1 := after (EvWait a 100 (on_Wait s (tick w))) w in
    if decide (on_Wait s (tick w) ≠ S_OK) then
      wait_loop s fuel (Some a) start millis w1
    else
      let q := on_QueryStatus s (tick w1) in
      let w2 := after (EvQueryStatus a q.1 q.2) w1 in
      if decide (q.1 ≠ S_OK) then wait_loop s fuel (Some a) start millis w2
      else if decide (q.2 = VSS_S_ASYNC_FINISHED) then (Ret None, w2)
      else
        let now := on_Now s (tick w2) in
        let w3 := after (EvNow now) w2 in
        if decide (int64 (now - start) > millis)
        then (Ret (Some (ErrWaitTimedOut millis)), w3)
        else wait_loop s fuel (Some a) start millis w3.
Proof.
  cbn [wait_loop]. unfold Wait, QueryStatus, Now_Unix. go.
  cbv zeta. case_decide; [done|]. go.
  destruct (on_QueryStatus s (N.succ (tick w))) as [h st].
  go. repeat (case_decide; go; try done).
Qed.

(** The loop makes polls only, and it ends, if it ends, with [nil] after a
    status query reported the operation finished, or with the timeout. *)
Lemma wait_loop_polls s fuel a start millis w :
  ∃ sub,
    trace (wait_loop s fuel (Some a) start millis w).2 = sub ++ trace w ∧
    Forall (is_poll a) sub ∧
    match (wait_loop s fuel (Some a) start millis w).1 with
    | Ret None => ∃ ev, ev ∈ sub ∧ finished ev = true
    | Ret (Some e) => e = ErrWaitTimedOut millis
    | Panic _ => False
    | OutOfFuel => True
    end.
Proof.
  revert w. induction fuel as [|fuel IH]; intros w.
  { exists []. cbn. by repeat split. }
  rewrite wait_loop_unfold. cbv zeta. unfold after. cbn [tick trace].
  repeat case_decide.
  all: try match goal with
       | |- context [wait_loop _ _ _ _ _ ?w1] =>
           destruct (IH w1) as (sub & Htr & Hsub & Hout);
           cbn [trace] in Htr; eexists; split;
           [ rewrite Htr;
             first [ apply (app_assoc sub [_] (trace w))
                   | apply (app_assoc sub [_; _] (trace w))
                   | apply (app_assoc sub [_; _; _] (trace w)) ]
           | split;
             [ apply Forall_app; split; [exact Hsub|polls]
             | destruct (wait_loop _ _ _ _ _ _) as [[[e|]| |] w2];
               cbn [fst] in *; try done;
               destruct Hout as (ev & Hin & Hfin); exists ev;
               split; [apply elem_of_app; by left|done] ] ]
       end.
  all: cbn [fst snd trace].
  - eexists [_; _]. split; [reflexivity|]. split; [polls|].
    eexists. split; [apply list_elem_of_here|]. cbn.
    apply bool_decide_eq_true. done.
  - eexists [_; _; _]. split; [reflexivity|]. split; [polls|done].
Qed.

(** The loop never ends when the status can never be read: every [Wait], or
    every [QueryStatus] that follows a [Wait], fails. *)
Lemma wait_loop_never_returns s fuel a start millis w :
  (∀ t, on_Wait s t ≠ S_OK ∨ (on_QueryStatus s (N.succ t)).1 ≠ S_OK) →
  (wait_loop s fuel (Some a) start millis w).1 = OutOfFuel.
Proof.
  intros Hfail. revert w. induction fuel as [|fuel IH]; intros w; [done|].
  rewrite wait_loop_unfold. cbv zeta. unfold after. cbn [tick trace].
  destruct (Hfail (tick w)) as [H|H].
  - rewrite decide_True by done. apply IH.
  - case_decide; [apply IH|]. rewrite (decide_True _ _ H). apply IH.
Qed.

(** What the loop has done when it ends, and when it is out of fuel: it
    has gone through rounds, each a [Wait(100)] that failed, or a
    [Wait(100)] and a [QueryStatus] that failed, or both and a reading of
    the clock that did not exceed the budget. *)
Lemma wait_loop_rounds s fuel a start millis w :
  ∃ rounds final,
    history (wait_loop s fuel (Some a) start millis w).2
      = history w ++ concat rounds ++ final ∧
    Forall (round a start millis) rounds ∧
    match (wait_loop s fuel (Some a) start millis w).1 with
    | Ret err => last_round a start millis final err
                 ∧ (length rounds < fuel)%nat
    | Panic _ => False
    | OutOfFuel => final = [] ∧ length rounds = fuel
    end.
Proof.
  revert w. induction fuel as [|fuel IH]; intros w.
  { exists [], []. cbn. by rewrite app_nil_r. }
  rewrite wait_loop_unfold. cbv zeta.
  set (h := on_Wait s (tick w)).
  set (w1 := after (EvWait a 100 h) w).
  set (q := on_QueryStatus s (tick w1)).
  set (w2 := after (EvQueryStatus a q.1 q.2) w1).
  set (now := on_Now s (tick w2)).
  set (w3 := after (EvNow now) w2).
  assert (∀ wn r, history wn = history w ++ r → round a start millis r →
            ∃ rounds final,
              history (wait_loop s fuel (Some a) start millis wn).2
                = history w ++ concat rounds ++ final ∧
              Forall (round a start millis) rounds ∧
              match (wait_loop s fuel (Some a) start millis wn).1 with
              | Ret err => last_round a start millis final err
                           ∧ (length rounds < S fuel)%nat
              | Panic _ => False
              | OutOfFuel => final = [] ∧ length rounds = S fuel
              end) as Hnext.
  { intros wn r Hwn Hr. destruct (IH wn) as (rounds & final & Hh & Hrs & Ho).
    exists (r :: rounds), final. split.
    { rewrite Hh, Hwn. cbn [concat]. by rewrite <-!app_assoc. }
    split; [by apply Forall_cons_2|].
    destruct (wait_loop _ _ _ _ _ wn) as [[err| |] wx]; cbn [fst] in *.
    - destruct Ho. split; [done|]. cbn [length]. lia.
    - done.
    - destruct Ho as [-> <-]. done. }
  case_decide as Hh.
  { apply (Hnext w1 [EvWait a 100 h]); [apply history_after|by constructor]. }
  assert (h = S_OK) as Eh by (by destruct (decide (h = S_OK))).
  assert (history w2 = history w ++ [EvWait a 100 S_OK; EvQueryStatus a q.1 q.2])
    as Hw2.
  { unfold w2, w1. rewrite !history_after, Eh. by rewrite <-app_assoc. }
  case_decide as Hq.
  { apply (Hnext w2 [EvWait a 100 S_OK; EvQueryStatus a q.1 q.2]);
      [done|by constructor]. }
  assert (q.1 = S_OK) as Eq by (by destruct (decide (q.1 = S_OK))).
  rewrite Eq in Hw2.
  case_decide as Hst.
  { exists [], [EvWait a 100 S_OK; EvQueryStatus a S_OK VSS_S_ASYNC_FINISHED].
    cbn [fst snd concat app length]. rewrite Hw2, Hst.
    split; [done|]. split; [done|]. split; [constructor|lia]. }
  assert (history w3 = history w ++
            [EvWait a 100 S_OK; EvQueryStatus a S_OK q.2; EvNow now]) as Hw3.
  { unfold w3. rewrite history_after, Hw2. by rewrite <-app_assoc. }
  case_decide as Hnow.
  { exists [], [EvWait a 100 S_OK; EvQueryStatus a S_OK q.2; EvNow now].
    cbn [fst snd concat app length]. rewrite Hw3.
    split; [done|]. split; [done|]. split; [by constructor|lia]. }
  apply (Hnext w3 [EvWait a 100 S_OK; EvQueryStatus a S_OK q.2; EvNow now]);
    [done|by constructor].
Qed.

(** The calls of the loop are polls. *)
Lemma round_polls a start millis r :
  round a start millis r → Forall (is_poll a) r.
Proof. destruct 1; polls. Qed.

Lemma last_round_polls a start millis final err :
  last_round a start millis final err → Forall (is_poll a) final.
Proof. destruct 1; polls. Qed.

Lemma rounds_polls a start millis rounds :
  Forall (round a start millis) rounds → Forall (is_poll a) (concat rounds).
Proof.
  intros H. apply Forall_concat. eapply Forall_impl; [exact H|].
  apply round_polls.
Qed.


(** ** Starting an asynchronous operation and waiting for it *)

Lemma GatherWriterMetadata_async s o :
  GatherWriterMetadata s (Some o) =
    async_call s (on_GatherWriterMetadata s)
               (λ r, EvGatherWriterMetadata o r.1 r.2).
Proof. reflexivity. Qed.

Lemma PrepareForBackup_async s o :
  PrepareForBackup s (Some o) =
    async_call s (on_PrepareForBackup s) (λ r, EvPrepareForBackup o r.1 r.2).
Proof. reflexivity. Qed.

Lemma DoSnapshotSet_async s o :
  DoSnapshotSet s (Some o) =
    async_call s (on_DoSnapshotSet s) (λ r, EvDoSnapshotSet o r.1 r.2).
Proof. reflexivity. Qed.

Lemma BackupComplete_async s o :
  BackupComplete s (Some o) =
    async_call s (on_BackupComplete s) (λ r, EvBackupComplete o r.1 r.2).
Proof. reflexivity. Qed.

Lemma handleAsyncReturnValue_eq s result oleIUnknown w :
  handleAsyncReturnValue s result oleIUnknown w =
    if decide (result ≠ S_OK) then (Ret (result, None), w)
    else match oleIUnknown with
         | None =>
             (Panic "invalid memory address or nil pointer dereference", w)
         | Some u =>
             let q := on_QueryInterface s (tick w) in
             (Ret (result, if decide (q.1 ≠ 0) then None else q.2),
              after (EvQueryInterface u UIID_IVSS_ASYNC q.1 q.2) w)
         end.
Proof.
  unfold handleAsyncReturnValue, queryInterface. cbv zeta.
  case_decide; [done|]. destruct oleIUnknown as [u|]; go; [|done].
  destruct (on_QueryInterface s (tick w)) as [r i]. go.
  case_decide; go; done.
Qed.

Lemma WaitUntilAsyncFinished_eq s fuel a millis w :
  WaitUntilAsyncFinished s fuel (Some a) millis w =
    wait_loop s fuel (Some a) (on_Now s (tick w)) millis
              (after (EvNow (on_Now s (tick w))) w).
Proof. reflexivity. Qed.

Lemma handleAsyncFunctionCall_eq s fuel function name millis w :
  handleAsyncFunctionCall s fuel function name millis w =
    match function w with
    | (Ret (hRes, iVssAsync), w1) =>
        if decide (hRes ≠ S_OK)
        then (Ret (Some (ErrReturned name (Str hRes) hRes)), w1)
        else match iVssAsync with
             | None => (Ret (Some (ErrReturnedNil name)), w1)
             | Some a =>
                 match WaitUntilAsyncFinished s fuel (Some a) millis w1 with
                 | (Ret err, w2) => (Ret err, after (EvRelease a) w2)
                 | (Panic msg, w2) => (Panic msg, w2)
                 | (OutOfFuel, w2) => (OutOfFuel, w2)
                 end
             end
    | (Panic msg, w1) => (Panic msg, w1)
    | (OutOfFuel, w1) => (OutOfFuel, w1)
    end.
Proof.
  unfold handleAsyncFunctionCall. rewrite bind_eq.
  destruct (function w) as [[[hRes [a|]]| |] w1]; try done.
  - case_decide; [done|]. rewrite bind_eq.
    destruct (WaitUntilAsyncFinished _ _ _ _ _) as [[err| |] w2]; try done.
    unfold Release. go. destruct err; done.
  - case_decide; done.
Qed.

(** A step never returns once its handle is there and the status can never
    be read. *)
Lemma handleAsync_never_returns s fuel function name millis w a w1 :
  function w = (Ret (S_OK, Some a), w1) →
  (∀ t, on_Wait s t ≠ S_OK ∨ (on_QueryStatus s (N.succ t)).1 ≠ S_OK) →
  (handleAsyncFunctionCall s fuel function name millis w).1 = OutOfFuel.
Proof.
  intros Hf Hfail. rewrite handleAsyncFunctionCall_eq, Hf.
  rewrite decide_False by (intros ?; done).
  rewrite WaitUntilAsyncFinished_eq.
  pose proof (wait_loop_never_returns s fuel a (on_Now s (tick w1)) millis
                (after (EvNow (on_Now s (tick w1))) w1) Hfail) as Hw.
  destruct (wait_loop _ _ _ _ _ _) as [o2 w2]. cbn in Hw. by subst.
Qed.

(** What [handleAsyncFunctionCall] does with one of the four asynchronous
    operations: the call that begins the step, then calls that begin no
    step; a status other than [S_OK] is reported at once; [nil] is returned
    only after a status query reported the operation finished. *)
Lemma handleAsync_call s fuel answer ev name millis w o w' :
  handleAsyncFunctionCall s fuel (async_call s answer ev) name millis w
    = (o, w') →
  ∃ waiting,
    history w' = history w ++ ev (answer (tick w)) :: waiting ∧
    Forall is_aux waiting ∧
    ((answer (tick w)).1 ≠ S_OK →
       o = Ret (Some (ErrReturned name (Str (answer (tick w)).1)
                                  (answer (tick w)).1))
       ∧ waiting = []) ∧
    ((answer (tick w)).1 = S_OK →
       match o with
       | Ret (Some e) => e = ErrReturnedNil name ∨ e = ErrWaitTimedOut millis
       | Ret None => ∃ ev', ev' ∈ waiting ∧ finished ev' = true
       | _ => True
       end).
Proof.
  rewrite handleAsyncFunctionCall_eq. unfold async_call. go.
  destruct (answer (tick w)) as [result ole] eqn:Hans. cbn [fst snd].
  rewrite handleAsyncReturnValue_eq. cbv zeta.
  case_decide as Hres.
  { rewrite decide_True by done. intros [= <- <-].
    exists []. rewrite history_after. naive_solver. }
  destruct ole as [u|].
  2:{ intros [= <- <-]. exists []. rewrite history_after.
      split; [done|]. split; [done|]. split; done. }
  cbv beta iota. cbn [after tick].
  rewrite (decide_False (P := result ≠ S_OK)) by (intros ?; done).
  destruct (on_QueryInterface s (N.succ (tick w))) as [qr qi]. cbn [fst snd].
  set (w0 := after (EvQueryInterface _ _ _ _) _).
  assert (history w0 = history w ++
            [ev (result, Some u); EvQueryInterface u UIID_IVSS_ASYNC qr qi])
    as Hw0.
  { unfold w0. by rewrite !history_after, <-app_assoc. }
  assert (∀ e, e = ErrReturnedNil name →
            (Ret (Some e), w0) = (o, w') →
            ∃ waiting,
              history w' = history w ++ ev (result, Some u) :: waiting
              ∧ Forall is_aux waiting
              ∧ (result ≠ S_OK →
                   o = Ret (Some (ErrReturned name (Str result) result))
                   ∧ waiting = [])
              ∧ (result = S_OK →
                   match o with
                   | Ret (Some e) =>
                       e = ErrReturnedNil name ∨ e = ErrWaitTimedOut millis
                   | Ret None => ∃ ev', ev' ∈ waiting ∧ finished ev' = true
                   | _ => True
                   end)) as Hnil.
  { intros e -> [= <- <-]. eexists [_]. split; [exact Hw0|].
    split; [by aux|]. split; [done|]. intros _. by left. }
  case_decide; [by apply Hnil|].
  destruct qi as [a|]; [|by apply Hnil]. clear Hnil.
  rewrite WaitUntilAsyncFinished_eq.
  destruct (wait_loop_polls s fuel a (on_Now s (tick w0)) millis
              (after (EvNow (on_Now s (tick w0))) w0))
    as (sub & Htr & Hsub & Hout).
  destruct (wait_loop _ _ _ _ _ _) as [o2 w2]. cbn [fst snd] in *.
  assert (history w2 = history w ++ ev (result, Some u)
            :: EvQueryInterface u UIID_IVSS_ASYNC qr (Some a)
            :: EvNow (on_Now s (tick w0)) :: reverse sub) as Hh.
  { rewrite (history_extend _ _ _ Htr), history_after, Hw0.
    by rewrite <-!app_assoc. }
  assert (Forall is_aux (reverse sub)) as Haux.
  { apply Forall_reverse. eapply Forall_impl; [done|]. apply is_poll_aux. }
  destruct o2 as [err| |]; intros [= <- <-].
  - eexists (_ :: _ :: reverse sub ++ [_]). rewrite history_after, Hh.
    rewrite <-app_assoc. split; [done|]. split.
    { do 2 (apply Forall_cons_2; [done|]). apply Forall_app.
      split; [done|by aux]. }
    split; [done|]. intros _. destruct err as [e|]; [by right|].
    destruct Hout as (ev' & Hin & Hfin). exists ev'. split; [|done].
    do 2 apply list_elem_of_further. apply elem_of_app. left.
    by apply elem_of_reverse.
  - done.
  - eexists (_ :: _ :: reverse sub). rewrite Hh. split; [done|].
    split; [|done]. do 2 (apply Forall_cons_2; [done|]). done.
Qed.

(** What [handleAsyncFunctionCall] does with one of the four asynchronous
    operations, to the call. *)
Lemma handleAsync_run s fuel answer ev name millis w o w' :
  handleAsyncFunctionCall s fuel (async_call s answer ev) name millis w
    = (o, w') →
  ∃ waiting,
    history w' = history w ++ ev (answer (tick w)) :: waiting ∧
    awaited fuel name millis (answer (tick w)).1 (answer (tick w)).2
            waiting o.
Proof.
  rewrite handleAsyncFunctionCall_eq. unfold async_call. go.
  destruct (answer (tick w)) as [result ole] eqn:Hans. cbn [fst snd].
  rewrite handleAsyncReturnValue_eq. cbv zeta.
  case_decide as Hres.
  { rewrite decide_True by done. intros [= <- <-].
    exists []. rewrite history_after. split; [done|]. by constructor. }
  assert (result = S_OK) as -> by (by destruct (decide (result = S_OK))).
  destruct ole as [u|].
  2:{ intros [= <- <-]. exists []. rewrite history_after.
      split; [done|]. by constructor. }
  cbv beta iota. cbn [after tick].
  rewrite (decide_False (P := S_OK ≠ S_OK)) by (intros ?; done).
  destruct (on_QueryInterface s (N.succ (tick w))) as [qr qi]. cbn [fst snd].
  set (w0 := after (EvQueryInterface _ _ _ _) _).
  assert (history w0 = history w ++
            [ev (S_OK, Some u); EvQueryInterface u UIID_IVSS_ASYNC qr qi])
    as Hw0.
  { unfold w0. by rewrite !history_after, <-app_assoc. }
  case_decide as Hqr.
  { intros [= <- <-]. eexists [_]. split; [exact Hw0|].
    apply handle_missing with (u := u); auto. }
  assert (qr = 0) as -> by (by destruct (decide (qr = 0))).
  destruct qi as [a|].
  2:{ intros [= <- <-]. eexists [_]. split; [exact Hw0|].
      apply handle_missing with (u := u); auto. }
  rewrite WaitUntilAsyncFinished_eq.
  destruct (wait_loop_rounds s fuel a (on_Now s (tick w0)) millis
              (after (EvNow (on_Now s (tick w0))) w0))
    as (rounds & final & Hh & Hrs & Ho).
  destruct (wait_loop _ _ _ _ _ _) as [o2 w2]. cbn [fst snd] in *.
  rewrite history_after, Hw0, <-!app_assoc in Hh. cbn [app] in Hh.
  destruct o2 as [err| |]; intros [= <- <-].
  - destruct Ho as [Hlast Hlen].
    exists (EvQueryInterface u UIID_IVSS_ASYNC 0 (Some a)
              :: EvNow (on_Now s (tick w0))
              :: concat rounds ++ final ++ [EvRelease a]).
    split.
    + rewrite history_after, Hh.
      repeat first [rewrite <-app_assoc | progress cbn [app]]. done.
    + by apply wait_ended.
  - done.
  - destruct Ho as [-> Hlen]. rewrite app_nil_r in Hh.
    exists (EvQueryInterface u UIID_IVSS_ASYNC 0 (Some a)
              :: EvNow (on_Now s (tick w0)) :: concat rounds).
    split; [done|]. by apply wait_goes_on.
Qed.

(** What the calls of an asynchronous step that went through are. *)
Lemma awaited_done fuel name millis h ole waiting :
  awaited fuel name millis h ole waiting (Ret None) →
  h = S_OK ∧ Forall is_aux waiting
  ∧ ∃ ev, ev ∈ waiting ∧ finished ev = true.
Proof.
  inversion 1 as [| | |u a start rounds final err Hh Hole Hrs Hlen Hlast|];
    subst.
  inversion Hlast; subst. split; [done|]. split.
  - do 2 (apply Forall_cons_2; [done|]). apply Forall_app. split.
    + apply Forall_concat. eapply Forall_impl; [exact Hrs|].
      intros r Hr. destruct Hr; aux.
    + aux.
  - eexists. split.
    + do 2 apply list_elem_of_further. apply elem_of_app. right.
      apply list_elem_of_further, list_elem_of_here.
    + cbn. by apply bool_decide_eq_true.
Qed.


(** A lookup of [IVSSAsync] that fails or gives nil ends an asynchronous
    step, with the error that names the step. *)
Lemma awaited_handle_missing fuel name millis h ole waiting oa u r i :
  awaited fuel name millis h ole waiting oa →
  EvQueryInterface u UIID_IVSS_ASYNC r i ∈ waiting → r ≠ 0 ∨ i = None →
  waiting = [EvQueryInterface u UIID_IVSS_ASYNC r i]
  ∧ h = S_OK ∧ ole = Some u ∧ oa = Ret (Some (ErrReturnedNil name)).
Proof.
  intros Hrun Hin Hq.
  destruct Hrun as [| |u' r' i' ? ? ?
                    |u' a start rounds final err ? ? Hrs ? Hlast
                    |u' a start rounds ? ? Hrs ?].
  - by apply elem_of_nil in Hin.
  - by apply elem_of_nil in Hin.
  - apply list_elem_of_singleton in Hin. by simplify_eq.
  - exfalso. apply elem_of_cons in Hin as [Hin|Hin].
    { simplify_eq. by destruct Hq. }
    apply elem_of_cons in Hin as [Hin|Hin]; [done|].
    rewrite app_assoc in Hin. apply elem_of_app in Hin as [Hin|Hin].
    + assert (Forall (is_poll a) (concat rounds ++ final)) as Hp.
      { apply Forall_app. split; [by eapply rounds_polls
                                 |by eapply last_round_polls]. }
      rewrite Forall_forall in Hp. by apply Hp in Hin.
    + by apply list_elem_of_singleton in Hin.
  - exfalso. apply elem_of_cons in Hin as [Hin|Hin].
    { simplify_eq. by destruct Hq. }
    apply elem_of_cons in Hin as [Hin|Hin]; [done|].
    pose proof (rounds_polls _ _ _ _ Hrs) as Hp.
    rewrite Forall_forall in Hp. by apply Hp in Hin.
Qed.

(** The error that an asynchronous operation returned nil comes from a
    lookup of [IVSSAsync] that failed or gave nil, and from nowhere else. *)
Lemma awaited_nil_error fuel name millis h ole waiting name' :
  awaited fuel name millis h ole waiting (Ret (Some (ErrReturnedNil name'))) →
  ∃ u r i, EvQueryInterface u UIID_IVSS_ASYNC r i ∈ waiting
           ∧ (r ≠ 0 ∨ i = None).
Proof.
  inversion 1 as [| |u r i ? ? Hq|? ? ? ? ? ? ? ? ? ? Hlast|]; subst.
  - exists u, r, i. split; [apply list_elem_of_here|done].
  - inversion Hlast.
Qed.


(** ** Snapshot creation *)

Lemma isRunningOn64BitWindows_run s w :
  ∃ r before w1,
    isRunningOn64BitWindows s w = (Ret r, w1) ∧
    history w1 = history w ++ before ∧ Forall is_aux before.
Proof.
  unfold isRunningOn64BitWindows. case_decide.
  { eexists _, [], _. split; [done|]. by rewrite app_nil_r. }
  go. destruct (on_GetCurrentProcess s (tick w)).
  { eexists _, [_], _. split; [done|]. rewrite history_after.
    split; [done|aux]. }
  go. destruct (on_IsWow64Process s (N.succ (tick w))) as [b [msg|]];
    eexists _, [_; _], _; (split; [done|]);
    rewrite !history_after, <-app_assoc; (split; [done|aux]).
Qed.

Lemma findVssProc_lookup s procName w :
  ∃ r lookup w1,
    findVssProc s procName w = (Ret r, w1) ∧
    history w1 = history w ++ lookup ∧ Forall is_lookup lookup ∧
    head lookup = Some (EvDllLoad "VssApi.dll" (on_DllLoad s (tick w))).
Proof.
  unfold findVssProc. go. destruct (on_DllLoad s (tick w)).
  { eexists _, [_], _. split; [done|]. rewrite history_after. split; [done|].
    split; [|done]. by repeat constructor. }
  go. destruct (on_ProcFind s (N.succ (tick w)) procName);
    eexists _, [_; _], _; (split; [done|]);
    rewrite !history_after, <-app_assoc;
    (split; [done|]); (split; [|done]); by repeat constructor.
Qed.

(** Bringing what is known about the transcript so far into the form
    [history w' = history w ++ ...]. *)
Ltac hist_in H :=
  rewrite ?history_after in H;
  repeat match type of H with
         | context [history ?x] =>
             match goal with
             | Hx : history x = _ |- _ =>
                 tryif constr_eq Hx H then fail else rewrite Hx in H
             end
         end;
  repeat first [rewrite <-app_assoc in H | progress cbn [app] in H].

Ltac hist_goal :=
  rewrite ?history_after;
  repeat match goal with
         | Hx : history ?x = _ |- context [history ?x] => rewrite Hx
         end;
  repeat first [rewrite <-app_assoc | progress cbn [app]].




(** One asynchronous step of [NewVssSnapshot], in the hypothesis [H]. *)
Ltac async H :=
  rewrite bind_eq in H;
  rewrite ?GatherWriterMetadata_async, ?PrepareForBackup_async,
    ?DoSnapshotSet_async in H;
  let oa := fresh "oa" in
  let wa := fresh "wa" in
  let E := fresh "E" in
  let waiting := fresh "waiting" in
  let Hh := fresh "Hh" in
  let Haux := fresh "Haux" in
  let Hfail := fresh "Hfail" in
  let Hok := fresh "Hok" in
  let Hr := fresh "Hr" in
  match type of H with
  | context [handleAsyncFunctionCall ?s ?f ?fn ?n ?m ?W] =>
      destruct (handleAsyncFunctionCall s f fn n m W) as [oa wa] eqn:E;
      apply handleAsync_call in E as (waiting & Hh & Haux & Hfail & Hok);
      cbn [after tick trace fst snd] in Hh, Hfail, Hok;
      hist_in Hh;
      match type of Hok with
      | ?P → _ =>
          destruct (decide P) as [Hr|Hr];
          [ specialize (Hok Hr); clear Hfail
          | destruct (Hfail Hr) as [-> ->]; clear Hok Hfail ]
      end;
      [ destruct oa as [[?|]| |]; cbn beta iota in Hok | ]
  end.



(** A native call whose status decides how the run goes on, in [H]: it was
    refused, or its status is [S_OK] from here on. *)
Ltac status H :=
  match type of H with
  | context [decide (?h ≠ S_OK)] =>
      let E := fresh "E" in
      destruct (decide (h = S_OK)) as [E|E];
      [ first [subst h | rewrite E in H];
        rewrite (decide_False (P := S_OK ≠ S_OK)) in H by (intros ?; done)
      | rewrite (decide_True (P := h ≠ S_OK)) in H by done ]
  end.

(** One asynchronous step of [NewVssSnapshot], in [H], to the call. *)
Ltac async_run H :=
  rewrite bind_eq in H;
  rewrite ?GatherWriterMetadata_async, ?PrepareForBackup_async,
    ?DoSnapshotSet_async, ?BackupComplete_async in H;
  let oa := fresh "oa" in
  let wa := fresh "wa" in
  let E := fresh "E" in
  let waiting := fresh "waiting" in
  let Hh := fresh "Hh" in
  let Hrun := fresh "Hrun" in
  match type of H with
  | context [handleAsyncFunctionCall ?s ?f ?fn ?n ?m ?W] =>
      destruct (handleAsyncFunctionCall s f fn n m W) as [oa wa] eqn:E;
      apply handleAsync_run in E as (waiting & Hh & Hrun);
      cbn [after tick trace fst snd] in Hh, Hrun;
      hist_in Hh;
      destruct oa as [[?|]| |];
      [ | let E1 := fresh "E" in
          destruct (awaited_done _ _ _ _ _ _ Hrun) as (E1 & _ & _);
          rewrite E1 in Hh, Hrun; clear E1
        | | ]
  end.

(** The rules of a run, from the calls it made. *)
Ltac derive :=
  first
    [ eassumption
    | reflexivity
    | done
    | by left
    | by right
    | econstructor; derive ].

Ltac run_leaf H :=
  injection H as <- <-;
  eexists; split; [hist_goal; reflexivity|]; derive.

(** The steps 2 to 11, in [H]. *)
Ltac protocol_run H :=
  unfold InitializeForBackup, SetContext, SetBackupState in H;
  exec H; cbv zeta in H; status H; [|exec H; by run_leaf H];
  exec H; status H; [|exec H; by run_leaf H];
  exec H; status H; [|exec H; by run_leaf H];
  async_run H; [exec H; by run_leaf H| |by run_leaf H|by run_leaf H];
  unfold IsVolumeSupported, StartSnapshotSet, AddToSnapshotSet,
    GetSnapshotProperties in H;
  exec H;
  match type of H with
  | context [on_IsVolumeSupported ?s ?t] =>
      destruct (on_IsVolumeSupported s t) as [? [|]]
  end;
  exec H; (status H; [|exec H; by run_leaf H]);
  cbn [negb] in H; [|exec H; by run_leaf H];
  exec H;
  match type of H with
  | context [on_StartSnapshotSet ?s ?t] =>
      destruct (on_StartSnapshotSet s t) as [? ?]
  end;
  exec H; status H; [|exec H; by run_leaf H];
  exec H;
  match type of H with
  | context [on_AddToSnapshotSet ?s ?t] =>
      destruct (on_AddToSnapshotSet s t) as [? ?]
  end;
  exec H; status H; [|exec H; by run_leaf H];
  async_run H; [exec H; by run_leaf H| |by run_leaf H|by run_leaf H];
  async_run H; [exec H; by run_leaf H| |by run_leaf H|by run_leaf H];
  exec H;
  match type of H with
  | context [on_GetSnapshotProperties ?s ?t] =>
      destruct (on_GetSnapshotProperties s t) as [? ?]
  end;
  exec H; status H; [|exec H; by run_leaf H];
  exec H; by run_leaf H.

(** Step 1 and what comes before it, then the protocol, in [H]. *)
Ltac session_run H :=
  exec H;
  match type of H with
  | context [on_DllLoad ?s ?t] => destruct (on_DllLoad s t) as [?|]
  end;
  [exec H; by run_leaf H|];
  exec H;
  match type of H with
  | context [on_ProcFind ?s ?t ?n] => destruct (on_ProcFind s t n) as [?|]
  end;
  [exec H; by run_leaf H|];
  exec H;
  match type of H with
  | context [on_CoInitialize ?s ?t] => destruct (on_CoInitialize s t) as [?|]
  end;
  [exec H; by run_leaf H|];
  exec H;
  match type of H with
  | context [on_CreateVssBackupComponents ?s ?t] =>
      let result := fresh "result" in
      destruct (on_CreateVssBackupComponents s t) as [result [?|]];
      exec H;
      (destruct (decide (result = S_OK)) as [->|?];
       [|destruct (decide (result = E_ACCESSDENIED)) as [->|?];
         exec H; by run_leaf H])
  end;
  unfold queryInterface in H;
  [|exec H; by run_leaf H];
  exec H;
  match type of H with
  | context [on_QueryInterface ?s ?t] =>
      let qr := fresh "qr" in
      destruct (on_QueryInterface s t) as [qr [?|]];
      exec H;
      (destruct (decide (qr = 0)) as [->|?];
       [ rewrite decide_False in H by (intros ?; done)
       | rewrite decide_True in H by done; exec H; by run_leaf H ])
  end;
  exec H; unfold InitializeForBackup in H;
  [|exec H; by run_leaf H];
  protocol_run H.

Lemma NewVssSnapshot_run s fuel volume timeoutInSeconds w o w' :
  NewVssSnapshot s fuel volume timeoutInSeconds w = (o, w') →
  ∃ new,
    history w' = history w ++ new ∧
    creation fuel volume (timeout_millis s timeoutInSeconds) (GOARCH s) new o.
Proof.
  unfold NewVssSnapshot, isRunningOn64BitWindows.
  fold (timeout_millis s timeoutInSeconds).
  unfold loadIVssBackupComponentsConstructor, findVssProc.
  fold (constructor_name (GOARCH s)).
  intros H.
  destruct (decide (GOARCH s = "amd64")) as [H64|H64].
  - exec H. rewrite (bool_decide_eq_false_2 (GOARCH s ≠ "amd64")) in H
      by (intros ?; done).
    cbn [andb orb negb] in H. session_run H.
  - exec H.
    destruct (on_GetCurrentProcess s (tick w)) as [msg|];
      [exec H; by run_leaf H|].
    exec H. destruct (on_IsWow64Process s _) as [isWow64 [msg|]];
      [exec H; by run_leaf H|].
    exec H. rewrite (bool_decide_eq_true_2 (GOARCH s ≠ "amd64")) in H by done.
    destruct isWow64; cbn [andb orb negb] in H; [exec H; by run_leaf H|].
    destruct (decide (GOARCH s = "386")) as [H32|H32].
    2:{ rewrite bool_decide_eq_true_2 in H by done. exec H. by run_leaf H. }
    rewrite bool_decide_eq_false_2 in H by (intros ?; done).
    session_run H.
Qed.

(** ** What the runs of a creation have in common *)

Lemma last_further {A} (x y : A) l : last l = Some x → last (y :: l) = Some x.
Proof. destruct l; [done|]. by rewrite last_cons_cons. Qed.

Lemma last_after {A} (x : A) k l : last l = Some x → last (k ++ l) = Some x.
Proof.
  intros H. induction k as [|y k IH]; [done|]. by apply last_further.
Qed.

(** In a creation, a lookup of [IVSSAsync] that fails or gives nil is the
    last call. *)
Lemma ends_without_handle_cons ev l o u r i :
  ends_without_handle l o u r i → ends_without_handle (ev :: l) o u r i.
Proof.
  intros (before & ev' & st & -> & H). by exists (ev :: before), ev', st.
Qed.

Lemma ends_without_handle_app l' l o u r i :
  ends_without_handle l o u r i → ends_without_handle (l' ++ l) o u r i.
Proof.
  intros (before & ev' & st & -> & H). exists (l' ++ before), ev', st.
  by rewrite <-app_assoc.
Qed.

Lemma protocol_handle_missing fuel volume millis vss st id l o u r i :
  protocol_from fuel volume millis vss st id l o →
  EvQueryInterface u UIID_IVSS_ASYNC r i ∈ l → r ≠ 0 ∨ i = None →
  ends_without_handle l o u r i.
Proof.
  intros Hrun Hin Hq.
  induction Hrun as
    [ | ? ? ? ? IH | | ? ? ? ? IH | | ? ? ? ? IH
    | ? h ole waiting oa o Hw Hstop | ? ole waiting ? ? Hw ? IH
    | | | ? ? ? ? IH | | ? ? ? ? ? IH | | ? ? ? ? ? IH
    | ? h ole waiting oa o Hw Hstop | ? ole waiting ? ? Hw ? IH
    | ? h ole waiting oa o Hw Hstop | ? ole waiting ? ? Hw ? IH
    | | ].
  all: try (apply list_elem_of_singleton in Hin; discriminate Hin).
  all: apply elem_of_cons in Hin as [Hin|Hin]; [discriminate Hin|].
  all: try (apply ends_without_handle_cons, IH, Hin).
  all: try (destruct (awaited_handle_missing _ _ _ _ _ _ _ _ _ _ Hw Hin Hq)
              as (-> & -> & -> & ->);
            injection Hstop as <-;
            by eexists [], _, _).
  all: apply ends_without_handle_cons;
    apply elem_of_app in Hin as [Hin|Hin];
    [ by destruct (awaited_handle_missing _ _ _ _ _ _ _ _ _ _ Hw Hin Hq)
        as (_ & _ & _ & ?)
    | apply ends_without_handle_app, IH, Hin ].
Qed.

Lemma creation_handle_missing fuel volume millis goarch l o u r i :
  creation fuel volume millis goarch l o →
  EvQueryInterface u UIID_IVSS_ASYNC r i ∈ l → r ≠ 0 ∨ i = None →
  ends_without_handle l o u r i.
Proof.
  assert (∀ l o, session fuel volume millis goarch l o →
            EvQueryInterface u UIID_IVSS_ASYNC r i ∈ l →
            r ≠ 0 ∨ i = None → ends_without_handle l o u r i) as Hsession.
  { intros l0 o0 Hrun Hin Hq. destruct Hrun.
    all: repeat (apply elem_of_cons in Hin as [Hin|Hin];
                 [discriminate Hin|]).
    all: try by apply elem_of_nil in Hin.
    do 5 apply ends_without_handle_cons.
    by eapply protocol_handle_missing. }
  intros Hrun Hin Hq. destruct Hrun.
  all: repeat (apply elem_of_cons in Hin as [Hin|Hin]; [discriminate Hin|]).
  all: try by apply elem_of_nil in Hin.
  - by apply Hsession.
  - do 2 apply ends_without_handle_cons. by apply Hsession.
Qed.

Lemma protocol_nil_error fuel volume millis vss st id l snapshot name :
  protocol_from fuel volume millis vss st id l
    (Ret (snapshot, Some (ErrReturnedNil name))) →
  ∃ u r i, EvQueryInterface u UIID_IVSS_ASYNC r i ∈ l ∧ (r ≠ 0 ∨ i = None).
Proof.
  remember (Ret (snapshot, Some (ErrReturnedNil name))) as o eqn:Ho.
  intros Hrun.
  induction Hrun as
    [ | ? ? ? ? IH | | ? ? ? ? IH | | ? ? ? ? IH
    | ? h ole waiting oa o Hw Hstop | ? ole waiting ? ? Hw ? IH
    | | | ? ? ? ? IH | | ? ? ? ? ? IH | | ? ? ? ? ? IH
    | ? h ole waiting oa o Hw Hstop | ? ole waiting ? ? Hw ? IH
    | ? h ole waiting oa o Hw Hstop | ? ole waiting ? ? Hw ? IH
    | | ].
  all: try discriminate Ho.
  all: try (destruct (IH Ho) as (u & r & i & Hin & Hq); exists u, r, i;
            split; [|done];
            first [ by apply list_elem_of_further
                  | apply list_elem_of_further, elem_of_app; by right ]).
  all: subst o; destruct oa as [[e|]| |]; try discriminate Hstop;
    unfold stops, fails in Hstop; simplify_eq;
    destruct (awaited_nil_error _ _ _ _ _ _ _ Hw) as (u & r & i & Hin & Hq);
    exists u, r, i; split; [by apply list_elem_of_further|done].
Qed.

Lemma creation_nil_error fuel volume millis goarch l snapshot name :
  creation fuel volume millis goarch l
    (Ret (snapshot, Some (ErrReturnedNil name))) →
  ∃ u r i, EvQueryInterface u UIID_IVSS_ASYNC r i ∈ l ∧ (r ≠ 0 ∨ i = None).
Proof.
  assert (∀ l, session fuel volume millis goarch l
                 (Ret (snapshot, Some (ErrReturnedNil name))) →
            ∃ u r i, EvQueryInterface u UIID_IVSS_ASYNC r i ∈ l
                     ∧ (r ≠ 0 ∨ i = None)) as Hsession.
  { intros l0. inversion 1 as [| | | | | | | |? ? ? ? Hp]; subst.
    destruct (protocol_nil_error _ _ _ _ _ _ _ _ _ Hp)
      as (u' & r & i & Hin & Hq).
    exists u', r, i. split; [|done]. by do 5 apply list_elem_of_further. }
  inversion 1 as [| | |? ? ? Hs|? ? ? Hs]; subst.
  - by apply Hsession.
  - destruct (Hsession _ Hs) as (u & r & i & Hin & Hq).
    exists u, r, i. split; [|done]. by do 2 apply list_elem_of_further.
Qed.








(** ** The protocol of snapshot creation *)



(** ** Deleting a snapshot *)

Lemma history_cons t ev l :
  history (mkWorld t (ev :: l)) = history (mkWorld t l) ++ [ev].
Proof. unfold history. cbn. apply reverse_cons. Qed.

Lemma history_trace t w : history (mkWorld t (trace w)) = history w.
Proof. reflexivity. Qed.

(** The transcript of a world that has been computed. *)
Ltac hist_world :=
  rewrite ?history_after, ?history_cons, ?history_trace;
  repeat match goal with
         | Hx : history ?x = _ |- context [history ?x] => rewrite Hx
         end;
  repeat first [rewrite <-app_assoc | progress cbn [app]].

(** What [Delete] does, to the call. *)
Lemma Delete_run s fuel p w o w' :
  Delete s fuel p w = (o, w') →
  ∃ calls, history w' = history w ++ calls ∧ deletion fuel p calls o.
Proof.
  unfold Delete, vssFreeSnapshotProperties, findVssProc. intros H.
  exec H.
  destruct (on_DllLoad s (tick w)) as [msg|]; [exec H; by run_leaf H|].
  exec H.
  destruct (on_ProcFind s _ _) as [msg|]; [exec H; by run_leaf H|].
  exec H.
  destruct (iVssBackupComponents p) as [vss|] eqn:Hvss;
    [|exec H; by run_leaf H].
  unfold defer in H. async_run H.
  1,2: unfold DeleteSnapshots, Release in H; exec H;
    destruct (on_DeleteSnapshots s (tick wa)) as [[hd n] g]; exec H;
    pose proof (torn_down fuel p vss _ _ _ _ hd n g Hvss Hrun) as Hdel;
    destruct (decide (hd ≠ S_OK)) as [Hd|Hd];
    unfold ret, bind, syscall in H; cbn in H; injection H as <- <-;
    (eexists; split; [hist_world; reflexivity|]); exact Hdel.
  - unfold Release in H. exec H. injection H as <- <-.
    eexists. split; [hist_world; reflexivity|].
    by eapply completion_panics.
  - injection H as <- <-.
    eexists. split; [hist_world; reflexivity|].
    by eapply completion_goes_on.
Qed.

(** C4 (as amended): a run of [Delete] is a run as [deletion] lays it down.
    [Delete] first looks up [VssFreeSnapshotProperties] in [VssApi.dll].
    When the lookup fails, [Delete] returns the error of the lookup at once
    and makes no other call.  Otherwise it releases the properties record
    and, when the session handle is present, signals [BackupComplete]
    (waiting for it), calls [DeleteSnapshots] whatever the completion
    signal gave, and releases the session handle last, whatever either of
    them gave.  It returns the error of [DeleteSnapshots] when that call
    failed, else the error of the completion signal, if any.  When
    [BackupComplete] reports success without handing out an object,
    [Delete] panics, without calling [DeleteSnapshots], after releasing the
    session handle; when the wait for the completion does not end, [Delete]
    does not return and the handle is not released. *)
Theorem Delete_cleanup s fuel p w o w' :
  Delete s fuel p w = (o, w') →
  ∃ calls,
    history w' = history w ++ calls ∧
    deletion fuel p calls o ∧
    (∃ err, head calls = Some (EvDllLoad "VssApi.dll" err)) ∧
    (∀ vss,
       iVssBackupComponents p = Some vss →
       EvVssFreeSnapshotProperties (snapshotProperties p) ∈ calls →
       o ≠ OutOfFuel →
       last calls = Some (EvRelease vss)).
Proof.
  intros H. destruct (Delete_run _ _ _ _ _ _ H) as (calls & Hh & Hrun).
  exists calls. split; [done|]. split; [done|]. split.
  { destruct Hrun; by eexists. }
  intros vss Hvss Hfree Hend. destruct Hrun as [| | | | |]; simplify_eq.
  - apply list_elem_of_singleton in Hfree. discriminate Hfree.
  - apply elem_of_cons in Hfree as [Hfree|Hfree]; [discriminate Hfree|].
    apply list_elem_of_singleton in Hfree. discriminate Hfree.
  - do 4 apply last_further. apply last_after. done.
  - do 4 apply last_further. apply last_after. done.
Qed.


(** ** Waiting for an asynchronous step *)



(** C10 (as amended): [handleAsyncFunctionCall] tests the handle before any
    use: when the function that begins an asynchronous step returns [S_OK]
    and a nil handle, it returns the error that names the step and makes no
    call.  [handleAsyncReturnValue] gives that nil handle when the native
    call handed out an object on which the lookup of [IVSSAsync] fails or
    gives nil.  So in every creation such a lookup is the last call, and
    the creation returns the zero snapshot with the error that names the
    step the call before the lookup began; the error comes from nowhere
    else.  Likewise in [Delete], which goes on to delete the snapshot and
    to release the session handle. *)
Theorem nil_async_handle_is_reported s fuel :
  (∀ function name millis w w1,
     function w = (Ret (S_OK, None), w1) →
     handleAsyncFunctionCall s fuel function name millis w
       = (Ret (Some (ErrReturnedNil name)), w1)
     ∧ error_step (ErrReturnedNil name) = Some name)
  ∧ (∀ u w,
       (on_QueryInterface s (tick w)).1 ≠ 0
       ∨ (on_QueryInterface s (tick w)).2 = None →
       handleAsyncReturnValue s S_OK (Some u) w
         = (Ret (S_OK, None),
            after (EvQueryInterface u UIID_IVSS_ASYNC
                     (on_QueryInterface s (tick w)).1
                     (on_QueryInterface s (tick w)).2) w))
  ∧ (∀ volume timeoutInSeconds w o w' new,
       NewVssSnapshot s fuel volume timeoutInSeconds w = (o, w') →
       history w' = history w ++ new →
       (∀ u r i,
          EvQueryInterface u UIID_IVSS_ASYNC r i ∈ new → r ≠ 0 ∨ i = None →
          ∃ before ev st,
            new = before ++ [ev; EvQueryInterface u UIID_IVSS_ASYNC r i]
            ∧ step_of ev = Some (st, S_OK, true) ∧ is_async st = true
            ∧ object_of ev = Some u
            ∧ o = Ret (VssSnapshot_zero,
                       Some (ErrReturnedNil (step_name st))))
       ∧ (∀ snapshot name,
            o = Ret (snapshot, Some (ErrReturnedNil name)) →
            ∃ u r i,
              EvQueryInterface u UIID_IVSS_ASYNC r i ∈ new
              ∧ (r ≠ 0 ∨ i = None)))
  ∧ (∀ p w o w' calls,
       Delete s fuel p w = (o, w') →
       history w' = history w ++ calls →
       ∀ vss u r i,
         iVssBackupComponents p = Some vss →
         EvQueryInterface u UIID_IVSS_ASYNC r i ∈ calls →
         r ≠ 0 ∨ i = None →
         ∃ hd n g,
           calls =
             [ EvDllLoad "VssApi.dll" None;
               EvProcFind "VssFreeSnapshotProperties" None;
               EvVssFreeSnapshotProperties (snapshotProperties p);
               EvBackupComplete vss S_OK (Some u);
               EvQueryInterface u UIID_IVSS_ASYNC r i;
               EvDeleteSnapshots vss (snapshotID p) VSS_OBJECT_SNAPSHOT
                                 hd n g;
               EvRelease vss ]
           ∧ o = Ret (if decide (hd ≠ S_OK)
                      then Some (ErrDeleteSnapshot (Str hd) hd)
                      else Some (ErrReturnedNil "BackupComplete"))).
Proof.
  split; [|split; [|split]].
  - intros function name millis w w1 Hf.
    rewrite handleAsyncFunctionCall_eq, Hf.
    by rewrite decide_False by (intros ?; done).
  - intros u w Hq. rewrite handleAsyncReturnValue_eq. cbv zeta.
    rewrite decide_False by (intros ?; done).
    destruct Hq as [Hq|Hq].
    + by rewrite decide_True.
    + rewrite Hq. by case_decide.
  - intros volume timeoutInSeconds w o w' new H Hh.
    destruct (NewVssSnapshot_run _ _ _ _ _ _ _ H) as (new' & Hh' & Hrun).
    assert (new' = new) as ->.
    { rewrite Hh in Hh'. by apply app_inv_head in Hh'. }
    split.
    + intros u r i Hin Hq. by eapply creation_handle_missing.
    + intros snapshot name ->. by eapply creation_nil_error.
  - intros p w o w' calls H Hh vss u r i Hvss Hin Hq.
    destruct (Delete_run _ _ _ _ _ _ H) as (calls' & Hh' & Hrun).
    assert (calls' = calls) as ->.
    { rewrite Hh in Hh'. by apply app_inv_head in Hh'. }
    destruct Hrun as [| | |? ? ? ? ? ? ? ? ? Hw|? ? ? ? ? ? Hw|? ? ? ? ? Hw].
    all: repeat (apply elem_of_cons in Hin as [Hin|Hin];
                 [discriminate Hin|]).
    all: try by apply elem_of_nil in Hin.
    + apply elem_of_app in Hin as [Hin|Hin].
      2:{ repeat (apply elem_of_cons in Hin as [Hin|Hin];
                  [discriminate Hin|]). by apply elem_of_nil in Hin. }
      destruct (awaited_handle_missing _ _ _ _ _ _ _ _ _ _ Hw Hin Hq)
        as (-> & -> & -> & [= ->]).
      simplify_eq. by eexists _, _, _.
    + apply elem_of_app in Hin as [Hin|Hin].
      2:{ repeat (apply elem_of_cons in Hin as [Hin|Hin];
                  [discriminate Hin|]). by apply elem_of_nil in Hin. }
      by destruct (awaited_handle_missing _ _ _ _ _ _ _ _ _ _ Hw Hin Hq)
        as (_ & _ & _ & ?).
    + by destruct (awaited_handle_missing _ _ _ _ _ _ _ _ _ _ Hw Hin Hq)
        as (_ & _ & _ & ?).
Qed.

(** ** Runs in particular environments *)

Import Scenarios.

Ltac script_eval :=
  cbn [GOARCH on_GetCurrentProcess on_IsWow64Process on_DllLoad on_ProcFind
       on_CoInitialize on_CreateVssBackupComponents on_QueryInterface
       on_InitializeForBackup on_SetContext on_SetBackupState
       on_GatherWriterMetadata on_IsVolumeSupported on_StartSnapshotSet
       on_AddToSnapshotSet on_PrepareForBackup on_DoSnapshotSet
       on_GetSnapshotProperties on_BackupComplete on_DeleteSnapshots
       on_Wait on_QueryStatus on_Now
       cooperative never_finished wait_fails status_unreadable
       volume_unsupported context_refused no_async_interface teardown_fails
       no_library gather_gives_no_object with_GatherWriterMetadata with_Wait with_QueryStatus with_Now with_DllLoad
       with_QueryInterface with_SetContext with_IsVolumeSupported
       with_BackupComplete with_DeleteSnapshots
       after tick trace fst snd negb andb orb World_init].

Ltac decide_eval :=
  match goal with
  | |- context [decide ?P] =>
      first [ rewrite (decide_True (P := P)) by (vm_compute; congruence)
            | rewrite (decide_False (P := P)) by (vm_compute; congruence) ]
  | |- context [bool_decide ?P] =>
      first [ rewrite (bool_decide_eq_true_2 P) by (vm_compute; congruence)
            | rewrite (bool_decide_eq_false_2 P) by (vm_compute; congruence) ]
  end.

(** Running [NewVssSnapshot] in a given environment up to its first
    asynchronous step. *)
Ltac crun :=
  unfold NewVssSnapshot, isRunningOn64BitWindows,
    loadIVssBackupComponentsConstructor, findVssProc, queryInterface,
    InitializeForBackup, SetContext, SetBackupState;
  repeat first
    [ rewrite bind_bind | rewrite bind_ret | rewrite bind_syscall
    | rewrite bind_panic
    | progress cbn [deref]
    | progress script_eval
    | decide_eval ].

(** C8, at the failing inputs: when [Wait] fails for ever, and likewise when
    [QueryStatus] fails for ever, the wait never ends, whatever the budget,
    and so snapshot creation with a timeout of 120 seconds never returns. *)
Theorem wait_never_ends_when_status_cannot_be_read :
  (∀ fuel a millis w,
     (WaitUntilAsyncFinished wait_fails fuel (Some a) millis w).1 = OutOfFuel)
  ∧ (∀ fuel a millis w,
       (WaitUntilAsyncFinished status_unreadable fuel (Some a) millis w).1
         = OutOfFuel)
  ∧ (∀ fuel,
       (NewVssSnapshot wait_fails fuel "C:\" 120 World_init).1 = OutOfFuel)
  ∧ (∀ fuel,
       (NewVssSnapshot status_unreadable fuel "C:\" 120 World_init).1
         = OutOfFuel).
Proof.
  assert (∀ t, on_Wait wait_fails t ≠ S_OK
               ∨ (on_QueryStatus wait_fails (N.succ t)).1 ≠ S_OK) as H1.
  { intros t. left. vm_compute. congruence. }
  assert (∀ t, on_Wait status_unreadable t ≠ S_OK
               ∨ (on_QueryStatus status_unreadable (N.succ t)).1 ≠ S_OK)
    as H2.
  { intros t. right. vm_compute. congruence. }
  split; [|split; [|split]].
  - intros. rewrite WaitUntilAsyncFinished_eq.
    by apply wait_loop_never_returns.
  - intros. rewrite WaitUntilAsyncFinished_eq.
    by apply wait_loop_never_returns.
  - intros fuel. crun. apply bind_out_of_fuel.
    by eapply handleAsync_never_returns.
  - intros fuel. crun. apply bind_out_of_fuel.
    by eapply handleAsync_never_returns.
Qed.





(** [Delete_cleanup] when [BackupComplete] and [DeleteSnapshots] both fail. *)
Lemma Delete_cleanup_witness :
  Delete teardown_fails 5 snapshot_1 World_init
    = (teardown_fails_run.1, teardown_fails_run.2)
  ∧ ∃ calls,
      history teardown_fails_run.2 = history World_init ++ calls ∧
      deletion 5 snapshot_1 calls teardown_fails_run.1 ∧
      (∃ err, head calls = Some (EvDllLoad "VssApi.dll" err)) ∧
      (∀ vss,
         iVssBackupComponents snapshot_1 = Some vss →
         EvVssFreeSnapshotProperties (snapshotProperties snapshot_1)
           ∈ calls →
         teardown_fails_run.1 ≠ OutOfFuel →
         last calls = Some (EvRelease vss)).
Proof.
  split; [vm_compute; reflexivity|].
  apply (Delete_cleanup teardown_fails 5 snapshot_1 World_init).
  vm_compute. reflexivity.
Defined.

(** C4, as stated, fails.  When the completion signal fails and the
    deletion fails after it, [Delete] returns the error of the deletion,
    which is the last error, not the first.  When the library cannot be
    loaded, [Delete] returns at once: the session handle is present and is
    not released, and neither [BackupComplete] nor [DeleteSnapshots] is
    called. *)
Lemma Delete_returns_the_last_error_and_may_skip_the_cleanup :
  let r := Delete teardown_fails 5 snapshot_1 World_init in
  let r' := Delete no_library 5 snapshot_1 World_init in
  r.1 = Ret (Some (ErrDeleteSnapshot "VSS_E_OBJECT_NOT_FOUND"
                                     VSS_E_OBJECT_NOT_FOUND))
  ∧ drop 3 (history r.2)
      = [ EvBackupComplete 104 VSS_E_BAD_STATE None;
          EvDeleteSnapshots 104 (snapshotID snapshot_1) VSS_OBJECT_SNAPSHOT
                            VSS_E_OBJECT_NOT_FOUND 0 GUID_zero;
          EvRelease 104 ]
  ∧ iVssBackupComponents snapshot_1 = Some 104%nat
  ∧ r'.1 = Ret (Some (ErrNative "The specified module could not be found."))
  ∧ history r'.2
      = [ EvDllLoad "VssApi.dll"
                    (Some "The specified module could not be found.") ].
Proof. vm_compute. by repeat split. Qed.

(** [nil_async_handle_is_reported] where [GatherWriterMetadata] succeeds and
    the lookup of [IVSSAsync] fails: the step returns the error that names
    it, and so does the creation, whose last call is the lookup. *)
Lemma nil_async_handle_is_reported_witness :
  GatherWriterMetadata no_async_interface (Some 7%nat) before_gather
    = (Ret (S_OK, None), gather_without_interface)
  ∧ handleAsyncFunctionCall no_async_interface 5
      (GatherWriterMetadata no_async_interface (Some 7%nat))
      "GatherWriterMetadata" 120000 before_gather
      = (Ret (Some (ErrReturnedNil "GatherWriterMetadata")),
         gather_without_interface)
  ∧ history gather_without_interface
      = [ EvGatherWriterMetadata 7 S_OK (Some 2%nat);
          EvQueryInterface 2 UIID_IVSS_ASYNC 0x80004002 None ]
  ∧ ∃ before ev st,
      history (NewVssSnapshot no_async_interface 5 "C:\" 120 World_init).2
        = before ++ [ev; EvQueryInterface 2 UIID_IVSS_ASYNC 0x80004002 None]
      ∧ step_of ev = Some (st, S_OK, true) ∧ is_async st = true
      ∧ object_of ev = Some 2%nat
      ∧ (NewVssSnapshot no_async_interface 5 "C:\" 120 World_init).1
          = Ret (VssSnapshot_zero, Some (ErrReturnedNil (step_name st))).
Proof.
  destruct (nil_async_handle_is_reported no_async_interface 5)
    as (Hcall & _ & Hcreation & _).
  split; [vm_compute; reflexivity|]. split.
  { apply (Hcall (GatherWriterMetadata no_async_interface (Some 7%nat))
             "GatherWriterMetadata" 120000 before_gather
             gather_without_interface).
    vm_compute. reflexivity. }
  split; [vm_compute; reflexivity|].
  destruct (Hcreation "C:\" 120 World_init
              (NewVssSnapshot no_async_interface 5 "C:\" 120 World_init).1
              (NewVssSnapshot no_async_interface 5 "C:\" 120 World_init).2
              (history
                 (NewVssSnapshot no_async_interface 5 "C:\" 120 World_init).2))
    as [Hlookup _]; [by destruct (NewVssSnapshot _ _ _ _ _)|reflexivity|].
  apply (Hlookup 2%nat 0x80004002 None); [|by right].
  vm_compute. do 9 apply list_elem_of_further. apply list_elem_of_here.
Defined.

(** C10, as stated, fails: when the native call of an asynchronous step
    reports success without handing out an object (here
    [GatherWriterMetadata]), the lookup of [IVSSAsync] follows the nil
    pointer; the step panics, and with it the creation, whose last call is
    that native call. *)
Lemma creation_panics_when_success_comes_without_object :
  let r := NewVssSnapshot gather_gives_no_object 5 "C:\" 120 World_init in
  (handleAsyncFunctionCall gather_gives_no_object 5
     (GatherWriterMetadata gather_gives_no_object (Some 104%nat))
     "GatherWriterMetadata" 120000 World_init).1
    = Panic "invalid memory address or nil pointer dereference"
  ∧ r.1 = Panic "invalid memory address or nil pointer dereference"
  ∧ last (history r.2) = Some (EvGatherWriterMetadata 104 S_OK None).
Proof. vm_compute. by repeat split. Qed.

(** ** The path resolver *)

Section ResolverFacts.

Import Resolver.

Context {VssSnapshot W : Type}.
Variable NewVssSnapshot : string → Z → M W (VssSnapshot * option error).
Variable Delete : VssSnapshot → M W (option error).
Variable GetSnapshotDeviceObject : VssSnapshot → string.
Variable fixpath : string → string.
Variable Join : string → string → string.

#[local] Abbreviation snapshotPath_of :=
  (snapshotPath_of NewVssSnapshot GetSnapshotDeviceObject fixpath Join).
#[local] Abbreviation run_of :=
  (run_of NewVssSnapshot Delete GetSnapshotDeviceObject fixpath Join).
#[local] Abbreviation resolve :=
  (resolve NewVssSnapshot GetSnapshotDeviceObject fixpath Join).
#[local] Abbreviation fixPath := (fixPath fixpath).

Lemma snapshotPath_resolve r path st :
  snapshotPath_of r path st = resolve r path st.
Proof.
  destruct r;
    unfold Resolver.snapshotPath_of, snapshotPath, snapshotPath2,
      Resolver.resolve, Resolver.fixPath;
    (destruct (Strings.slice_to 2 _) as [volumeName|]; [|done]);
    unfold bind, lookup_snapshot, emit, store_snapshot, native, lift, ret;
    (destruct (snapshots st !! volumeName) as [snapshot|] eqn:Hc;
     [by rewrite Hc|]);
    cbn [platform snapshots messages];
    (destruct (NewVssSnapshot _ _ _) as [[[snapshot [e|]]| |] w'];
     try done);
    cbn [platform snapshots messages creating failed created];
    by rewrite ?Hc, ?lookup_insert_eq.
Qed.

Lemma slice_to_2_rest s v :
  Strings.slice_to 2 s = Some v → Strings.TrimPrefix s v = Strings.drop 2 s.
Proof.
  destruct s as [|a [|b s']];
    cbn [Strings.slice_to fmap option_fmap option_map]; try done.
  intros [= <-]. unfold Strings.TrimPrefix. cbn [Strings.HasPrefix].
  rewrite !decide_True by done. done.
Qed.

Lemma slice_to_2_short s :
  Strings.slice_to 2 s = None ↔ (String.length s < 2)%nat.
Proof. destruct s as [|a [|b s']]; cbn; split; (done || lia). Qed.

Lemma for_each_snapshots {A} (f : A → M (State VssSnapshot W) unit) l st :
  (∀ x st, snapshots (f x st).2 = snapshots st) →
  snapshots (for_each f l st).2 = snapshots st.
Proof.
  intros Hf. revert st. induction l as [|x l IH]; intros st; [done|].
  cbn [for_each]. rewrite bind_eq.
  specialize (Hf x st). destruct (f x st) as [[[]| |] st1]; cbn in *;
    try done. by rewrite IH.
Qed.

Lemma resolve_snapshots r path st v snapshot :
  snapshots st !! v = Some snapshot →
  snapshots (resolve r path st).2 !! v = Some snapshot.
Proof.
  intros Hv. unfold Resolver.resolve.
  destruct (Strings.slice_to 2 _) as [volumeName|]; [|done].
  destruct (snapshots st !! volumeName) eqn:Hc; [done|].
  cbv zeta. destruct (NewVssSnapshot _ _ _) as [[[snap [e|]]| |] w'];
    cbn; try done.
  rewrite lookup_insert_ne; [done|]. congruence.
Qed.

Lemma DeleteSnapshots_snapshots st :
  snapshots (DeleteSnapshots Delete st).2 = snapshots st.
Proof.
  unfold DeleteSnapshots. apply for_each_snapshots. intros kv st0.
  rewrite bind_eq. unfold native, lift.
  destruct (Delete _ _) as [[[e|]| |] w']; done.
Qed.

Lemma DeleteSnapshots2_snapshots st :
  snapshots (DeleteSnapshots2 Delete st).2 = snapshots st.
Proof.
  unfold DeleteSnapshots2. rewrite bind_eq. cbn [emit].
  rewrite for_each_snapshots; [done|]. intros kv st0.
  rewrite bind_eq. unfold native, lift.
  destruct (Delete _ _) as [[[e|]| |] w']; done.
Qed.

(** What one operation does, through [resolve]. *)
Lemma exec_resolve o st :
  exec NewVssSnapshot Delete GetSnapshotDeviceObject fixpath Join o st =
    match o with
    | OpDeleteSnapshots =>
        bind (DeleteSnapshots Delete) (λ _, ret None) st
    | OpOpen name =>
        bind (resolve Handlers name) (λ p, ret (Some (FS_Open p))) st
    | OpOpenFile name flag perm =>
        bind (resolve Handlers name)
             (λ p, ret (Some (FS_OpenFile p flag perm))) st
    | OpStat name =>
        bind (resolve Handlers name) (λ p, ret (Some (FS_Stat p))) st
    | OpLstat name =>
        bind (resolve Handlers name) (λ p, ret (Some (FS_Lstat p))) st
    end.
Proof.
  destruct o; cbn [exec]; unfold Open, OpenFile, Stat, Lstat;
    rewrite ?bind_bind, !bind_eq;
    rewrite <-?(snapshotPath_resolve Handlers); done.
Qed.

Lemma exec2_resolve o st :
  exec2 NewVssSnapshot Delete GetSnapshotDeviceObject fixpath Join o st =
    match o with
    | OpDeleteSnapshots =>
        bind (DeleteSnapshots2 Delete) (λ _, ret None) st
    | OpOpen name =>
        bind (resolve Printing name) (λ p, ret (Some (FS_Open p))) st
    | OpOpenFile name flag perm =>
        bind (resolve Printing name)
             (λ p, ret (Some (FS_OpenFile p flag perm))) st
    | OpStat name =>
        bind (resolve Printing name) (λ p, ret (Some (FS_Stat p))) st
    | OpLstat name =>
        bind (resolve Printing name) (λ p, ret (Some (FS_Lstat p))) st
    end.
Proof.
  destruct o; cbn [exec2]; rewrite !bind_eq;
    rewrite <-?(snapshotPath_resolve Printing); done.
Qed.

Lemma exec_snapshots o st v snapshot :
  snapshots st !! v = Some snapshot →
  snapshots (exec NewVssSnapshot Delete GetSnapshotDeviceObject fixpath
                  Join o st).2 !! v = Some snapshot
  ∧ snapshots (exec2 NewVssSnapshot Delete GetSnapshotDeviceObject fixpath
                     Join o st).2 !! v = Some snapshot.
Proof.
  intros Hv. rewrite exec_resolve, exec2_resolve.
  destruct o as [name|name flag perm|name|name|]; rewrite !bind_eq.
  1-4: pose proof (resolve_snapshots Handlers name st v snapshot Hv);
       pose proof (resolve_snapshots Printing name st v snapshot Hv);
       destruct (resolve Handlers name st) as [[]];
       destruct (resolve Printing name st) as [[]]; done.
  pose proof (DeleteSnapshots_snapshots st) as H3.
  pose proof (DeleteSnapshots2_snapshots st) as H4.
  destruct (DeleteSnapshots _ _) as [[]];
    destruct (DeleteSnapshots2 _ _) as [[]]; cbn in *; by rewrite ?H3, ?H4.
Qed.

Lemma run_snapshots r ops st v snapshot :
  snapshots st !! v = Some snapshot →
  snapshots (run_of r ops st).2 !! v = Some snapshot.
Proof.
  revert st. induction ops as [|o ops IH]; intros st Hv.
  { by destruct r. }
  destruct (exec_snapshots o st v snapshot Hv) as [H1 H2].
  destruct r; cbn [Resolver.run_of run run2] in *; rewrite bind_eq.
  - destruct (exec _ _ _ _ _ o st) as [[c| |] st1]; try done. cbn in H1.
    rewrite bind_eq. specialize (IH st1 H1).
    by destruct (run _ _ _ _ _ ops st1) as [[]].
  - destruct (exec2 _ _ _ _ _ o st) as [[c| |] st1]; try done. cbn in H2.
    rewrite bind_eq. specialize (IH st1 H2).
    by destruct (run2 _ _ _ _ _ ops st1) as [[]].
Qed.

(** C1: for a path whose volume has a snapshot in the cache,
    [snapshotPath] returns the join of the root of that snapshot with the
    part of the normalized path after the volume name (its first two
    bytes), and changes nothing.  The same holds for the snapshot that the
    call itself creates and caches. *)
Theorem snapshotPath_joins_root_and_rest r path volumeName st :
  Strings.slice_to 2 (fixPath path) = Some volumeName →
  Strings.TrimPrefix (fixPath path) volumeName
    = Strings.drop 2 (fixPath path)
  ∧ (∀ snapshot,
       snapshots st !! volumeName = Some snapshot →
       snapshotPath_of r path st =
         (Ret (Join (GetSnapshotDeviceObject snapshot)
                    (Strings.drop 2 (fixPath path))), st))
  ∧ (∀ snapshot w',
       snapshots st !! volumeName = None →
       NewVssSnapshot (volumeName +:+ "\") 120 (platform st)
         = (Ret (snapshot, None), w') →
       (snapshotPath_of r path st).1 =
         Ret (Join (GetSnapshotDeviceObject snapshot)
                   (Strings.drop 2 (fixPath path)))
       ∧ snapshots (snapshotPath_of r path st).2
           = <[volumeName := snapshot]> (snapshots st)).
Proof.
  intros Hv. pose proof (slice_to_2_rest _ _ Hv) as Hrest.
  split; [done|]. rewrite snapshotPath_resolve. unfold Resolver.resolve.
  fold fixPath. rewrite Hv, Hrest. split.
  - by intros snapshot ->.
  - intros snapshot w' -> Hnew. cbv zeta. by rewrite Hnew.
Qed.

(** C5: an entry of the cache is never replaced, whatever operations
    follow; and resolving a path on a volume that has an entry changes
    nothing at all: no creation is attempted, no message is sent. *)
Theorem cache_entries_are_never_replaced r ops st v snapshot :
  snapshots st !! v = Some snapshot →
  snapshots (run_of r ops st).2 !! v = Some snapshot
  ∧ (∀ path, Strings.slice_to 2 (fixPath path) = Some v →
             (snapshotPath_of r path st).2 = st).
Proof.
  intros Hv. split; [by apply run_snapshots|].
  intros path Hp. rewrite snapshotPath_resolve. unfold Resolver.resolve.
  fold fixPath. by rewrite Hp, Hv.
Qed.

(** C6: when the volume of a path has no entry and the creation of its
    snapshot fails, [snapshotPath] returns the path it was given, reports
    the error, and leaves the cache as it was; so the volume still has no
    entry, and the next call for a path on it attempts the creation
    again. *)
Theorem snapshotPath_falls_back r path volumeName st snapshot e w' :
  Strings.slice_to 2 (fixPath path) = Some volumeName →
  snapshots st !! volumeName = None →
  NewVssSnapshot (volumeName +:+ "\") 120 (platform st)
    = (Ret (snapshot, Some e), w') →
  let st' := mkState (snapshots st) w'
               (failed r volumeName e
                  :: creating r (volumeName +:+ "\") :: messages st) in
  snapshotPath_of r path st = (Ret path, st')
  ∧ snapshots st' !! volumeName = None
  ∧ ∀ path',
      Strings.slice_to 2 (fixPath path') = Some volumeName →
      platform (snapshotPath_of r path' st').2
        = (NewVssSnapshot (volumeName +:+ "\") 120 w').2
      ∧ ∃ later,
          messages (snapshotPath_of r path' st').2
            = later ++ creating r (volumeName +:+ "\") :: messages st'.
Proof.
  intros Hv Hc Hnew st'. subst st'. split; [|split; [done|]].
  { rewrite snapshotPath_resolve. unfold Resolver.resolve. fold fixPath.
    rewrite Hv, Hc. cbv zeta. by rewrite Hnew. }
  intros path' Hv'. rewrite snapshotPath_resolve. unfold Resolver.resolve.
  fold fixPath. rewrite Hv'. cbn [snapshots]. rewrite Hc. cbv zeta.
  cbn [platform messages].
  destruct (NewVssSnapshot _ _ w') as [[[snapshot' [e'|]]| |] w''];
    cbn [fst snd platform messages]; (split; [done|]).
  - by eexists [_].
  - by eexists [_].
  - by exists [].
  - by exists [].
Qed.

(** A path whose normalized form has fewer than two bytes makes
    [snapshotPath] panic. *)
Lemma short_path_panics r path st :
  (String.length (fixPath path) < 2)%nat →
  snapshotPath_of r path st = (Panic "slice bounds out of range", st).
Proof.
  intros Hs%slice_to_2_short. rewrite snapshotPath_resolve.
  unfold Resolver.resolve. fold fixPath. by rewrite Hs.
Qed.

End ResolverFacts.

(** ** The resolver on platforms other than windows *)

Section OffWindows.

Import Resolver.

Context {W : Type}.
Variable fixpath : string → string.
Variable Join : string → string → string.

#[local] Abbreviation snapshotPath_dummy :=
  (snapshotPath_of (W := W) VssDummy.NewVssSnapshot
                   VssDummy.GetSnapshotDeviceObject fixpath Join).
#[local] Abbreviation run_dummy :=
  (run_of (W := W) VssDummy.NewVssSnapshot VssDummy.Delete
          VssDummy.GetSnapshotDeviceObject fixpath Join).
#[local] Abbreviation resolve_dummy :=
  (resolve (W := W) VssDummy.NewVssSnapshot
           VssDummy.GetSnapshotDeviceObject fixpath Join).

Lemma resolve_dummy_empty r path st :
  snapshots st = ∅ →
  snapshots (resolve_dummy r path st).2 = ∅
  ∧ (resolve_dummy r path st).1 =
      if decide (String.length (fixPath fixpath path) < 2)%nat
      then Panic "slice bounds out of range" else Ret path.
Proof.
  intros Hst. unfold Resolver.resolve.
  destruct (Strings.slice_to 2 _) as [volumeName|] eqn:Hv.
  - rewrite Hst, lookup_empty. cbn. split; [done|].
    rewrite decide_False; [done|]. intros Hs%slice_to_2_short. congruence.
  - split; [done|]. apply slice_to_2_short in Hv. by rewrite decide_True.
Qed.

Lemma run_dummy_empty r ops st :
  snapshots st = ∅ →
  snapshots (run_dummy r ops st).2 = ∅
  ∧ ∀ cs, (run_dummy r ops st).1 = Ret cs → cs = passthrough <$> ops.
Proof.
  revert st. induction ops as [|o ops IH]; intros st Hst.
  { destruct r; cbn; split; [done| |done|]; by intros cs [= <-]. }
  assert (∀ (k : string → option fs_call) name,
            let res := bind (resolve_dummy r name) (λ p, ret (k p)) st in
            snapshots res.2 = ∅ ∧ ∀ c, res.1 = Ret c → c = k name)
    as Hread.
  { intros k name. cbv zeta. rewrite bind_eq.
    destruct (resolve_dummy_empty r name st Hst) as [H1 H2].
    destruct (resolve_dummy r name st) as [[p| |] st1]; cbn in *;
      (split; [done|]); try done.
    intros c [= <-]. by case_decide; simplify_eq. }
  assert (let res := (if r is Handlers
                      then exec VssDummy.NewVssSnapshot VssDummy.Delete
                             VssDummy.GetSnapshotDeviceObject fixpath Join
                      else exec2 VssDummy.NewVssSnapshot VssDummy.Delete
                             VssDummy.GetSnapshotDeviceObject fixpath Join)
                       o st in
          snapshots res.2 = ∅ ∧ ∀ c, res.1 = Ret c → c = passthrough o)
    as [Hs Hc].
  { cbv zeta.
    destruct r; rewrite ?exec_resolve, ?exec2_resolve;
      destruct o as [name|name flag perm|name|name|];
      try apply (Hread (λ p, Some (FS_Open p)));
      try apply (Hread (λ p, Some (FS_OpenFile p flag perm)));
      try apply (Hread (λ p, Some (FS_Stat p)));
      try apply (Hread (λ p, Some (FS_Lstat p)));
      unfold DeleteSnapshots, DeleteSnapshots2; rewrite ?bind_eq;
      cbn [emit snapshots]; rewrite Hst, map_to_list_empty; cbn;
      (split; [done|]); by intros c [= <-]. }
  destruct r; cbn [Resolver.run_of run run2] in *; rewrite bind_eq.
  - destruct (exec _ _ _ _ _ o st) as [[c| |] st1]; cbn in Hs, Hc;
      try done.
    rewrite bind_eq. destruct (IH st1 Hs) as [H1 H2].
    destruct (run _ _ _ _ _ ops st1) as [[cs'| |] st2]; cbn in *;
      (split; [done|]); try done.
    intros cs [= <-]. by rewrite (Hc c eq_refl), (H2 cs' eq_refl).
  - destruct (exec2 _ _ _ _ _ o st) as [[c| |] st1]; cbn in Hs, Hc;
      try done.
    rewrite bind_eq. destruct (IH st1 Hs) as [H1 H2].
    destruct (run2 _ _ _ _ _ ops st1) as [[cs'| |] st2]; cbn in *;
      (split; [done|]); try done.
    intros cs [= <-]. by rewrite (Hc c eq_refl), (H2 cs' eq_refl).
Qed.

(** Off windows, a sequence of operations whose paths all have two
    normalized bytes or more returns, hands on the paths it was given, and
    does not touch the platform. *)
Lemma run_dummy_passthrough r ops st :
  snapshots st = ∅ →
  Forall (λ o, ∀ name, Reading.op_path o = Some name →
                       (2 ≤ String.length (fixPath fixpath name))%nat) ops →
  (run_dummy r ops st).1 = Ret (passthrough <$> ops)
  ∧ platform (run_dummy r ops st).2 = platform st.
Proof.
  intros Hst Hops. revert st Hst.
  induction Hops as [|o ops Ho _ IH]; intros st Hst.
  { by destruct r. }
  assert (∀ (k : string → option fs_call) name,
            Reading.op_path o = Some name →
            ∃ st1, bind (resolve_dummy r name) (λ p, ret (k p)) st
                     = (Ret (k name), st1)
                   ∧ snapshots st1 = ∅ ∧ platform st1 = platform st)
    as Hread.
  { intros k name Hname. rewrite bind_eq. unfold Resolver.resolve.
    destruct (Strings.slice_to 2 _) as [volumeName|] eqn:Hv.
    2:{ apply slice_to_2_short in Hv. specialize (Ho name Hname). lia. }
    rewrite Hst, lookup_empty. cbn. eexists. split; [done|]. done. }
  assert (∃ st1,
            (if r is Handlers
             then exec VssDummy.NewVssSnapshot VssDummy.Delete
                    VssDummy.GetSnapshotDeviceObject fixpath Join
             else exec2 VssDummy.NewVssSnapshot VssDummy.Delete
                    VssDummy.GetSnapshotDeviceObject fixpath Join) o st
              = (Ret (passthrough o), st1)
            ∧ snapshots st1 = ∅ ∧ platform st1 = platform st)
    as (st1 & Hexec & Hs1 & Hp1).
  { destruct r; rewrite ?exec_resolve, ?exec2_resolve;
      destruct o as [name|name flag perm|name|name|];
      try (by apply (Hread (λ p, Some (FS_Open p)) name));
      try (by apply (Hread (λ p, Some (FS_OpenFile p flag perm)) name));
      try (by apply (Hread (λ p, Some (FS_Stat p)) name));
      try (by apply (Hread (λ p, Some (FS_Lstat p)) name));
      unfold DeleteSnapshots, DeleteSnapshots2; rewrite ?bind_eq;
      cbn [emit snapshots]; rewrite Hst, map_to_list_empty; cbn;
      by eexists. }
  destruct (IH st1 Hs1) as [H1 H2].
  destruct r; cbn [Resolver.run_of run run2] in *; rewrite bind_eq, Hexec,
    bind_eq.
  - destruct (run _ _ _ _ _ ops st1) as [o1 st2]. cbn [fst snd] in *.
    subst o1. cbn. by rewrite H2.
  - destruct (run2 _ _ _ _ _ ops st1) as [o1 st2]. cbn [fst snd] in *.
    subst o1. cbn. by rewrite H2.
Qed.

End OffWindows.

(** C9, at the failing inputs: off windows, every creation call returns the
    one error value at once, whatever the volume and the timeout, and
    changes nothing.  So the cache of a resolver stays empty whatever
    operations are made, and a sequence of operations whose paths all have
    two normalized bytes or more returns, hands every path on to the
    wrapped file system as it was given, and leaves the platform alone.
    But [snapshotPath] panics for a path whose normalized form has fewer
    than two bytes: where [fixpath] returns its argument, as it does off
    windows, [Stat] of the root directory and [Open] of the current
    directory panic, and with them every sequence of operations that
    reads one of them. *)
Theorem passthrough_off_windows_panics_on_a_short_path :
  (∀ (W : Type) volume timeoutInSeconds (w : W),
     VssDummy.NewVssSnapshot volume timeoutInSeconds w
       = (Ret (VssDummy.mkVssSnapshot, Some ErrOnlyOnWindows), w))
  ∧ (∀ (W : Type) fixpath Join r (w : W) ops,
       let run :=
         Resolver.run_of VssDummy.NewVssSnapshot VssDummy.Delete
           VssDummy.GetSnapshotDeviceObject fixpath Join r in
       let snapshotPath :=
         Resolver.snapshotPath_of VssDummy.NewVssSnapshot
           VssDummy.GetSnapshotDeviceObject fixpath Join r in
       Resolver.snapshots (run ops (Resolver.NewLocalVss w)).2 = ∅
       ∧ (∀ cs, (run ops (Resolver.NewLocalVss w)).1 = Ret cs →
                cs = Resolver.passthrough <$> ops)
       ∧ (Forall (λ o, ∀ name,
                    Reading.op_path o = Some name →
                    (2 ≤ String.length (Resolver.fixPath fixpath name))%nat)
                 ops →
          (run ops (Resolver.NewLocalVss w)).1
            = Ret (Resolver.passthrough <$> ops)
          ∧ Resolver.platform (run ops (Resolver.NewLocalVss w)).2 = w)
       ∧ (∀ path,
            (snapshotPath path (run ops (Resolver.NewLocalVss w)).2).1 =
              if decide (String.length (Resolver.fixPath fixpath path) < 2)%nat
              then Panic "slice bounds out of range" else Ret path))
  ∧ let run r :=
      Resolver.run_of (W := unit) VssDummy.NewVssSnapshot VssDummy.Delete
        VssDummy.GetSnapshotDeviceObject fixpath_unix Join_rooted r in
    ∀ r,
      (run r [Resolver.OpStat "/"] (Resolver.NewLocalVss ())).1
        = Panic "slice bounds out of range"
      ∧ (run r [Resolver.OpOpen "."] (Resolver.NewLocalVss ())).1
          = Panic "slice bounds out of range"
      ∧ (run r [Resolver.OpLstat "/etc/hosts"; Resolver.OpStat "/"]
             (Resolver.NewLocalVss ())).1
          = Panic "slice bounds out of range".
Proof.
  split; [done|]. split.
  - intros W fixpath Join r w ops run snapshotPath. subst run snapshotPath.
    destruct (run_dummy_empty fixpath Join r ops (Resolver.NewLocalVss w)
                eq_refl) as [H1 H2].
    split; [done|]. split; [done|]. split.
    + intros Hops.
      by apply (run_dummy_passthrough fixpath Join r ops
                  (Resolver.NewLocalVss w) eq_refl).
    + intros path. rewrite snapshotPath_resolve.
      by destruct (resolve_dummy_empty fixpath Join r path _ H1).
  - intros run r. by destruct r.
Qed.

(** ** The resolver in particular environments *)

(** [snapshotPath_joins_root_and_rest] on windows, in a cooperative
    environment, for the path [C:\data\file.txt]: with the snapshot of [C:]
    in the cache, and with an empty cache, when the call creates it. *)
Lemma snapshotPath_joins_root_and_rest_witness :
  let snapshotPath :=
    Resolver.snapshotPath_of (NewVssSnapshot cooperative 5)
      GetSnapshotDeviceObject fixpath_absolute Join_rooted
      Resolver.Handlers in
  Strings.slice_to 2 (Resolver.fixPath fixpath_absolute "C:\data\file.txt")
    = Some "C:"
  ∧ snapshotPath "C:\data\file.txt" cached_C
      = (Ret "\\?\GLOBALROOT\Device\HarddiskVolumeShadowCopy1\data\file.txt",
         cached_C)
  ∧ (snapshotPath "C:\data\file.txt" (Resolver.NewLocalVss World_init)).1
      = Ret "\\?\GLOBALROOT\Device\HarddiskVolumeShadowCopy1\data\file.txt"
  ∧ Resolver.snapshots
      (snapshotPath "C:\data\file.txt" (Resolver.NewLocalVss World_init)).2
      = {[ "C:" := snapshot_1 ]}.
Proof.
  cbv zeta. split; [reflexivity|].
  destruct (snapshotPath_joins_root_and_rest (NewVssSnapshot cooperative 5)
              GetSnapshotDeviceObject fixpath_absolute Join_rooted
              Resolver.Handlers "C:\data\file.txt" "C:" cached_C eq_refl)
    as (_ & Hcached & _).
  destruct (snapshotPath_joins_root_and_rest (NewVssSnapshot cooperative 5)
              GetSnapshotDeviceObject fixpath_absolute Join_rooted
              Resolver.Handlers "C:\data\file.txt" "C:"
              (Resolver.NewLocalVss World_init) eq_refl)
    as (_ & _ & Hcreated).
  split; [apply (Hcached snapshot_1); reflexivity|].
  destruct (Hcreated snapshot_1
              (NewVssSnapshot cooperative 5 "C:\" 120 World_init).2)
    as [H1 H2]; [reflexivity|vm_compute; reflexivity|].
  split; [exact H1|]. rewrite H2. reflexivity.
Defined.

(** [cache_entries_are_never_replaced] on windows: the snapshot of [C:]
    stays while a snapshot of [D:] is created and all are deleted. *)
Lemma cache_entries_are_never_replaced_witness :
  Resolver.snapshots cached_C !! "C:" = Some snapshot_1
  ∧ Resolver.snapshots
      (Resolver.run_of (NewVssSnapshot cooperative 5) (Delete cooperative 5)
         GetSnapshotDeviceObject fixpath_absolute Join_rooted
         Resolver.Handlers some_operations cached_C).2 !! "C:"
      = Some snapshot_1
  ∧ (Resolver.snapshotPath_of (NewVssSnapshot cooperative 5)
       GetSnapshotDeviceObject fixpath_absolute Join_rooted
       Resolver.Handlers "C:\c.txt" cached_C).2 = cached_C.
Proof.
  split; [reflexivity|].
  destruct (cache_entries_are_never_replaced (NewVssSnapshot cooperative 5)
              (Delete cooperative 5) GetSnapshotDeviceObject fixpath_absolute
              Join_rooted Resolver.Handlers some_operations cached_C "C:"
              snapshot_1 eq_refl) as [H1 H2].
  split; [exact H1|]. apply H2. reflexivity.
Defined.

(** [snapshotPath_falls_back] on windows for a volume that cannot be
    snapshotted: the path comes back as it was given, the volume gets no
    entry, and the next call tries again. *)
Lemma snapshotPath_falls_back_witness :
  let snapshotPath :=
    Resolver.snapshotPath_of (NewVssSnapshot volume_unsupported 5)
      GetSnapshotDeviceObject fixpath_absolute Join_rooted
      Resolver.Handlers in
  let r := snapshotPath "D:\data\file.txt" (Resolver.NewLocalVss World_init) in
  Strings.slice_to 2 (Resolver.fixPath fixpath_absolute "D:\data\file.txt")
    = Some "D:"
  ∧ (NewVssSnapshot volume_unsupported 5 "D:\" 120 World_init).1
      = Ret (VssSnapshot_zero, Some (ErrNotSupported "D:\"))
  ∧ r.1 = Ret "D:\data\file.txt"
  ∧ Resolver.snapshots r.2 !! "D:" = None
  ∧ Resolver.messages r.2
      = [ Resolver.failed Resolver.Handlers "D:" (ErrNotSupported "D:\");
          Resolver.creating Resolver.Handlers "D:\" ]
  ∧ ∃ later,
      Resolver.messages (snapshotPath "D:\other.txt" r.2).2
        = later ++ Resolver.creating Resolver.Handlers "D:\"
            :: Resolver.messages r.2.
Proof.
  cbv zeta. split; [reflexivity|]. split; [vm_compute; reflexivity|].
  destruct (snapshotPath_falls_back (NewVssSnapshot volume_unsupported 5)
              GetSnapshotDeviceObject fixpath_absolute Join_rooted
              Resolver.Handlers "D:\data\file.txt" "D:"
              (Resolver.NewLocalVss World_init) VssSnapshot_zero
              (ErrNotSupported "D:\")
              (NewVssSnapshot volume_unsupported 5 "D:\" 120 World_init).2)
    as (H1 & H2 & H3); [reflexivity|reflexivity|vm_compute; reflexivity|].
  rewrite H1. cbn [fst snd]. split; [reflexivity|]. split; [exact H2|].
  split; [reflexivity|].
  destruct (H3 "D:\other.txt") as [_ H4]; [reflexivity|]. exact H4.
Defined.

(** C7, at the failing inputs: whatever the platform, a path whose
    normalized form has fewer than two bytes makes [snapshotPath] panic, in
    both revisions and in every state of the resolver.  On a build for a
    platform other than windows, where [fixpath] returns its argument, the
    paths [""] and ["a"] are such paths, and [Open], [Stat], [Lstat] and
    every sequence of operations that reads one of them panic with it. *)
Theorem snapshotPath_panics_on_a_short_path :
  (∀ (VssSnapshot W : Type) NewVssSnapshot GetSnapshotDeviceObject fixpath
     Join r path (st : Resolver.State VssSnapshot W),
     (String.length (Resolver.fixPath fixpath path) < 2)%nat →
     Resolver.snapshotPath_of NewVssSnapshot GetSnapshotDeviceObject fixpath
       Join r path st
       = (Panic "slice bounds out of range", st))
  ∧ let snapshotPath r :=
      Resolver.snapshotPath_of (W := unit) VssDummy.NewVssSnapshot
        VssDummy.GetSnapshotDeviceObject fixpath_unix Join_rooted r in
    let run r :=
      Resolver.run_of (W := unit) VssDummy.NewVssSnapshot VssDummy.Delete
        VssDummy.GetSnapshotDeviceObject fixpath_unix Join_rooted r in
    ∀ r,
      (snapshotPath r "" (Resolver.NewLocalVss ())).1
        = Panic "slice bounds out of range"
      ∧ (snapshotPath r "a" (Resolver.NewLocalVss ())).1
          = Panic "slice bounds out of range"
      ∧ (run r [Resolver.OpOpen ""] (Resolver.NewLocalVss ())).1
          = Panic "slice bounds out of range"
      ∧ (run r [Resolver.OpStat "/etc/hosts"; Resolver.OpLstat ""]
             (Resolver.NewLocalVss ())).1
          = Panic "slice bounds out of range".
Proof.
  split.
  - intros. by apply short_path_panics.
  - intros snapshotPath run r. by destruct r.
Qed.

(** * Further properties of the code *)

Import Reading Builds.

(** ** The names of the status codes *)

Lemma Str_lookup h :
  h ∈ hresult_constants ∨ hresultToString !! h = None.
Proof.
  destruct (hresultToString !! h) as [name|] eqn:E; [left|by right].
  unfold hresultToString in E. apply elem_of_list_to_map_2 in E.
  match type of E with
  | _ ∈ ?l =>
      assert (Forall (λ kv : Z * string, kv.1 ∈ hresult_constants) l) as Hall
  end.
  { apply (bool_decide_unpack _). by vm_compute. }
  rewrite Forall_forall in Hall. apply (Hall _ E).
Qed.

(** X1: [Str] gives ["UNKNOWN"] for the codes that are not among the constants
    of the file, and for no other; and it tells the constants apart: no
    two of them have the same name, so the name in an error message
    determines the code. *)
Theorem Str_names_the_known_codes :
  (∀ h, Str h = "UNKNOWN" ↔ h ∉ hresult_constants)
  ∧ (∀ h1 h2, h1 ∈ hresult_constants → Str h1 = Str h2 → h1 = h2).
Proof.
  assert (Forall (λ h, Str h ≠ "UNKNOWN") hresult_constants) as Hknown.
  { apply (bool_decide_unpack _). by vm_compute. }
  rewrite Forall_forall in Hknown.
  assert (∀ h, h ∉ hresult_constants → Str h = "UNKNOWN") as Hunknown.
  { intros h Hh. destruct (Str_lookup h) as [?|E]; [done|].
    unfold Str. by rewrite E. }
  split.
  - intros h. split.
    + intros E Hh. by apply (Hknown h).
    + apply Hunknown.
  - intros h1 h2 H1 E.
    destruct (Str_lookup h2) as [H2|H2].
    + assert (Forall (λ h1, Forall (λ h2, Str h1 = Str h2 → h1 = h2)
                               hresult_constants) hresult_constants) as Hinj.
      { apply (bool_decide_unpack _). by vm_compute. }
      rewrite Forall_forall in Hinj. specialize (Hinj h1 H1).
      rewrite Forall_forall in Hinj. by apply Hinj.
    + exfalso. apply (Hknown h1 H1). rewrite E. unfold Str. by rewrite H2.
Qed.

(** ** The budget of a wait *)

(** X2: [timeoutInMillis] of [NewVssSnapshot] is the number of seconds times
    1000 as long as that is below 2^32.  On a build for 386, where [uint]
    has 32 bits, the product wraps around at 2^32.  On a build for amd64,
    where it has 64 bits, a product of 2^63 or more becomes a negative
    budget. *)
Theorem timeout_in_milliseconds s secs :
  (0 ≤ secs * 1000 < 2 ^ 32 → timeout_millis s secs = secs * 1000)
  ∧ (GOARCH s = "386" →
       timeout_millis s secs = (secs * 1000) mod 2 ^ 32)
  ∧ (GOARCH s = "amd64" → 2 ^ 63 ≤ secs * 1000 < 2 ^ 64 →
       timeout_millis s secs = secs * 1000 - 2 ^ 64
       ∧ timeout_millis s secs < 0).
Proof.
  unfold timeout_millis, uint_bits, int64. split; [|split].
  - intros H. case_decide.
    + rewrite (Z.mod_small (secs * 1000)) by lia.
      rewrite Z.mod_small; lia.
    + rewrite (Z.mod_small (secs * 1000)) by lia.
      rewrite Z.mod_small; lia.
  - intros ->. rewrite decide_True by done.
    pose proof (Z.mod_pos_bound (secs * 1000) (2 ^ 32)).
    rewrite (Z.mod_small (_ + _)); lia.
  - intros H64 Hrange. rewrite H64. rewrite decide_False by done.
    rewrite (Z.mod_small (secs * 1000)) by lia.
    replace (secs * 1000 + 2 ^ 63)
      with (secs * 1000 - 2 ^ 63 + 1 * 2 ^ 64) by lia.
    rewrite Z.mod_add by lia. rewrite Z.mod_small by lia. lia.
Qed.

(** ** The architecture of the build

    [NewVssSnapshot] goes on to load the library only when the build is for
    amd64, or for 386 on a machine that is not 64-bit windows. *)


(** X4: A build for 386 on 64-bit windows: creation returns the error about
    the architecture after the two calls that ask about the process. *)
Theorem NewVssSnapshot_refuses_386_on_64bit s fuel volume secs w :
  GOARCH s = "386" →
  on_GetCurrentProcess s (tick w) = None →
  on_IsWow64Process s (N.succ (tick w)) = (true, None) →
  NewVssSnapshot s fuel volume secs w
    = (Ret (VssSnapshot_zero, Some (ErrArchitecture "386")),
       after (EvIsWow64Process true None) (after (EvGetCurrentProcess None) w)).
Proof.
  intros H32 Hp Hw. unfold NewVssSnapshot, isRunningOn64BitWindows.
  rewrite H32. rewrite decide_False by done. go. rewrite Hp. go.
  rewrite Hw. go. by rewrite bool_decide_eq_true_2 by done.
Qed.

(** ** What a wait has done *)

(** X5: A wait reads the clock once and then goes through rounds, each a
    [Wait(100)] that failed, or a [Wait(100)] and a [QueryStatus] that
    failed, or both and a reading of the clock that did not exceed the
    budget.  It returns [nil] only right after a [QueryStatus] that
    succeeded and reported the operation finished, and the timeout only
    right after a reading of the clock that exceeded the budget; it makes no
    other call and does not panic.  Fewer rounds than units of fuel come
    before a return; a wait that is out of fuel has gone through as many
    rounds as it had fuel. *)
Theorem WaitUntilAsyncFinished_rounds s fuel a millis w o w' :
  WaitUntilAsyncFinished s fuel (Some a) millis w = (o, w') →
  ∃ start rounds final,
    history w' = history w ++ EvNow start :: concat rounds ++ final ∧
    Forall (round a start millis) rounds ∧
    match o with
    | Ret err => last_round a start millis final err
                 ∧ (length rounds < fuel)%nat
    | Panic _ => False
    | OutOfFuel => final = [] ∧ length rounds = fuel
    end.
Proof.
  rewrite WaitUntilAsyncFinished_eq. intros H.
  destruct (wait_loop_rounds s fuel a (on_Now s (tick w)) millis
              (after (EvNow (on_Now s (tick w))) w))
    as (rounds & final & Hh & Hrs & Ho).
  rewrite H in Hh, Ho. cbn [fst snd] in Hh, Ho.
  exists (on_Now s (tick w)), rounds, final. split; [|done].
  rewrite Hh, history_after. by rewrite <-app_assoc.
Qed.

Lemma wait_loop_finishes s a start millis T :
  (∀ t, on_Wait s t = S_OK) →
  (∀ t, (on_QueryStatus s t).1 = S_OK) →
  (∀ t, (T ≤ t < T + 3)%N → (on_QueryStatus s t).2 = VSS_S_ASYNC_FINISHED) →
  (∀ t, (t < T + 3)%N → ¬ int64 (on_Now s t - start) > millis) →
  ∀ fuel w, (tick w ≤ T + 1)%N → (N.to_nat (T + 2 - tick w) ≤ fuel)%nat →
    ∃ sub,
      wait_loop s fuel (Some a) start millis w =
        (Ret None, mkWorld (tick w + N.of_nat (length sub)) (sub ++ trace w))
      ∧ Forall (is_poll a) sub
      ∧ head sub = Some (EvQueryStatus a S_OK VSS_S_ASYNC_FINISHED).
Proof.
  intros Hwait Hquery Hfin Hclock fuel.
  induction fuel as [|fuel IH]; intros w HT Hfuel; [lia|].
  rewrite wait_loop_unfold. cbv zeta. unfold after. cbn [tick trace].
  rewrite decide_False by (intros H; apply H, Hwait).
  rewrite decide_False by (intros H; apply H, Hquery).
  rewrite Hwait.
  destruct (on_QueryStatus s (N.succ (tick w))) as [qh qs] eqn:Eq.
  pose proof (Hquery (N.succ (tick w))) as Hq1. rewrite Eq in Hq1.
  cbn [fst snd] in *. subst qh.
  case_decide as Hst.
  - subst qs. eexists [_; _]. split.
    + cbn [length app]. do 2 f_equal. lia.
    + split; [polls|done].
  - assert (N.succ (tick w) < T)%N as Hlt.
    { apply N.lt_nge. intros Hle. apply Hst.
      pose proof (Hfin (N.succ (tick w))) as Hf. rewrite Eq in Hf.
      apply Hf. lia. }
    rewrite decide_False by (apply Hclock; lia).
    match goal with
    | |- context [wait_loop _ _ _ _ _ ?w1] =>
        destruct (IH w1) as (sub & -> & Hsub & Hhd)
    end.
    { cbn [tick]. lia. }
    { cbn [tick]. lia. }
    cbn [tick trace]. eexists (sub ++ [_; _; _]). split.
    + rewrite <-app_assoc, length_app. cbn [length app]. do 2 f_equal. lia.
    + split; [apply Forall_app; split; [done|polls]|].
      destruct sub; [done|]. done.
Qed.

(** X6: An asynchronous step whose status queries all succeed, and report the
    operation finished from the tick [T] on, returns without an error when
    the test on the clock does not succeed before: it polls, and releases
    the handle right after the status query that reported the operation
    finished. *)
Theorem async_step_finishes s fuel function name millis w w1 a T :
  function w = (Ret (S_OK, Some a), w1) →
  (∀ t, on_Wait s t = S_OK) →
  (∀ t, (on_QueryStatus s t).1 = S_OK) →
  (tick w1 < T)%N →
  (∀ t, (T ≤ t < T + 3)%N → (on_QueryStatus s t).2 = VSS_S_ASYNC_FINISHED) →
  (∀ t, (t < T + 3)%N →
        ¬ int64 (on_Now s t - on_Now s (tick w1)) > millis) →
  (N.to_nat (T - tick w1) < fuel)%nat →
  ∃ polls w',
    handleAsyncFunctionCall s fuel function name millis w = (Ret None, w') ∧
    history w' =
      history w1 ++ EvNow (on_Now s (tick w1)) :: polls
        ++ [EvQueryStatus a S_OK VSS_S_ASYNC_FINISHED; EvRelease a] ∧
    Forall (is_poll a) polls.
Proof.
  intros Hf Hwait Hquery HT Hfin Hclock Hfuel.
  rewrite handleAsyncFunctionCall_eq, Hf.
  rewrite decide_False by (intros ?; done).
  rewrite WaitUntilAsyncFinished_eq.
  destruct (wait_loop_finishes s a (on_Now s (tick w1)) millis T
              Hwait Hquery Hfin Hclock fuel
              (after (EvNow (on_Now s (tick w1))) w1))
    as (sub & -> & Hsub & Hhd).
  { cbn [after tick]. lia. }
  { cbn [after tick]. lia. }
  destruct sub as [|ev sub]; [done|]. injection Hhd as ->.
  apply Forall_cons in Hsub as [_ Hsub].
  exists (reverse sub). eexists. split; [done|]. split.
  - rewrite history_after. unfold history, after. cbn [trace].
    rewrite reverse_app, reverse_cons, reverse_cons, <-!app_assoc. done.
  - by apply Forall_reverse.
Qed.

(** ** What a created snapshot holds *)

(** X7: A snapshot that [NewVssSnapshot] returns without an error holds the
    session handle that [QueryInterface] gave for [UUID_IVSS], the
    identifier that [AddToSnapshotSet] left in the variable that
    [StartSnapshotSet] had set, the properties that [GetSnapshotProperties]
    filled in for that identifier, which is the last call of the creation,
    and the budget in milliseconds; its device object is the one of these
    properties. *)
Theorem NewVssSnapshot_result s fuel volume timeoutInSeconds w snapshot w' :
  NewVssSnapshot s fuel volume timeoutInSeconds w = (Ret (snapshot, None), w') →
  ∃ u vss set id properties before between,
    snapshot = mkVssSnapshot (Some vss) id properties
                 (timeout_millis s timeoutInSeconds) ∧
    GetSnapshotDeviceObject snapshot = snapshotDeviceObject properties ∧
    history w' =
      history w ++ before
        ++ EvQueryInterface u UUID_IVSS 0 (Some vss)
        :: between
        ++ [EvGetSnapshotProperties vss id S_OK properties] ∧
    [ EvStartSnapshotSet vss S_OK set;
      EvAddToSnapshotSet vss volume set S_OK id ] `sublist_of` between.
Proof.
  unfold NewVssSnapshot. fold (timeout_millis s timeoutInSeconds).
  intros H. rewrite bind_eq in H.
  destruct (isRunningOn64BitWindows_run s w)
    as ([is64 err] & a0 & w0 & E & H0 & Ha0).
  rewrite E in H; clear E.
  destruct err as [msg|]; [exec H; discriminate H|].
  destruct (_ || _); [exec H; discriminate H|].
  rewrite bind_eq in H. unfold loadIVssBackupComponentsConstructor in H.
  destruct (findVssProc_lookup s
              (if decide (GOARCH s = "386")
               then "?CreateVssBackupComponents@@YGJPAPAVIVssBackupComponents@@@Z"
               else "?CreateVssBackupComponents@@YAJPEAPEAVIVssBackupComponents@@@Z")
              w0) as ([vssInstance err] & a1 & w1 & E & H1 & Ha1 & _).
  rewrite E in H; clear E. hist_in H1.
  destruct err as [e|]; [exec H; discriminate H|].
  exec H. destruct (on_CoInitialize s (tick w1)); [exec H; discriminate H|].
  exec H.
  destruct (on_CreateVssBackupComponents s (N.succ (tick w1)))
    as [result oleIUnknown].
  exec H. case_decide as Hresult.
  2:{ case_decide; exec H; discriminate H. }
  unfold queryInterface in H.
  destruct oleIUnknown as [u|]; [|exec H; discriminate H].
  exec H. destruct (on_QueryInterface s _) as [qr comInterface].
  exec H. case_decide as Hqr; [exec H; discriminate H|].
  exec H. unfold InitializeForBackup, SetContext, SetBackupState in H.
  destruct comInterface as [vss|]; [|exec H; discriminate H].
  exec H. cbv zeta in H. case_decide; [exec H; discriminate H|].
  exec H. case_decide; [exec H; discriminate H|].
  exec H. case_decide; [exec H; discriminate H|].
  async H; [exec H; discriminate H| |discriminate H|discriminate H
           |exec H; discriminate H].
  unfold IsVolumeSupported, StartSnapshotSet, AddToSnapshotSet,
    GetSnapshotProperties in H.
  exec H. destruct (on_IsVolumeSupported s (tick wa)) as [h1 isSupported].
  exec H. case_decide; [exec H; discriminate H|].
  destruct isSupported; cbn [negb] in H; [|exec H; discriminate H].
  exec H. destruct (on_StartSnapshotSet s _) as [h2 snapshotSetID].
  exec H. case_decide as Hh2; [exec H; discriminate H|].
  exec H. destruct (on_AddToSnapshotSet s _) as [h3 snapshotSetID'].
  exec H. case_decide as Hh3; [exec H; discriminate H|].
  async H; [exec H; discriminate H| |discriminate H|discriminate H
           |exec H; discriminate H].
  async H; [exec H; discriminate H| |discriminate H|discriminate H
           |exec H; discriminate H].
  exec H. destruct (on_GetSnapshotProperties s _) as [h4 properties].
  exec H. case_decide as Hh4; [exec H; discriminate H|].
  exec H. injection H as <- <-.
  assert (qr = 0) as -> by (by destruct (decide (qr = 0))).
  assert (h2 = S_OK) as -> by (by destruct (decide (h2 = S_OK))).
  assert (h3 = S_OK) as -> by (by destruct (decide (h3 = S_OK))).
  assert (h4 = S_OK) as -> by (by destruct (decide (h4 = S_OK))).
  subst h1.
  exists u, vss, snapshotSetID, snapshotSetID', properties.
  exists (a0 ++ a1 ++ [EvCoInitialize None;
                       EvCreateVssBackupComponents vssInstance result (Some u)]).
  eexists ([_; _; _; _] ++ waiting ++ [_; EvStartSnapshotSet vss S_OK snapshotSetID;
            EvAddToSnapshotSet vss volume snapshotSetID S_OK snapshotSetID'; _]
            ++ waiting0 ++ [_] ++ waiting1).
  split; [done|]. split; [done|]. split.
  - rewrite history_after, Hh1.
    repeat first [rewrite <-app_assoc | progress cbn [app]]. reflexivity.
  - apply sublist_inserts_l, sublist_inserts_l, sublist_cons.
    do 2 apply sublist_skip. apply sublist_nil_l.
Qed.

(** ** Panics *)

Lemma handleAsync_no_panic s fuel answer ev name millis w msg w' :
  (∀ t, (answer t).1 = S_OK → is_Some (answer t).2) →
  handleAsyncFunctionCall s fuel (async_call s answer ev) name millis w
    ≠ (Panic msg, w').
Proof.
  intros Hobj. rewrite handleAsyncFunctionCall_eq. unfold async_call. go.
  specialize (Hobj (tick w)).
  destruct (answer (tick w)) as [result ole]. cbn [fst snd] in *.
  rewrite handleAsyncReturnValue_eq. cbv zeta.
  case_decide as Hres. { by case_decide. }
  destruct ole as [u|].
  2:{ destruct Hobj as [? [=]]. by destruct (decide (result = S_OK)). }
  rewrite (decide_False (P := result ≠ S_OK)) by (intros ?; done).
  destruct (if decide _ then None else _) as [a|]; [|done].
  rewrite WaitUntilAsyncFinished_eq.
  match goal with
  | |- context [wait_loop ?s ?f (Some ?a) ?st ?m ?w0] =>
      destruct (wait_loop_polls s f a st m w0) as (sub & _ & _ & Hout);
      destruct (wait_loop s f (Some a) st m w0) as [[err| |] w2]
  end; done.
Qed.

(** One asynchronous step of [NewVssSnapshot] that is assumed, in [H], to
    end in a panic. *)
Ltac async_panic H Hobj :=
  rewrite bind_eq in H;
  rewrite ?GatherWriterMetadata_async, ?PrepareForBackup_async,
    ?DoSnapshotSet_async, ?BackupComplete_async in H;
  let E := fresh "E" in
  match type of H with
  | context [handleAsyncFunctionCall ?s ?f ?fn ?n ?m ?W] =>
      destruct (handleAsyncFunctionCall s f fn n m W) as [[[?|]| |] ?] eqn:E;
      [ exec H; try discriminate H
      | clear E
      | exfalso; revert E; apply handleAsync_no_panic, Hobj
      | discriminate H ]
  end.

Lemma NewVssSnapshot_no_panic s fuel volume timeoutInSeconds w msg w' :
  hands_out_objects s →
  NewVssSnapshot s fuel volume timeoutInSeconds w ≠ (Panic msg, w').
Proof.
  intros [Hcreate Hquery Hgather Hprepare Hdo _].
  unfold NewVssSnapshot. intros H. rewrite bind_eq in H.
  destruct (isRunningOn64BitWindows_run s w)
    as ([is64 err] & a0 & w0 & E & _ & _).
  rewrite E in H; clear E.
  destruct err as [e|]; [exec H; discriminate H|].
  destruct (_ || _); [exec H; discriminate H|].
  rewrite bind_eq in H. unfold loadIVssBackupComponentsConstructor in H.
  destruct (findVssProc_lookup s
              (if decide (GOARCH s = "386")
               then "?CreateVssBackupComponents@@YGJPAPAVIVssBackupComponents@@@Z"
               else "?CreateVssBackupComponents@@YAJPEAPEAVIVssBackupComponents@@@Z")
              w0) as ([vssInstance err] & a1 & w1 & E & _ & _ & _).
  rewrite E in H; clear E.
  destruct err as [e|]; [exec H; discriminate H|].
  exec H. destruct (on_CoInitialize s (tick w1)); [exec H; discriminate H|].
  exec H. specialize (Hcreate (N.succ (tick w1))).
  destruct (on_CreateVssBackupComponents s (N.succ (tick w1)))
    as [result oleIUnknown].
  exec H. case_decide as Hresult.
  2:{ case_decide; exec H; discriminate H. }
  unfold queryInterface in H.
  destruct oleIUnknown as [u|]; [|by destruct (Hcreate Hresult)].
  exec H.
  match type of H with
  | context [on_QueryInterface s ?t] =>
      specialize (Hquery t); destruct (on_QueryInterface s t) as [qr comInterface]
  end.
  exec H. case_decide as Hqr; [exec H; discriminate H|].
  exec H. unfold InitializeForBackup, SetContext, SetBackupState in H.
  destruct comInterface as [vss|].
  2:{ destruct Hquery as [? [=]]. by destruct (decide (qr = 0)). }
  exec H. cbv zeta in H. case_decide; [exec H; discriminate H|].
  exec H. case_decide; [exec H; discriminate H|].
  exec H. case_decide; [exec H; discriminate H|].
  async_panic H Hgather.
  unfold IsVolumeSupported, StartSnapshotSet, AddToSnapshotSet,
    GetSnapshotProperties in H.
  exec H.
  match type of H with
  | context [on_IsVolumeSupported s ?t] =>
      destruct (on_IsVolumeSupported s t) as [h1 isSupported]
  end.
  exec H. case_decide; [exec H; discriminate H|].
  destruct isSupported; cbn [negb] in H; [|exec H; discriminate H].
  exec H. destruct (on_StartSnapshotSet s _) as [h2 snapshotSetID].
  exec H. case_decide; [exec H; discriminate H|].
  exec H. destruct (on_AddToSnapshotSet s _) as [h3 snapshotSetID'].
  exec H. case_decide; [exec H; discriminate H|].
  async_panic H Hprepare.
  async_panic H Hdo.
  exec H. destruct (on_GetSnapshotProperties s _) as [h4 properties].
  exec H. case_decide; exec H; discriminate H.
Qed.

Lemma Delete_no_panic s fuel p w msg w' :
  hands_out_objects s → Delete s fuel p w ≠ (Panic msg, w').
Proof.
  intros [_ _ _ _ _ Hcomplete]. unfold Delete, vssFreeSnapshotProperties.
  intros H. rewrite bind_bind, bind_eq in H.
  destruct (findVssProc_lookup s "VssFreeSnapshotProperties" w)
    as ([proc err] & lookup & w1 & E & _ & _ & _).
  rewrite E in H; clear E.
  destruct err as [e|]; [exec H; discriminate H|].
  exec H. destruct (iVssBackupComponents p) as [vss|]; [|discriminate H].
  unfold defer in H. async_panic H Hcomplete.
  - unfold DeleteSnapshots, Release in H. exec H.
    destruct (on_DeleteSnapshots s _) as [[hd n] g]. exec H.
    case_decide; exec H; discriminate H.
  - unfold DeleteSnapshots, Release in H. exec H.
    destruct (on_DeleteSnapshots s _) as [[hd n] g]. exec H.
    case_decide; exec H; discriminate H.
Qed.

(** X8: Neither creating nor deleting a snapshot panics when the native
    interface hands out an object whenever it reports success. *)
Theorem creation_and_deletion_do_not_panic s fuel w msg :
  hands_out_objects s →
  (∀ volume timeoutInSeconds,
     (NewVssSnapshot s fuel volume timeoutInSeconds w).1 ≠ Panic msg)
  ∧ (∀ p, (Delete s fuel p w).1 ≠ Panic msg).
Proof.
  intros Hs. split.
  - intros volume timeoutInSeconds Hp.
    destruct (NewVssSnapshot _ _ _ _ _) as [o w'] eqn:H. cbn [fst] in Hp.
    subst o. by apply NewVssSnapshot_no_panic in H.
  - intros p Hp. destruct (Delete _ _ _ _) as [o w'] eqn:H. cbn [fst] in Hp.
    subst o. by apply Delete_no_panic in H.
Qed.

(** X9: An asynchronous operation whose native call reports success without
    handing out an object makes the step panic: the object is used without
    a test. *)
Theorem success_without_object_panics s fuel vss name millis w :
  let nil_dereference :=
    Panic (A := option error)
          "invalid memory address or nil pointer dereference" in
  (on_GatherWriterMetadata s (tick w) = (S_OK, None) →
     handleAsyncFunctionCall s fuel (GatherWriterMetadata s (Some vss))
       name millis w
       = (nil_dereference, after (EvGatherWriterMetadata vss S_OK None) w))
  ∧ (on_PrepareForBackup s (tick w) = (S_OK, None) →
       handleAsyncFunctionCall s fuel (PrepareForBackup s (Some vss))
         name millis w
         = (nil_dereference, after (EvPrepareForBackup vss S_OK None) w))
  ∧ (on_DoSnapshotSet s (tick w) = (S_OK, None) →
       handleAsyncFunctionCall s fuel (DoSnapshotSet s (Some vss))
         name millis w
         = (nil_dereference, after (EvDoSnapshotSet vss S_OK None) w))
  ∧ (on_BackupComplete s (tick w) = (S_OK, None) →
       handleAsyncFunctionCall s fuel (BackupComplete s (Some vss))
         name millis w
         = (nil_dereference, after (EvBackupComplete vss S_OK None) w)).
Proof.
  cbv zeta.
  rewrite GatherWriterMetadata_async, PrepareForBackup_async,
    DoSnapshotSet_async, BackupComplete_async.
  repeat split; intros Hans; rewrite handleAsyncFunctionCall_eq;
    unfold async_call; go; rewrite Hans; rewrite handleAsyncReturnValue_eq;
    by rewrite decide_False by (intros ?; done).
Qed.

(** ** A cooperating environment *)

Lemma handleAsync_finished_at_once s fuel answer ev name millis w :
  cooperates s → (0 < fuel)%nat →
  (∀ t, ∃ u, answer t = (S_OK, Some u)) →
  ∃ u a,
    handleAsyncFunctionCall s fuel (async_call s answer ev) name millis w =
      (Ret None,
       after (EvRelease a)
         (after (EvQueryStatus a S_OK VSS_S_ASYNC_FINISHED)
            (after (EvWait a 100 S_OK)
               (after (EvNow (on_Now s (N.succ (N.succ (tick w)))))
                  (after (EvQueryInterface u UIID_IVSS_ASYNC 0 (Some a))
                     (after (ev (S_OK, Some u)) w)))))).
Proof.
  intros Hs Hfuel Hans. destruct (Hans (tick w)) as [u Hu].
  destruct (coop_QueryInterface s Hs (N.succ (tick w))) as [a Ha].
  exists u, a. rewrite handleAsyncFunctionCall_eq. unfold async_call. go.
  rewrite Hu. rewrite handleAsyncReturnValue_eq. cbv zeta. cbn [after tick].
  rewrite Ha. cbn [fst snd].
  rewrite !decide_False by (intros ?; done).
  rewrite WaitUntilAsyncFinished_eq.
  destruct fuel as [|fuel]; [lia|]. rewrite wait_loop_unfold. cbv zeta.
  cbn [after tick]. rewrite (coop_Wait s Hs), (coop_QueryStatus s Hs).
  cbn [fst snd]. rewrite !decide_False by (intros ?; done).
  by rewrite decide_True.
Qed.

Lemma isRunningOn64BitWindows_cooperative s w :
  cooperates s →
  ∃ is64 asked w0,
    isRunningOn64BitWindows s w = (Ret (is64, None), w0) ∧
    history w0 = history w ++ asked ∧ Forall is_aux asked ∧
    (is64 && bool_decide (GOARCH s ≠ "amd64"))
      || (negb is64 && bool_decide (GOARCH s ≠ "386")) = false.
Proof.
  intros Hs. unfold isRunningOn64BitWindows.
  destruct (coop_arch s Hs) as [H64|[H32 Hp]].
  - rewrite H64. rewrite decide_True by done. exists true, [], w.
    split; [done|]. rewrite app_nil_r. by repeat split.
  - rewrite H32. rewrite decide_False by done. go.
    destruct (Hp (tick w)) as [-> _]. go.
    destruct (Hp (N.succ (tick w))) as [_ ->]. go.
    eexists false, [_; _], _. split; [done|].
    rewrite !history_after, <-app_assoc. split; [done|]. split; [aux|done].
Qed.

Ltac coop Hs H :=
  repeat first
    [ progress exec H
    | rewrite (coop_DllLoad _ Hs) in H
    | rewrite (coop_ProcFind _ Hs) in H
    | rewrite (coop_CoInitialize _ Hs) in H
    | rewrite (coop_InitializeForBackup _ Hs) in H
    | rewrite (coop_SetContext _ Hs) in H
    | rewrite (coop_SetBackupState _ Hs) in H
    | rewrite (coop_IsVolumeSupported _ Hs) in H
    | rewrite (decide_False (P := S_OK ≠ S_OK)) in H by (intros ?; done)
    | rewrite (decide_True (P := S_OK = S_OK)) in H by done
    | rewrite (decide_False (P := 0 ≠ 0)) in H by (intros ?; done)
    | progress cbn [negb] in H ].

(** One asynchronous step in a cooperating environment, in [H]. *)
Ltac coop_async Hs Hfuel H :=
  rewrite bind_eq in H;
  rewrite ?GatherWriterMetadata_async, ?PrepareForBackup_async,
    ?DoSnapshotSet_async, ?BackupComplete_async in H;
  match type of H with
  | context [handleAsyncFunctionCall ?s ?f (async_call ?s ?answer ?ev) ?n ?m ?W] =>
      let u := fresh "u" in
      let a := fresh "a" in
      let E := fresh "E" in
      destruct (handleAsync_finished_at_once s f answer ev n m W Hs Hfuel)
        as (u & a & E);
      [ first [ apply (coop_GatherWriterMetadata _ Hs)
              | apply (coop_PrepareForBackup _ Hs)
              | apply (coop_DoSnapshotSet _ Hs)
              | apply (coop_BackupComplete _ Hs) ]
      | rewrite E in H; clear E ]
  end.

(** X10: In a cooperating environment creation succeeds with all eleven steps,
    and deleting what it returned succeeds: the properties record is
    released, the completion signal is given and waited for, the snapshot
    that was created is deleted, and the session handle is released. *)
Theorem create_and_delete_succeed s fuel volume timeoutInSeconds w :
  cooperates s → (0 < fuel)%nat →
  ∃ snapshot vss created w1 u a now n g w2,
    NewVssSnapshot s fuel volume timeoutInSeconds w
      = (Ret (snapshot, None), w1) ∧
    iVssBackupComponents snapshot = Some vss ∧
    history w1 = history w ++ created ∧
    omap step_of created = (λ st, (st, S_OK, true)) <$> protocol ∧
    Delete s fuel snapshot w1 = (Ret None, w2) ∧
    history w2 =
      history w1
        ++ [ EvDllLoad "VssApi.dll" None;
             EvProcFind "VssFreeSnapshotProperties" None;
             EvVssFreeSnapshotProperties (snapshotProperties snapshot);
             EvBackupComplete vss S_OK (Some u);
             EvQueryInterface u UIID_IVSS_ASYNC 0 (Some a);
             EvNow now;
             EvWait a 100 S_OK;
             EvQueryStatus a S_OK VSS_S_ASYNC_FINISHED;
             EvRelease a;
             EvDeleteSnapshots vss (snapshotID snapshot) VSS_OBJECT_SNAPSHOT
                               S_OK n g;
             EvRelease vss ].
Proof.
  intros Hs Hfuel.
  destruct (NewVssSnapshot s fuel volume timeoutInSeconds w) as [o w1] eqn:H.
  revert H. unfold NewVssSnapshot. intros H. rewrite bind_eq in H.
  destruct (isRunningOn64BitWindows_cooperative s w Hs)
    as (is64 & asked & w0 & E & H0 & Ha0 & Hgate).
  rewrite E, Hgate in H; clear E Hgate.
  unfold loadIVssBackupComponentsConstructor, findVssProc in H.
  coop Hs H.
  match type of H with
  | context [on_CreateVssBackupComponents s ?t] =>
      destruct (coop_CreateVssBackupComponents s Hs t) as [u0 Hu0];
      rewrite Hu0 in H; clear Hu0
  end.
  unfold queryInterface in H. coop Hs H.
  match type of H with
  | context [on_QueryInterface s ?t] =>
      destruct (coop_QueryInterface s Hs t) as [vss Hvss];
      rewrite Hvss in H; clear Hvss
  end.
  unfold InitializeForBackup, SetContext, SetBackupState in H. cbv zeta in H.
  coop Hs H.
  coop_async Hs Hfuel H.
  unfold IsVolumeSupported, StartSnapshotSet, AddToSnapshotSet,
    GetSnapshotProperties in H.
  coop Hs H.
  match type of H with
  | context [on_StartSnapshotSet s ?t] =>
      pose proof (coop_StartSnapshotSet s Hs t) as Hst;
      destruct (on_StartSnapshotSet s t) as [h2 snapshotSetID];
      cbn [fst] in Hst; subst h2
  end.
  coop Hs H.
  match type of H with
  | context [on_AddToSnapshotSet s ?t] =>
      pose proof (coop_AddToSnapshotSet s Hs t) as Hst;
      destruct (on_AddToSnapshotSet s t) as [h3 snapshotSetID'];
      cbn [fst] in Hst; subst h3
  end.
  coop Hs H.
  coop_async Hs Hfuel H.
  coop_async Hs Hfuel H.
  coop Hs H.
  match type of H with
  | context [on_GetSnapshotProperties s ?t] =>
      pose proof (coop_GetSnapshotProperties s Hs t) as Hst;
      destruct (on_GetSnapshotProperties s t) as [h4 properties];
      cbn [fst] in Hst; subst h4
  end.
  coop Hs H. injection H as <- <-.
  match goal with
  | |- context [(Ret (?x, None), ?W) = _] => set (snapshot := x); set (w1 := W)
  end.
  assert (∃ created, history w1 = history w ++ created
            ∧ omap step_of created = (λ st, (st, S_OK, true)) <$> protocol)
    as (created & Hh & Hsteps).
  { unfold w1. rewrite !history_after, H0.
    repeat first [rewrite <-app_assoc | progress cbn [app]].
    eexists. split; [reflexivity|].
    rewrite omap_app, (aux_no_step asked Ha0). reflexivity. }
  clearbody w1.
  exists snapshot, vss, created, w1.
  destruct (Delete s fuel snapshot w1) as [o2 w2] eqn:H.
  unfold Delete, vssFreeSnapshotProperties, findVssProc in H.
  coop Hs H. cbn [iVssBackupComponents snapshot] in H.
  unfold defer in H. coop_async Hs Hfuel H.
  unfold DeleteSnapshots, Release in H. coop Hs H.
  match type of H with
  | context [on_DeleteSnapshots s ?t] =>
      pose proof (coop_DeleteSnapshots s Hs t) as Hst;
      destruct (on_DeleteSnapshots s t) as [[hd n] g];
      cbn [fst] in Hst; subst hd
  end.
  coop Hs H. injection H as <- <-.
  do 6 eexists.
  split; [done|]. split; [done|]. split; [done|]. split; [done|].
  split; [done|].
  unfold history. cbn [trace]. rewrite !reverse_cons.
  repeat first [rewrite <-app_assoc | progress cbn [app]]. reflexivity.
Qed.


(** ** The cache of the resolver *)

Section ResolverCache.

Import Resolver Reading.

Context {VssSnapshot W : Type}.
Variable NewVssSnapshot : string → Z → M W (VssSnapshot * option error).
Variable Delete : VssSnapshot → M W (option error).
Variable GetSnapshotDeviceObject : VssSnapshot → string.
Variable fixpath : string → string.
Variable Join : string → string → string.

#[local] Abbreviation snapshotPath_of :=
  (snapshotPath_of NewVssSnapshot GetSnapshotDeviceObject fixpath Join).
#[local] Abbreviation run_of :=
  (run_of NewVssSnapshot Delete GetSnapshotDeviceObject fixpath Join).
#[local] Abbreviation resolve :=
  (resolve NewVssSnapshot GetSnapshotDeviceObject fixpath Join).
#[local] Abbreviation fixPath := (fixPath fixpath).
#[local] Abbreviation exec_of :=
  (exec_of NewVssSnapshot Delete GetSnapshotDeviceObject fixpath Join).
#[local] Abbreviation DeleteSnapshots_of := (DeleteSnapshots_of Delete).
#[local] Abbreviation served_from := (served_from fixpath Join).

(** One operation, in either revision. *)
Lemma exec_of_resolve r o st :
  exec_of r o st =
    match op_path o with
    | Some name => bind (resolve r name) (λ p, ret (hand_on o p)) st
    | None => bind (DeleteSnapshots_of r) (λ _, ret None) st
    end.
Proof.
  destruct r; cbn [Reading.exec_of]; rewrite ?exec_resolve, ?exec2_resolve;
    by destruct o.
Qed.

Lemma run_of_cons r o ops st :
  run_of r (o :: ops) st =
    match exec_of r o st with
    | (Ret c, st1) =>
        match run_of r ops st1 with
        | (Ret cs, st2) => (Ret (c :: cs), st2)
        | (Panic msg, st2) => (Panic msg, st2)
        | (OutOfFuel, st2) => (OutOfFuel, st2)
        end
    | (Panic msg, st1) => (Panic msg, st1)
    | (OutOfFuel, st1) => (OutOfFuel, st1)
    end.
Proof.
  destruct r; cbn [Resolver.run_of run run2 Reading.exec_of]; rewrite bind_eq.
  - by destruct (exec _ _ _ _ _ o st) as [[c| |] st1].
  - by destruct (exec2 _ _ _ _ _ o st) as [[c| |] st1].
Qed.

Lemma DeleteSnapshots_of_snapshots r st :
  snapshots (DeleteSnapshots_of r st).2 = snapshots st.
Proof.
  destruct r; [apply DeleteSnapshots_snapshots|apply DeleteSnapshots2_snapshots].
Qed.

(** What one call of [snapshotPath] may change in the cache. *)
Lemma resolve_frame r path st v :
  volume_of fixpath path ≠ Some v →
  snapshots (resolve r path st).2 !! v = snapshots st !! v.
Proof.
  unfold volume_of, Resolver.resolve. fold fixPath. intros Hv.
  destruct (Strings.slice_to 2 _) as [volumeName|]; [|done].
  destruct (snapshots st !! volumeName); [done|]. cbv zeta.
  destruct (NewVssSnapshot _ _ _) as [[[snapshot [e|]]| |] w']; try done.
  cbn [snd snapshots]. apply lookup_insert_ne. congruence.
Qed.

(** X11: The cache holds volumes of paths that were read, and nothing else: a
    call of [snapshotPath] leaves the entries of all other volumes as
    they are, and after any sequence of operations every entry was there
    at the start or belongs to the volume of a path that was read. *)
Theorem cache_holds_only_volumes_read r :
  (∀ path st v,
     volume_of fixpath path ≠ Some v →
     snapshots (snapshotPath_of r path st).2 !! v = snapshots st !! v)
  ∧ (∀ ops st v,
       is_Some (snapshots (run_of r ops st).2 !! v) →
       is_Some (snapshots st !! v)
       ∨ ∃ o name, o ∈ ops ∧ op_path o = Some name
                   ∧ volume_of fixpath name = Some v).
Proof.
  split.
  { intros path st v Hv. rewrite snapshotPath_resolve.
    by apply resolve_frame. }
  intros ops. induction ops as [|o ops IH]; intros st v.
  { destruct r; cbn; auto. }
  rewrite run_of_cons, exec_of_resolve.
  assert (∀ st1, is_Some (snapshots (run_of r ops st1).2 !! v) →
            snapshots st1 !! v = snapshots st !! v →
            is_Some (snapshots st !! v)
            ∨ ∃ o' name, o' ∈ o :: ops ∧ op_path o' = Some name
                         ∧ volume_of fixpath name = Some v) as Hrest.
  { intros st1 H1 Heq. destruct (IH st1 v H1) as [H|(o' & name & Hin & H)].
    - left. by rewrite <-Heq.
    - right. exists o', name. split; [by apply list_elem_of_further|done]. }
  destruct (op_path o) as [name|] eqn:Ho.
  - rewrite bind_eq.
    destruct (decide (volume_of fixpath name = Some v)) as [Hv|Hv].
    { intros _. right. exists o, name. split; [apply list_elem_of_here|done]. }
    pose proof (resolve_frame r name st v Hv) as Hf.
    destruct (resolve r name st) as [[p| |] st1]; cbn [fst snd] in *.
    + cbn [ret]. specialize (Hrest st1).
      destruct (run_of r ops st1) as [[cs| |] st2]; cbn [snd] in *;
        intros H; by apply Hrest.
    + intros H. left. by rewrite <-Hf.
    + intros H. left. by rewrite <-Hf.
  - rewrite bind_eq. pose proof (DeleteSnapshots_of_snapshots r st) as Hd.
    destruct (DeleteSnapshots_of r st) as [[[]| |] st1]; cbn [fst snd] in *.
    + cbn [ret]. specialize (Hrest st1).
      destruct (run_of r ops st1) as [[cs| |] st2]; cbn [snd] in *;
        intros H; apply Hrest; by rewrite ?Hd.
    + intros H. left. by rewrite <-Hd.
    + intros H. left. by rewrite <-Hd.
Qed.

Lemma resolve_revisions path st1 st2 :
  same_cache st1 st2 →
  (resolve Handlers path st1).1 = (resolve Printing path st2).1
  ∧ same_cache (resolve Handlers path st1).2 (resolve Printing path st2).2.
Proof.
  intros [Hs Hp]. unfold Resolver.resolve. rewrite Hs, Hp.
  destruct (Strings.slice_to 2 _) as [volumeName|]; [|done].
  destruct (snapshots st2 !! volumeName); [done|]. cbv zeta.
  by destruct (NewVssSnapshot _ _ _) as [[[snapshot [e|]]| |] w'].
Qed.

Lemma reads_revisions ops :
  Forall (λ o, is_Some (op_path o)) ops →
  ∀ st1 st2, same_cache st1 st2 →
    (run_of Handlers ops st1).1 = (run_of Printing ops st2).1
    ∧ same_cache (run_of Handlers ops st1).2 (run_of Printing ops st2).2.
Proof.
  induction 1 as [|o ops [name Ho] _ IH]; intros st1 st2 Hst; [done|].
  rewrite !run_of_cons, !exec_of_resolve, Ho, !bind_eq.
  destruct (resolve_revisions name st1 st2 Hst) as [Hout Hc].
  destruct (resolve Handlers name st1) as [[p1| |] st1'],
           (resolve Printing name st2) as [[p2| |] st2'];
    cbn [fst snd] in *; simplify_eq; [|done..].
  cbn [ret]. destruct (IH st1' st2' Hc) as [Hout' Hc'].
  destruct (run_of Handlers ops st1') as [[cs1| |] st1''],
           (run_of Printing ops st2') as [[cs2| |] st2''];
    cbn [fst snd] in *; by simplify_eq.
Qed.

(** X12: On sequences of reads the two revisions of the file differ in the
    messages they send and in nothing else: when the run of one revision
    returns, the run of the other returns the same calls for the wrapped
    file system, with the same cache and the same platform. *)
Theorem revisions_differ_in_messages_only ops st cs :
  Forall (λ o, is_Some (op_path o)) ops →
  (∀ st1, run_of Handlers ops st = (Ret cs, st1) →
     ∃ log, run_of Printing ops st
              = (Ret cs, mkState (snapshots st1) (platform st1) log))
  ∧ (∀ st2, run_of Printing ops st = (Ret cs, st2) →
       ∃ log, run_of Handlers ops st
                = (Ret cs, mkState (snapshots st2) (platform st2) log)).
Proof.
  intros Hops.
  destruct (reads_revisions ops Hops st st) as [Hout [Hs Hp]]; [done|].
  split.
  - intros st1 H1. rewrite H1 in Hout, Hs, Hp. cbn [fst snd] in *.
    destruct (run_of Printing ops st) as [o2 [s2 p2 log]].
    cbn [fst snd snapshots platform] in *. subst. by exists log.
  - intros st2 H2. rewrite H2 in Hout, Hs, Hp. cbn [fst snd] in *.
    destruct (run_of Handlers ops st) as [o1 [s1 p1 log]].
    cbn [fst snd snapshots platform] in *. subst. by exists log.
Qed.

Lemma reads_from_cache r ops st v snapshot :
  snapshots st !! v = Some snapshot →
  Forall (λ o, ∃ name, op_path o = Some name
                       ∧ volume_of fixpath name = Some v) ops →
  run_of r ops st
    = (Ret (served_from (GetSnapshotDeviceObject snapshot) <$> ops), st).
Proof.
  intros Hv Hops. induction Hops as [|o ops (name & Ho & Hn) _ IH].
  { by destruct r. }
  rewrite run_of_cons, exec_of_resolve, Ho, bind_eq.
  unfold Resolver.resolve. fold fixPath. unfold volume_of in Hn.
  fold fixPath in Hn. rewrite Hn, Hv, (slice_to_2_rest _ _ Hn).
  cbn [ret]. rewrite IH. cbn [fmap list_fmap].
  unfold Reading.served_from at 2. by rewrite Ho.
Qed.

(** X13: One creation serves every read on the volume: when the snapshot of a
    volume is created at the first of a sequence of reads on that volume,
    every read of the sequence is served from that snapshot, and the
    platform is not called again after the creation. *)
Theorem one_creation_serves_every_read r ops st v snapshot w' :
  snapshots st !! v = None →
  NewVssSnapshot (v +:+ "\") 120 (platform st) = (Ret (snapshot, None), w') →
  ops ≠ [] →
  Forall (λ o, ∃ name, op_path o = Some name
                       ∧ volume_of fixpath name = Some v) ops →
  run_of r ops st
    = (Ret (served_from (GetSnapshotDeviceObject snapshot) <$> ops),
       mkState (<[v := snapshot]> (snapshots st)) w'
               (created r (v +:+ "\") :: creating r (v +:+ "\")
                  :: messages st)).
Proof.
  intros Hv Hnew Hne Hops. destruct Hops as [|o ops (name & Ho & Hn) Hops].
  { done. }
  rewrite run_of_cons, exec_of_resolve, Ho, bind_eq.
  unfold Resolver.resolve. fold fixPath. unfold volume_of in Hn.
  fold fixPath in Hn. rewrite Hn, Hv, (slice_to_2_rest _ _ Hn).
  cbv zeta. rewrite Hnew. cbn [ret].
  rewrite (reads_from_cache r ops _ v snapshot).
  - cbn [fmap list_fmap]. unfold Reading.served_from at 2. by rewrite Ho.
  - cbn [snapshots]. apply lookup_insert_eq.
  - done.
Qed.

(** X14: A path that [fixpath] turns into a UNC path of the long form is cached
    under the key [UN], whatever the server and the share: a snapshot of
    the volume [UN\] is asked for when the key has no entry, the path is
    returned as it was given when that fails, and a snapshot under that
    key would be used for it. *)
Theorem unc_paths_share_the_key_UN r path rest st :
  fixpath path = "\\?\UNC\" +:+ rest →
  volume_of fixpath path = Some "UN"
  ∧ (snapshots st !! "UN" = None →
       platform (snapshotPath_of r path st).2
         = (NewVssSnapshot "UN\" 120 (platform st)).2
       ∧ ∀ snapshot e w',
           NewVssSnapshot "UN\" 120 (platform st)
             = (Ret (snapshot, Some e), w') →
           (snapshotPath_of r path st).1 = Ret path)
  ∧ (∀ snapshot,
       snapshots st !! "UN" = Some snapshot →
       snapshotPath_of r path st
         = (Ret (Join (GetSnapshotDeviceObject snapshot) ("C\" +:+ rest)),
            st)).
Proof.
  intros Hp.
  assert (fixPath path = "UNC\" +:+ rest) as Hfix.
  { unfold Resolver.fixPath. by rewrite Hp. }
  assert (volume_of fixpath path = Some "UN") as Hv.
  { unfold volume_of. fold fixPath. by rewrite Hfix. }
  split; [done|]. rewrite snapshotPath_resolve. unfold Resolver.resolve.
  unfold volume_of in Hv. fold fixPath in Hv. fold fixPath. rewrite Hv.
  change ("UN" +:+ "\") with "UN\". split.
  - intros ->. cbv zeta. split.
    + by destruct (NewVssSnapshot _ _ _) as [[[snapshot [e|]]| |] w'].
    + intros snapshot e w' ->. done.
  - intros snapshot ->. by rewrite Hfix.
Qed.

End ResolverCache.

(** ** The further properties in particular environments *)


(** [NewVssSnapshot_refuses_386_on_64bit] in such an environment. *)
Lemma NewVssSnapshot_refuses_386_on_64bit_witness :
  NewVssSnapshot i386_on_64bit 5 "C:\" 120 World_init
    = (Ret (VssSnapshot_zero, Some (ErrArchitecture "386")),
       mkWorld 2 [EvIsWow64Process true None; EvGetCurrentProcess None]).
Proof.
  apply (NewVssSnapshot_refuses_386_on_64bit i386_on_64bit 5 "C:\" 120
           World_init); reflexivity.
Defined.

(** [WaitUntilAsyncFinished_rounds] for a wait with a budget of 0 that
    times out after ten rounds, when the clock has advanced by a second. *)
Lemma WaitUntilAsyncFinished_rounds_witness :
  WaitUntilAsyncFinished never_finished 20 (Some 101%nat) 0 gather_started
    = (timed_out_wait.1, timed_out_wait.2)
  ∧ timed_out_wait.1 = Ret (Some (ErrWaitTimedOut 0))
  ∧ ∃ start rounds final,
      history timed_out_wait.2
        = history gather_started ++ EvNow start :: concat rounds ++ final ∧
      Forall (round 101 start 0) rounds ∧
      match timed_out_wait.1 with
      | Ret err => last_round 101 start 0 final err
                   ∧ (length rounds < 20)%nat
      | Panic _ => False
      | OutOfFuel => final = [] ∧ length rounds = 20%nat
      end.
Proof.
  split; [vm_compute; reflexivity|]. split; [vm_compute; reflexivity|].
  apply (WaitUntilAsyncFinished_rounds never_finished 20 101 0 gather_started).
  vm_compute. reflexivity.
Defined.

(** [async_step_finishes] for [GatherWriterMetadata] in the cooperative
    environment, where the first status query reports the operation
    finished. *)
Lemma async_step_finishes_witness :
  ∃ polls w',
    handleAsyncFunctionCall cooperative 2
      (GatherWriterMetadata cooperative (Some 104%nat))
      "GatherWriterMetadata" 120000 World_init
      = (Ret None, w') ∧
    history w' =
      history (GatherWriterMetadata cooperative (Some 104%nat) World_init).2
        ++ EvNow (on_Now cooperative 2) :: polls
        ++ [EvQueryStatus 101 S_OK VSS_S_ASYNC_FINISHED; EvRelease 101] ∧
    Forall (is_poll 101) polls.
Proof.
  apply (async_step_finishes cooperative 2
           (GatherWriterMetadata cooperative (Some 104%nat))
           "GatherWriterMetadata" 120000 World_init
           (GatherWriterMetadata cooperative (Some 104%nat) World_init).2
           101 3%N).
  - vm_compute. reflexivity.
  - intros t. reflexivity.
  - intros t. reflexivity.
  - vm_compute. reflexivity.
  - intros t _. reflexivity.
  - intros t _. vm_compute. congruence.
  - vm_compute. lia.
Defined.

(** [NewVssSnapshot_result] for the creation in the cooperative
    environment. *)
Lemma NewVssSnapshot_result_witness :
  NewVssSnapshot cooperative 1 "C:\" 120 World_init
    = (Ret (snapshot_1, None), cooperative_run.2)
  ∧ ∃ u vss set id properties before between,
      snapshot_1 = mkVssSnapshot (Some vss) id properties
                     (timeout_millis cooperative 120) ∧
      GetSnapshotDeviceObject snapshot_1 = snapshotDeviceObject properties ∧
      history cooperative_run.2 =
        history World_init ++ before
          ++ EvQueryInterface u UUID_IVSS 0 (Some vss)
          :: between
          ++ [EvGetSnapshotProperties vss id S_OK properties] ∧
      [ EvStartSnapshotSet vss S_OK set;
        EvAddToSnapshotSet vss "C:\" set S_OK id ] `sublist_of` between.
Proof.
  split; [vm_compute; reflexivity|].
  apply (NewVssSnapshot_result cooperative 1 "C:\" 120 World_init snapshot_1
           cooperative_run.2).
  vm_compute. reflexivity.
Defined.

(** [creation_and_deletion_do_not_panic] in the cooperative environment. *)
Lemma creation_and_deletion_do_not_panic_witness :
  (∀ volume timeoutInSeconds,
     (NewVssSnapshot cooperative 5 volume timeoutInSeconds World_init).1
       ≠ Panic "invalid memory address or nil pointer dereference")
  ∧ (∀ p, (Delete cooperative 5 p World_init).1
            ≠ Panic "invalid memory address or nil pointer dereference").
Proof.
  apply (creation_and_deletion_do_not_panic cooperative 5 World_init).
  split; intros t _; by eexists.
Defined.

(** [create_and_delete_succeed] in the cooperative environment. *)
Lemma create_and_delete_succeed_witness :
  ∃ snapshot vss created w1 u a now n g w2,
    NewVssSnapshot cooperative 1 "C:\" 120 World_init
      = (Ret (snapshot, None), w1) ∧
    iVssBackupComponents snapshot = Some vss ∧
    history w1 = history World_init ++ created ∧
    omap step_of created = (λ st, (st, S_OK, true)) <$> protocol ∧
    Delete cooperative 1 snapshot w1 = (Ret None, w2) ∧
    history w2 =
      history w1
        ++ [ EvDllLoad "VssApi.dll" None;
             EvProcFind "VssFreeSnapshotProperties" None;
             EvVssFreeSnapshotProperties (snapshotProperties snapshot);
             EvBackupComplete vss S_OK (Some u);
             EvQueryInterface u UIID_IVSS_ASYNC 0 (Some a);
             EvNow now;
             EvWait a 100 S_OK;
             EvQueryStatus a S_OK VSS_S_ASYNC_FINISHED;
             EvRelease a;
             EvDeleteSnapshots vss (snapshotID snapshot) VSS_OBJECT_SNAPSHOT
                               S_OK n g;
             EvRelease vss ].
Proof.
  apply (create_and_delete_succeed cooperative 1 "C:\" 120 World_init).
  - split; try (intros; reflexivity); try (intros; by eexists). by left.
  - lia.
Defined.

(** [one_creation_serves_every_read] on windows, in the cooperative
    environment, for two reads on the volume [C:]. *)
Lemma one_creation_serves_every_read_witness :
  let ops := [Resolver.OpOpen "C:\a.txt"; Resolver.OpLstat "C:\c.txt"] in
  let root := "\\?\GLOBALROOT\Device\HarddiskVolumeShadowCopy1" in
  Resolver.run_of (NewVssSnapshot cooperative 5) (Delete cooperative 5)
    GetSnapshotDeviceObject fixpath_absolute Join_rooted Resolver.Handlers
    ops (Resolver.NewLocalVss World_init)
    = (Ret [ Some (Resolver.FS_Open (root +:+ "\a.txt"));
             Some (Resolver.FS_Lstat (root +:+ "\c.txt")) ],
       Resolver.mkState
         {[ "C:" := snapshot_1 ]}
         (NewVssSnapshot cooperative 5 "C:\" 120 World_init).2
         [ Resolver.created Resolver.Handlers "C:\";
           Resolver.creating Resolver.Handlers "C:\" ]).
Proof.
  cbv zeta.
  apply (one_creation_serves_every_read (NewVssSnapshot cooperative 5)
           (Delete cooperative 5) GetSnapshotDeviceObject fixpath_absolute
           Join_rooted Resolver.Handlers
           [Resolver.OpOpen "C:\a.txt"; Resolver.OpLstat "C:\c.txt"]
           (Resolver.NewLocalVss World_init) "C:" snapshot_1
           (NewVssSnapshot cooperative 5 "C:\" 120 World_init).2).
  - reflexivity.
  - vm_compute. reflexivity.
  - discriminate.
  - repeat constructor; by eexists.
Defined.

(** [unc_paths_share_the_key_UN] for a path on a share, on a platform
    other than windows, where no snapshot can be created. *)
Lemma unc_paths_share_the_key_UN_witness :
  let snapshotPath :=
    Resolver.snapshotPath_of (W := unit) VssDummy.NewVssSnapshot
      VssDummy.GetSnapshotDeviceObject fixpath_unc Join_rooted
      Resolver.Handlers in
  fixpath_unc "\\server\share\f.txt" = "\\?\UNC\server\share\f.txt"
  ∧ volume_of fixpath_unc "\\server\share\f.txt" = Some "UN"
  ∧ (snapshotPath "\\server\share\f.txt" (Resolver.NewLocalVss ())).1
      = Ret "\\server\share\f.txt".
Proof.
  cbv zeta. split; [reflexivity|].
  destruct (unc_paths_share_the_key_UN (W := unit) VssDummy.NewVssSnapshot
              VssDummy.GetSnapshotDeviceObject fixpath_unc Join_rooted
              Resolver.Handlers "\\server\share\f.txt"
              "server\share\f.txt" (Resolver.NewLocalVss ()) eq_refl)
    as (Hkey & Hmiss & _).
  split; [exact Hkey|].
  destruct (Hmiss eq_refl) as [_ Hfail].
  apply (Hfail VssDummy.mkVssSnapshot ErrOnlyOnWindows ()). reflexivity.
Defined.

(** [revisions_differ_in_messages_only] on windows, in the cooperative
    environment, for two reads on the volume [C:]. *)
Lemma revisions_differ_in_messages_only_witness :
  let ops := [Resolver.OpOpen "C:\a.txt"; Resolver.OpLstat "C:\c.txt"] in
  let root := "\\?\GLOBALROOT\Device\HarddiskVolumeShadowCopy1" in
  let cs := [ Some (Resolver.FS_Open (root +:+ "\a.txt"));
              Some (Resolver.FS_Lstat (root +:+ "\c.txt")) ] in
  let st1 :=
    Resolver.mkState {[ "C:" := snapshot_1 ]}
      (NewVssSnapshot cooperative 5 "C:\" 120 World_init).2
      [ Resolver.created Resolver.Handlers "C:\";
        Resolver.creating Resolver.Handlers "C:\" ] in
  Resolver.run_of (NewVssSnapshot cooperative 5) (Delete cooperative 5)
    GetSnapshotDeviceObject fixpath_absolute Join_rooted Resolver.Handlers
    ops (Resolver.NewLocalVss World_init) = (Ret cs, st1)
  ∧ ∃ log,
      Resolver.run_of (NewVssSnapshot cooperative 5) (Delete cooperative 5)
        GetSnapshotDeviceObject fixpath_absolute Join_rooted
        Resolver.Printing ops (Resolver.NewLocalVss World_init)
        = (Ret cs,
           Resolver.mkState (Resolver.snapshots st1) (Resolver.platform st1)
                            log).
Proof.
  cbv zeta. split; [vm_compute; reflexivity|].
  apply (revisions_differ_in_messages_only (NewVssSnapshot cooperative 5)
           (Delete cooperative 5) GetSnapshotDeviceObject fixpath_absolute
           Join_rooted
           [Resolver.OpOpen "C:\a.txt"; Resolver.OpLstat "C:\c.txt"]
           (Resolver.NewLocalVss World_init)).
  - repeat constructor; by eexists.
  - vm_compute. reflexivity.
Defined.
